(** * A direct-messaging relay

    Shallow embedding of [server.py] (class [ChatServer]) and [client.py]
    (class [ChatClient]): the newline-delimited framing both endpoints use,
    the server's client registry, identity and message-id counters and its
    routing of chat packets, and the client's local history with receipt
    reconciliation, reply resolution and temporary messages.

    Conventions.
    - A Python [str] is the list of its code points ([pystr]); a [bytes]
      object is a [list byte].
    - Values that come out of [json.loads] are dynamically typed: they are
      modelled by [pyval], with Python's [==] as [py_eqb].
    - Python [int] is unbounded: counters are [Z] with no wrap-around.
    - Python [float] is IEEE binary64: [spec_float] with precision 53 and
      maximal exponent 1024.
    - Code that raises is modelled in a state-and-exception monad [M]; the
      exception classes that matter to the [except] clauses are [pyexc].
    - Every [with self.lock:] block is one atomic function on the server
      record, so a concurrent execution is a sequence of such blocks. *)

From Stdlib.Strings Require Import String Ascii Byte.
From Stdlib Require Import ZArith NArith List Bool Lia.
From Stdlib Require Import Decimal DecimalFacts DecimalPos DecimalZ.
From Stdlib Require Import SpecFloat Sorted.
Import ListNotations.
Open Scope Z_scope.
Set Warnings "-register-all".


(* ================================================================= *)
(** ** Python strings *)

Definition pystr := list N.

(** An ASCII literal of the source as a Python string. *)
Definition u (s : string) : pystr := List.map N_of_ascii (list_ascii_of_string s).

Fixpoint str_eqb (a b : pystr) : bool :=
  match a, b with
  | [], [] => true
  | x :: a', y :: b' => N.eqb x y && str_eqb a' b'
  | _, _ => false
  end.

(** [DELIMITER = "\n"] *)
Definition DELIMITER : N := 10%N.

(** [str.isspace] for one code point: the characters [str.strip()] removes. *)
Definition py_isspace (c : N) : bool :=
  ((9 <=? c) && (c <=? 13) || (28 <=? c) && (c <=? 32)
   || (c =? 133) || (c =? 160) || (c =? 5760)
   || (8192 <=? c) && (c <=? 8202)
   || (c =? 8232) || (c =? 8233) || (c =? 8239) || (c =? 8287)
   || (c =? 12288))%N.

(** Truth value of [line.strip()]: some character is not white space. *)
Definition strip_nonempty (line : pystr) : bool :=
  existsb (fun c => negb (py_isspace c)) line.

(** [DELIMITER in buffer] and [buffer.split(DELIMITER, 1)] in one function:
    [None] when the buffer holds no delimiter, otherwise the text before the
    first delimiter and the text after it. *)
Fixpoint split_delim (buffer : pystr) : option (pystr * pystr) :=
  match buffer with
  | [] => None
  | c :: rest =>
      if N.eqb c DELIMITER then Some ([], rest)
      else match split_delim rest with
           | Some (line, rest') => Some (c :: line, rest')
           | None => None
           end
  end.

(* ----------------------------------------------------------------- *)
(** *** Decimal rendering of integers *)

Fixpoint uint_digits (d : uint) : pystr :=
  match d with
  | Nil => []
  | D0 d => 48%N :: uint_digits d
  | D1 d => 49%N :: uint_digits d
  | D2 d => 50%N :: uint_digits d
  | D3 d => 51%N :: uint_digits d
  | D4 d => 52%N :: uint_digits d
  | D5 d => 53%N :: uint_digits d
  | D6 d => 54%N :: uint_digits d
  | D7 d => 55%N :: uint_digits d
  | D8 d => 56%N :: uint_digits d
  | D9 d => 57%N :: uint_digits d
  end.

(** [str(z)] for an [int]. *)
Definition py_int_str (z : Z) : pystr :=
  match Z.to_int z with
  | Pos d => uint_digits d
  | Neg d => 45%N :: uint_digits d
  end.

(** Left padding with ['0'] up to [width] characters. *)
Definition zfill (width : nat) (s : pystr) : pystr :=
  repeat 48%N (width - length s) ++ s.

(** The format specification [:03d]: at least three characters, zeros
    inserted after the sign. *)
Definition format_03d (z : Z) : pystr :=
  match Z.to_int z with
  | Pos d => zfill 3 (uint_digits d)
  | Neg d => 45%N :: zfill 2 (uint_digits d)
  end.

(* ----------------------------------------------------------------- *)
(** *** UTF-8 *)

Definition is_cont (b : N) : bool := ((128 <=? b) && (b <=? 191))%N.

(** [bytes.decode("utf-8")] in its default strict mode: [None] stands for
    [UnicodeDecodeError] (an invalid or a truncated sequence). *)
Fixpoint utf8_decode (bs : list byte) : option pystr :=
  match bs with
  | [] => Some []
  | b0 :: r0 =>
      let n0 := Byte.to_N b0 in
      if (n0 <? 128)%N then option_map (cons n0) (utf8_decode r0)
      else if (n0 <? 194)%N then None
      else if (n0 <? 224)%N then
        match r0 with
        | b1 :: r1 =>
            let n1 := Byte.to_N b1 in
            if is_cont n1
            then option_map (cons ((n0 - 192) * 64 + (n1 - 128))%N) (utf8_decode r1)
            else None
        | _ => None
        end
      else if (n0 <? 240)%N then
        match r0 with
        | b1 :: b2 :: r2 =>
            let n1 := Byte.to_N b1 in
            let n2 := Byte.to_N b2 in
            if is_cont n1 && is_cont n2
               && (if (n0 =? 224)%N then (160 <=? n1)%N else true)
               && (if (n0 =? 237)%N then (n1 <=? 159)%N else true)
            then option_map
                   (cons ((n0 - 224) * 4096 + (n1 - 128) * 64 + (n2 - 128))%N)
                   (utf8_decode r2)
            else None
        | _ => None
        end
      else if (n0 <? 245)%N then
        match r0 with
        | b1 :: b2 :: b3 :: r3 =>
            let n1 := Byte.to_N b1 in
            let n2 := Byte.to_N b2 in
            let n3 := Byte.to_N b3 in
            if is_cont n1 && is_cont n2 && is_cont n3
               && (if (n0 =? 240)%N then (144 <=? n1)%N else true)
               && (if (n0 =? 244)%N then (n1 <=? 143)%N else true)
            then option_map
                   (cons ((n0 - 240) * 262144 + (n1 - 128) * 4096
                          + (n2 - 128) * 64 + (n3 - 128))%N)
                   (utf8_decode r3)
            else None
        | _ => None
        end
      else None
  end.

(** The bytes of an ASCII string, as [str.encode] gives them. *)
Definition ascii_bytes (s : pystr) : list byte :=
  List.map (fun c => match Byte.of_N c with Some b => b | None => x00 end) s.

(* ================================================================= *)
(** ** Python values *)

Definition float := spec_float.
Definition float_add : float -> float -> float := SFadd 53 1024.
Definition float_sub : float -> float -> float := SFsub 53 1024.
Definition float_eqb : float -> float -> bool := SFeqb.
Definition float_ltb : float -> float -> bool := SFltb.
Definition float_zero : float := S754_zero false.
Definition float_is_nan (f : float) : bool :=
  match f with S754_nan => true | _ => false end.
(** The [float] of a small integer literal. *)
Definition float_of_Z (z : Z) : float := binary_normalize 53 1024 z 0 false.

Inductive pyval : Type :=
| PNone
| PBool (b : bool)
| PInt (z : Z)
| PFloat (f : float)
| PStr (s : pystr)
| PList (l : list pyval)
| PDict (d : list (pystr * pyval)).

(** A [dict] keeps insertion order: an association list with distinct keys. *)
Fixpoint dict_lookup {V : Type} (d : list (pystr * V)) (k : pystr) : option V :=
  match d with
  | [] => None
  | (k', v) :: d' => if str_eqb k' k then Some v else dict_lookup d' k
  end.

(** [d[k] = v]: in place when the key is there, appended otherwise. *)
Fixpoint dict_set {V : Type} (d : list (pystr * V)) (k : pystr) (v : V)
  : list (pystr * V) :=
  match d with
  | [] => [(k, v)]
  | (k', v') :: d' =>
      if str_eqb k' k then (k', v) :: d' else (k', v') :: dict_set d' k v
  end.

(** [d.pop(k, None)] *)
Fixpoint dict_pop {V : Type} (d : list (pystr * V)) (k : pystr)
  : option V * list (pystr * V) :=
  match d with
  | [] => (None, [])
  | (k', v) :: d' =>
      if str_eqb k' k then (Some v, d')
      else let (r, d'') := dict_pop d' k in (r, (k', v) :: d'')
  end.

(** Exact comparison of a [float] with an [int], as Python does it. *)
Definition float_eq_int (f : float) (z : Z) : bool :=
  match f with
  | S754_zero _ => z =? 0
  | S754_finite s m e =>
      let v := if s then Z.neg m else Z.pos m in
      if 0 <=? e then z =? v * 2 ^ e else v =? z * 2 ^ (- e)
  | _ => false
  end.

(** The comparison [==] makes between two items of a list, or two values
    of a dict: [x is y or x == y]. Values that are equal are so whether
    they are one object or two; the only value that differs from itself is
    NaN, and a NaN inside a list or a dict can only come from [json.loads],
    which hands out one and the same object for every [NaN] it reads. So
    inside a container NaN equals NaN. *)
Fixpoint py_item_eqb (a b : pyval) {struct a} : bool :=
  match a, b with
  | PNone, PNone => true
  | PBool x, PBool y => Bool.eqb x y
  | PBool x, PInt z => Z.b2z x =? z
  | PInt z, PBool x => Z.b2z x =? z
  | PBool x, PFloat f => float_eq_int f (Z.b2z x)
  | PFloat f, PBool x => float_eq_int f (Z.b2z x)
  | PInt x, PInt y => x =? y
  | PInt z, PFloat f => float_eq_int f z
  | PFloat f, PInt z => float_eq_int f z
  | PFloat f, PFloat g => float_eqb f g || (float_is_nan f && float_is_nan g)
  | PStr s, PStr t => str_eqb s t
  | PList l, PList m =>
      (fix go (l m : list pyval) {struct l} : bool :=
         match l, m with
         | [], [] => true
         | x :: l', y :: m' => py_item_eqb x y && go l' m'
         | _, _ => false
         end) l m
  | PDict d, PDict e =>
      Nat.eqb (length d) (length e)
      && (fix all (d : list (pystr * pyval)) : bool :=
            match d with
            | [] => true
            | (k, v) :: d' =>
                match dict_lookup e k with
                | Some w => py_item_eqb v w
                | None => false
                end && all d'
            end) d
  | _, _ => false
  end.

(** Python's [==] on values read from JSON: between two floats it is the
    comparison of IEEE 754 (NaN differs from NaN, also from itself);
    lists and dicts are compared item by item as above. *)
Definition py_eqb (a b : pyval) : bool :=
  match a, b with
  | PFloat f, PFloat g => float_eqb f g
  | _, _ => py_item_eqb a b
  end.

(** Lists and dicts are unhashable: using one as a dict key raises
    [TypeError]. *)
Definition py_hashable (v : pyval) : bool :=
  match v with
  | PList _ | PDict _ => false
  | _ => true
  end.

(** Truth value of a value in an [if]. *)
Definition py_truthy (v : pyval) : bool :=
  match v with
  | PNone => false
  | PBool b => b
  | PInt z => negb (z =? 0)
  | PFloat (S754_zero _) => false
  | PFloat _ => true
  | PStr s => negb (Nat.eqb (length s) 0)
  | PList l => negb (Nat.eqb (length l) 0)
  | PDict d => negb (Nat.eqb (length d) 0)
  end.

(* ================================================================= *)
(** ** Exceptions and the monad of effectful code *)

Inductive pyexc : Type :=
| OSError                  (* e.g. a write to a socket closed locally *)
| BrokenPipeError
| ConnectionResetError
| ConnectionAbortedError
| UnicodeDecodeError
| AttributeError
| TypeError
| KeyError
| ValueError
| OverflowError.

(** [except OSError] catches the class and its subclasses. *)
Definition is_OSError (e : pyexc) : bool :=
  match e with
  | OSError | BrokenPipeError | ConnectionResetError | ConnectionAbortedError => true
  | _ => false
  end.

(** [except (ConnectionResetError, ConnectionAbortedError)] *)
Definition is_connection_lost (e : pyexc) : bool :=
  match e with
  | ConnectionResetError | ConnectionAbortedError => true
  | _ => false
  end.

Inductive result (A : Type) : Type :=
| Ok (a : A)
| Raise (e : pyexc).
Arguments Ok {A} a.
Arguments Raise {A} e.

Definition M (S A : Type) : Type := S -> result A * S.

Definition ret {S A : Type} (a : A) : M S A := fun s => (Ok a, s).
Definition raise {S A : Type} (e : pyexc) : M S A := fun s => (Raise e, s).
Definition bind {S A B : Type} (m : M S A) (k : A -> M S B) : M S B :=
  fun s => match m s with
           | (Ok a, s') => k a s'
           | (Raise e, s') => (Raise e, s')
           end.
Definition gets {S A : Type} (f : S -> A) : M S A := fun s => (Ok (f s), s).
Definition modify {S : Type} (f : S -> S) : M S unit := fun s => (Ok tt, f s).

(** [try: body  except <classes>: handler] *)
Definition try_except {S A : Type} (catches : pyexc -> bool)
  (body : M S A) (handler : M S A) : M S A :=
  fun s => match body s with
           | (Raise e, s') => if catches e then handler s' else (Raise e, s')
           | r => r
           end.

(** [try: body  finally: final]: [final] always runs; the exception of
    [body], if any, is raised again unless [final] raises itself. *)
Definition try_finally {S A : Type} (body : M S A) (final : M S unit) : M S A :=
  fun s => match body s with
           | (r, s') =>
               match final s' with
               | (Ok _, s'') => (r, s'')
               | (Raise e, s'') => (Raise e, s'')
               end
           end.

Declare Scope py_scope.
Delimit Scope py_scope with py.
Notation "x <- c ;; k" := (bind c (fun x => k))
  (at level 61, c at next level, right associativity) : py_scope.
Notation "c ;; k" := (bind c (fun _ => k))
  (at level 61, right associativity) : py_scope.
Open Scope py_scope.

(** Monadic iteration over a list: [for x in xs: body(x)]. *)
Fixpoint for_each {St A : Type} (xs : list A) (body : A -> M St unit) : M St unit :=
  match xs with
  | [] => ret tt
  | x :: xs' => body x ;; for_each xs' body
  end.

(** [msg.get(key, default)]: only a dict has the method. *)
Definition py_get {St : Type} (msg : pyval) (key : pystr) (default : pyval)
  : M St pyval :=
  match msg with
  | PDict d => ret (match dict_lookup d key with Some v => v | None => default end)
  | _ => raise AttributeError
  end.

(* ================================================================= *)
(** ** Framing: the receive loop of [handle_new_client] and [listen_loop] *)

(** What one call of [recv(BUFFER_SIZE)] gives: some bytes (none when the
    peer has closed the connection), or a connection error. *)
Inductive recv_event : Type :=
| RecvData (data : list byte)
| RecvReset
| RecvAborted.

Section RecvLoop.
Context {St : Type}.
(** The socket was closed on this side: [recv] raises [OSError]. *)
Variable sock_closed : St -> bool.
(** The loop condition ([True] on the server, [self.running] on the client). *)
Variable keep_running : St -> bool.
(** What the loop does when [recv] returns no data, before [break]. *)
Variable on_eof : M St unit.
(** [handle_client_message(client_id, _)] or [handle_server_message]. *)
Variable handle : pystr -> M St unit.

(** [while DELIMITER in buffer: line, buffer = buffer.split(DELIMITER, 1);
    if line.strip(): handle(line)], returning the buffer left. Every
    iteration shortens the buffer, so [length buffer] iterations are
    enough ([dispatch_lines_fuel] below). *)
Fixpoint dispatch_lines (fuel : nat) (buffer : pystr) : M St pystr :=
  match fuel with
  | O => ret buffer
  | S fuel' =>
      match split_delim buffer with
      | None => ret buffer
      | Some (line, rest) =>
          (if strip_nonempty line then handle line else ret tt) ;;
          dispatch_lines fuel' rest
      end
  end.

(** The outer loop, one [recv_event] per call of [recv]; once the script
    is used up the peer has closed the connection. (One [recv] returns at
    most [BUFFER_SIZE = 4096] bytes; nothing here depends on that bound.) *)
Fixpoint recv_loop (script : list recv_event) (buffer : pystr) : M St unit :=
  fun s =>
    if negb (keep_running s) then (Ok tt, s)
    else if sock_closed s then (Raise OSError, s)
    else
      match script with
      | [] => on_eof s
      | RecvReset :: _ => (Raise ConnectionResetError, s)
      | RecvAborted :: _ => (Raise ConnectionAbortedError, s)
      | RecvData [] :: _ => on_eof s
      | RecvData data :: script' =>
          match utf8_decode data with
          | None => (Raise UnicodeDecodeError, s)
          | Some text =>
              let buffer1 := buffer ++ text in
              bind (dispatch_lines (length buffer1) buffer1)
                   (recv_loop script') s
          end
      end.
End RecvLoop.

(** The handler of [decode_stream]: it records the line. *)
Definition log_line (line : pystr) : M (list pystr) unit :=
  fun log => (Ok tt, log ++ [line]).

(** The decoder on its own: the lines handed to the handler, in order, when
    each chunk is what one call of [recv] returns. *)
Definition decode_stream (chunks : list (list byte)) : result unit * list pystr :=
  recv_loop (fun _ => false) (fun _ => true) (ret tt) log_line
    (List.map RecvData chunks) [] [].

(** What the framing amounts to on a whole text: every line that ends in a
    delimiter, and the text after the last delimiter. *)
Fixpoint split_lines (buffer : pystr) : list pystr * pystr :=
  match buffer with
  | [] => ([], [])
  | c :: rest =>
      let (ls, tail) := split_lines rest in
      if N.eqb c DELIMITER then ([] :: ls, tail)
      else match ls with
           | [] => ([], c :: tail)
           | l :: ls' => ((c :: l) :: ls', tail)
           end
  end.

(* ================================================================= *)
(** ** The server: data *)

(** What [accept()] returns beside the socket: [(host, port)]. *)
Record address : Type := { host : pystr; port : Z }.

(** [str(addr)] for a dotted-quad host, which [repr] shows verbatim
    between single quotes. *)
Definition str_address (a : address) : pystr :=
  u "('" ++ host a ++ u "', " ++ py_int_str (port a) ++ u ")".

(** The value stored per client:
    [{"socket": conn, "address": addr, "name": client_id}]. A socket is
    named by its index in the table of sockets of the [world]. *)
Record client_info : Type :=
  { socket : nat; addr : address; name : pystr }.

(** The mutable fields of [ChatServer] that [self.lock] protects. *)
Record ChatServer : Type :=
  { clients : list (pystr * client_info);
    next_client_id : Z;
    message_counter : Z }.

(** [ChatServer.__init__] *)
Definition ChatServer_init : ChatServer :=
  {| clients := []; next_client_id := 1; message_counter := 1 |}.

(** The state of a connected socket as the server sees it when it writes. *)
Inductive sock_state : Type :=
| SockOpen
| SockClosed      (* [close()] was called on it here *)
| SockPipe        (* the peer is gone: [BrokenPipeError] *)
| SockReset       (* [ConnectionResetError] *)
| SockAborted.    (* [ConnectionAbortedError] *)

Definition send_failure (st : sock_state) : pyexc :=
  match st with
  | SockPipe => BrokenPipeError
  | SockReset => ConnectionResetError
  | SockAborted => ConnectionAbortedError
  | _ => OSError
  end.

(** The server and its surroundings: the sockets (an index outside the
    table behaves as a closed socket), every object written with
    [send_json] so far with the socket it went to (in order), and the
    number of calls of [time.time()] made. *)
Record world : Type :=
  { server : ChatServer;
    socks : list sock_state;
    wire : list (nat * pyval);
    ticks : nat }.

Definition set_server (s : ChatServer) (w : world) : world :=
  {| server := s; socks := socks w; wire := wire w; ticks := ticks w |}.

Fixpoint list_set {A : Type} (l : list A) (i : nat) (x : A) : list A :=
  match l, i with
  | [], _ => []
  | _ :: l', O => x :: l'
  | y :: l', S i' => y :: list_set l' i' x
  end.

(* ----------------------------------------------------------------- *)
(** *** The blocks under [self.lock] *)

(** [handle_new_client], lines 74-81. *)
Definition locked_register (conn : nat) (a : address) (s : ChatServer)
  : pystr * ChatServer :=
  let client_id := u "C" ++ format_03d (next_client_id s) in
  (client_id,
   {| clients := dict_set (clients s) client_id
                   {| socket := conn; addr := a; name := client_id |};
      next_client_id := next_client_id s + 1;
      message_counter := message_counter s |}).

(** [route_chat_message], lines 147-149. *)
Definition locked_next_message_id (s : ChatServer) : Z * ChatServer :=
  (message_counter s,
   {| clients := clients s;
      next_client_id := next_client_id s;
      message_counter := message_counter s + 1 |}).

(** [remove_client], lines 243-244. *)
Definition locked_pop (client_id : pystr) (s : ChatServer)
  : option client_info * ChatServer :=
  let (info, d) := dict_pop (clients s) client_id in
  (info,
   {| clients := d;
      next_client_id := next_client_id s;
      message_counter := message_counter s |}).

(** [shutdown], line 64. *)
Definition locked_clear (s : ChatServer) : ChatServer :=
  {| clients := [];
     next_client_id := next_client_id s;
     message_counter := message_counter s |}.

(** [self.clients.get(key)] for a key read from a packet: a list or a dict
    is unhashable, and no value but a string equals a registered key. *)
Definition clients_get (s : ChatServer) (key : pyval) : result (option client_info) :=
  if py_hashable key
  then Ok (match key with
           | PStr k => dict_lookup (clients s) k
           | _ => None
           end)
  else Raise TypeError.

(** [_client_list_snapshot], lines 184-188. *)
Definition locked_snapshot (s : ChatServer) : list pyval :=
  List.map (fun '(cid, info) =>
              PDict [(u "client_id", PStr cid);
                     (u "address", PStr (str_address (addr info)))])
           (clients s).

(** One block under the lock, as any thread of the server may run it. *)
Inductive lock_block : Type :=
| BRegister (conn : nat) (a : address)
| BNextMessageId
| BPop (client_id : pystr)
| BClear
| BRead.           (* a block that only reads *)

(** What a block gives back to its thread. *)
Inductive block_result : Type :=
| RIdentity (client_id : pystr)
| RMessageId (message_id : Z)
| RNothing.

Definition run_block (b : lock_block) (s : ChatServer) : block_result * ChatServer :=
  match b with
  | BRegister conn a =>
      let (cid, s') := locked_register conn a s in (RIdentity cid, s')
  | BNextMessageId =>
      let (mid, s') := locked_next_message_id s in (RMessageId mid, s')
  | BPop cid => (RNothing, snd (locked_pop cid s))
  | BClear => (RNothing, locked_clear s)
  | BRead => (RNothing, s)
  end.

(** A run of the server as the lock serialises it: the results of the
    blocks in the order they held the lock, and the final record. *)
Fixpoint run_blocks (bs : list lock_block) (s : ChatServer)
  : list block_result * ChatServer :=
  match bs with
  | [] => ([], s)
  | b :: bs' =>
      let (r, s1) := run_block b s in
      let (rs, s2) := run_blocks bs' s1 in
      (r :: rs, s2)
  end.

Fixpoint identities_of (rs : list block_result) : list pystr :=
  match rs with
  | [] => []
  | RIdentity cid :: rs' => cid :: identities_of rs'
  | _ :: rs' => identities_of rs'
  end.

Fixpoint message_ids_of (rs : list block_result) : list Z :=
  match rs with
  | [] => []
  | RMessageId mid :: rs' => mid :: message_ids_of rs'
  | _ :: rs' => message_ids_of rs'
  end.

(* ================================================================= *)
(** ** The client: data *)

(** [direction]: the strings ["out"] and ["in"]. *)
Inductive direction : Type := DirOut | DirIn.

(** One entry of [self.history]:
    [{id, direction, peer, text, timestamp, reply_to, temp_until, deleted}].
    Fields filled from a packet hold whatever JSON value the packet had. *)
Record entry : Type :=
  { e_id : pyval;
    e_direction : direction;
    e_peer : pyval;
    e_text : pyval;
    e_timestamp : pyval;
    e_reply_to : pyval;
    e_temp_until : pyval;
    e_deleted : bool }.

Definition set_id (mid : pyval) (m : entry) : entry :=
  {| e_id := mid; e_direction := e_direction m; e_peer := e_peer m;
     e_text := e_text m; e_timestamp := e_timestamp m;
     e_reply_to := e_reply_to m; e_temp_until := e_temp_until m;
     e_deleted := e_deleted m |}.

Definition set_deleted (m : entry) : entry :=
  {| e_id := e_id m; e_direction := e_direction m; e_peer := e_peer m;
     e_text := e_text m; e_timestamp := e_timestamp m;
     e_reply_to := e_reply_to m; e_temp_until := e_temp_until m;
     e_deleted := true |}.

(** The client: its socket (state, and the objects written to it), the
    history, the timer threads started and not yet run (each with the
    arguments of [_temp_cleanup_worker]), what was printed, the number
    of calls of [time.time()] made, and the delays the timer threads have
    slept, in order. *)
Record ChatClient : Type :=
  { c_sock : sock_state;
    c_sent : list pyval;
    history : list entry;
    timers : list (float * pystr);
    stdout : list pystr;
    c_running : bool;
    c_ticks : nat;
    c_slept : list float }.

Definition set_history (h : list entry) (c : ChatClient) : ChatClient :=
  {| c_sock := c_sock c; c_sent := c_sent c; history := h; timers := timers c;
     stdout := stdout c; c_running := c_running c; c_ticks := c_ticks c; c_slept := c_slept c |}.

Definition set_timers (t : list (float * pystr)) (c : ChatClient) : ChatClient :=
  {| c_sock := c_sock c; c_sent := c_sent c; history := history c; timers := t;
     stdout := stdout c; c_running := c_running c; c_ticks := c_ticks c; c_slept := c_slept c |}.

(** The idiom [for m in history: if cond(m): <update m>; break]: the first
    entry that satisfies [cond] is updated in place. *)
Fixpoint update_first (cond : entry -> bool) (upd : entry -> entry)
  (h : list entry) : list entry :=
  match h with
  | [] => []
  | m :: h' => if cond m then upd m :: h' else m :: update_first cond upd h'
  end.

(** The condition of the loop of [handle_receipt], lines 284-289. *)
Definition receipt_cond (target : pyval) (m : entry) : bool :=
  match e_direction m with DirOut => true | DirIn => false end
  && match e_id m with PNone => true | _ => false end
  && py_eqb (e_peer m) target
  && negb (e_deleted m).

(** The locked loop of [handle_receipt], lines 282-291. *)
Definition reconcile_receipt (target mid : pyval) (h : list entry) : list entry :=
  update_first (receipt_cond target) (set_id mid) h.

(** The condition of the loop of [_temp_cleanup_worker], lines 211-215. *)
Definition cleanup_cond (temp_until : float) (text : pystr) (m : entry) : bool :=
  py_eqb (e_text m) (PStr text)
  && py_eqb (e_temp_until m) (PFloat temp_until)
  && negb (e_deleted m).

(** The locked loop of [_temp_cleanup_worker], lines 209-217. *)
Definition cleanup_history (temp_until : float) (text : pystr) (h : list entry)
  : list entry :=
  update_first (cleanup_cond temp_until text) set_deleted h.

(** What the specification describes instead: the timer holds the entry
    object, here its position in the append-only history, and marks that
    entry. *)
Definition delete_entry_at (i : nat) (h : list entry) : list entry :=
  match nth_error h i with
  | Some m => list_set h i (set_deleted m)
  | None => h
  end.

(** [next((m for m in self.history if m["id"] == msg_id), None)] *)
Definition find_by_id (msg_id : Z) (h : list entry) : option entry :=
  List.find (fun m => py_eqb (e_id m) (PInt msg_id)) h.

(* ================================================================= *)
(** ** The code of both endpoints *)

Section Relay.

(** Library functions the code calls and this development does not
    define: the readings of [time.time()], in the order of the calls;
    [json.loads] ([None] for [JSONDecodeError]; a line on which it raises
    something else, [ValueError] for an integer of more digits than [int]
    converts or [RecursionError] for deep nesting, is no input of this
    development); [str()] of a float, a list or a dict;
    [datetime.fromtimestamp(ts).strftime("%H:%M:%S")]; [str.lower]. *)
Variable clock : nat -> float.
Variable json_loads : pystr -> option pyval.
Variable str_other : pyval -> pystr.
Variable strftime_hms : pyval -> result pystr.
Variable str_lower : pystr -> pystr.

Set Default Proof Using "Type".

(** A replacement field [{v}] of an f-string. *)
Definition py_format (v : pyval) : pystr :=
  match v with
  | PStr s => s
  | PNone => u "None"
  | PBool true => u "True"
  | PBool false => u "False"
  | PInt z => py_int_str z
  | _ => str_other v
  end.

(* --------------------------------------------------------------- *)
(** *** server.py

    What the server prints is left out: it has no part in the protocol. *)

Definition time_time : M world float :=
  fun w => (Ok (clock (ticks w)),
            {| server := server w; socks := socks w; wire := wire w;
               ticks := S (ticks w) |}).

(** [with self.lock: ...] around one of the blocks above. *)
Definition with_lock {A : Type} (block : ChatServer -> A * ChatServer) : M world A :=
  fun w => let (a, s) := block (server w) in (Ok a, set_server s w).

Definition sock_state_of (sock : nat) (w : world) : sock_state :=
  nth sock (socks w) SockClosed.

(** [send_json], lines 236-239: [sock.sendall] of [json.dumps(obj)] and
    the delimiter. The write is recorded as the object itself. *)
Definition send_json (sock : nat) (obj : pyval) : M world unit :=
  fun w => match sock_state_of sock w with
           | SockOpen =>
               (Ok tt, {| server := server w; socks := socks w;
                          wire := wire w ++ [(sock, obj)]; ticks := ticks w |})
           | st => (Raise (send_failure st), w)
           end.

(** [sock.close()]: never fails, also on a socket already closed. *)
Definition sock_close (sock : nat) : M world unit :=
  modify (fun w => {| server := server w;
                      socks := list_set (socks w) sock SockClosed;
                      wire := wire w; ticks := ticks w |}).

Definition info_packet (text : pystr) (ts : float) : pyval :=
  PDict [(u "type", PStr (u "info")); (u "text", PStr text);
         (u "timestamp", PFloat ts)].

Definition error_packet (text : pystr) (ts : float) : pyval :=
  PDict [(u "type", PStr (u "error")); (u "text", PStr text);
         (u "timestamp", PFloat ts)].

(** [_client_list_snapshot], lines 182-188. *)
Definition _client_list_snapshot : M world (list pyval) :=
  gets (fun w => locked_snapshot (server w)).

(** [broadcast_info], lines 190-204. *)
Definition broadcast_info (text : pystr) (exclude_id : option pystr) : M world unit :=
  ts <- time_time ;;
  let packet := info_packet text ts in
  registered <- gets (fun w => clients (server w)) ;;
  for_each registered
    (fun '(cid, info) =>
       if match exclude_id with Some x => str_eqb cid x | None => false end
       then ret tt
       else try_except is_OSError (send_json (socket info) packet) (ret tt)).

(** [send_to_client_id], lines 224-233. *)
Definition send_to_client_id (client_id : pystr) (packet : pyval) : M world unit :=
  info <- gets (fun w => dict_lookup (clients (server w)) client_id) ;;
  match info with
  | None => ret tt
  | Some info => try_except is_OSError (send_json (socket info) packet) (ret tt)
  end.

(** [send_info], lines 206-213. *)
Definition send_info (client_id text : pystr) : M world unit :=
  ts <- time_time ;;
  send_to_client_id client_id (info_packet text ts).

(** [send_error], lines 215-222. *)
Definition send_error (client_id text : pystr) : M world unit :=
  ts <- time_time ;;
  send_to_client_id client_id (error_packet text ts).

(** [send_client_list], lines 173-180. *)
Definition send_client_list (client_id : pystr) : M world unit :=
  snapshot <- _client_list_snapshot ;;
  send_to_client_id client_id
    (PDict [(u "type", PStr (u "client_list")); (u "clients", PList snapshot)]).

(** [remove_client], lines 241-251. *)
Definition remove_client (client_id : pystr) : M world unit :=
  info <- with_lock (locked_pop client_id) ;;
  match info with
  | None => ret tt
  | Some info =>
      try_except is_OSError (sock_close (socket info)) (ret tt) ;;
      broadcast_info (client_id ++ u " left the chat.") (Some client_id)
  end.

Definition chat_packet (message_id : Z) (sender_id : pystr)
  (target_id text : pyval) (timestamp : float) (reply_to : pyval) : pyval :=
  PDict [(u "type", PStr (u "chat"));
         (u "message_id", PInt message_id);
         (u "from", PStr sender_id);
         (u "to", target_id);
         (u "text", text);
         (u "timestamp", PFloat timestamp);
         (u "reply_to", reply_to)].

Definition receipt_packet (message_id : Z) (target_id : pyval) (ts : float) : pyval :=
  PDict [(u "type", PStr (u "receipt"));
         (u "message_id", PInt message_id);
         (u "to", target_id);
         (u "status", PStr (u "delivered"));
         (u "timestamp", PFloat ts)].

(** [self.clients.get(key)] under the lock, for a key read from a packet. *)
Definition lookup_client (key : pyval) : M world (option client_info) :=
  fun w => (clients_get (server w) key, w).

(** [route_chat_message], lines 131-171. *)
Definition route_chat_message (sender_id : pystr) (msg : pyval) : M world unit :=
  target_id <- py_get msg (u "to") PNone ;;
  text <- py_get msg (u "text") (PStr []) ;;
  reply_to <- py_get msg (u "reply_to") PNone ;;
  timestamp <- time_time ;;
  target_info <- lookup_client target_id ;;
  sender_info <- gets (fun w => dict_lookup (clients (server w)) sender_id) ;;
  match target_info with
  | None =>
      send_error sender_id
        (u "Target client " ++ py_format target_id ++ u " not found.")
  | Some target_info =>
      message_id <- with_lock locked_next_message_id ;;
      send_json (socket target_info)
        (chat_packet message_id sender_id target_id text timestamp reply_to) ;;
      ts <- time_time ;;
      match sender_info with
      | Some sender_info =>
          send_json (socket sender_info) (receipt_packet message_id target_id ts)
      | None => ret tt
      end
  end.

(** [handle_client_message], lines 112-129. *)
Definition handle_client_message (client_id raw_line : pystr) : M world unit :=
  match json_loads raw_line with
  | None => ret tt
  | Some msg =>
      msg_type <- py_get msg (u "type") PNone ;;
      if py_eqb msg_type (PStr (u "chat")) then route_chat_message client_id msg
      else if py_eqb msg_type (PStr (u "list")) then send_client_list client_id
      else if py_eqb msg_type (PStr (u "exit")) then
        send_info client_id (u "Goodbye!") ;;
        remove_client client_id
      else send_error client_id (u "Unknown message type: " ++ py_format msg_type)
  end.

Definition welcome_packet (client_id : pystr) (snapshot : list pyval) : pyval :=
  PDict [(u "type", PStr (u "welcome"));
         (u "client_id", PStr client_id);
         (u "clients", PList snapshot)].

(** [conn.recv] on a socket this side has closed raises [OSError]. *)
Definition conn_closed (conn : nat) (w : world) : bool :=
  match sock_state_of conn w with
  | SockClosed => true
  | _ => false
  end.

(** [handle_new_client], lines 72-110; [script] is what the calls of
    [conn.recv] return, one after the other. *)
Definition handle_new_client (conn : nat) (a : address) (script : list recv_event)
  : M world unit :=
  client_id <- with_lock (locked_register conn a) ;;
  try_finally
    (try_except is_connection_lost
       (snapshot <- _client_list_snapshot ;;
        send_json conn (welcome_packet client_id snapshot) ;;
        broadcast_info (client_id ++ u " joined the chat.") (Some client_id) ;;
        recv_loop (conn_closed conn) (fun _ => true) (ret tt)
          (handle_client_message client_id) script [])
       (ret tt))
    (remove_client client_id).

(** [shutdown], lines 54-70, without the listening socket. *)
Definition shutdown : M world unit :=
  registered <- gets (fun w => clients (server w)) ;;
  for_each registered
    (fun '(_, info) => try_except is_OSError (sock_close (socket info)) (ret tt)) ;;
  with_lock (fun s => (tt, locked_clear s)).

(* --------------------------------------------------------------- *)
(** *** client.py *)

Definition c_time : M ChatClient float :=
  fun c => (Ok (clock (c_ticks c)),
            {| c_sock := c_sock c; c_sent := c_sent c; history := history c;
               timers := timers c; stdout := stdout c;
               c_running := c_running c; c_ticks := S (c_ticks c); c_slept := c_slept c |}).

Definition print (line : pystr) : M ChatClient unit :=
  modify (fun c => {| c_sock := c_sock c; c_sent := c_sent c;
                      history := history c; timers := timers c;
                      stdout := stdout c ++ [line];
                      c_running := c_running c; c_ticks := c_ticks c; c_slept := c_slept c |}).

(** [_send_json], lines 323-325. *)
Definition _send_json (obj : pyval) : M ChatClient unit :=
  fun c => match c_sock c with
           | SockOpen =>
               (Ok tt, {| c_sock := c_sock c; c_sent := c_sent c ++ [obj];
                          history := history c; timers := timers c;
                          stdout := stdout c; c_running := c_running c;
                          c_ticks := c_ticks c; c_slept := c_slept c |})
           | st => (Raise (send_failure st), c)
           end.

(** [send_chat], lines 161-181. *)
Definition send_chat (target_id : pyval) (text : pystr)
  (reply_to temp_until : pyval) : M ChatClient unit :=
  _send_json (PDict [(u "type", PStr (u "chat"));
                     (u "to", target_id);
                     (u "text", PStr text);
                     (u "reply_to", reply_to)]) ;;
  ts <- c_time ;;
  modify (fun c =>
    set_history (history c ++
      [{| e_id := PNone; e_direction := DirOut; e_peer := target_id;
          e_text := PStr text; e_timestamp := PFloat ts;
          e_reply_to := reply_to; e_temp_until := temp_until;
          e_deleted := false |}]) c).

(** [send_reply], lines 183-191. *)
Definition send_reply (msg_id : Z) (text : pystr) : M ChatClient unit :=
  target_msg <- gets (fun c => find_by_id msg_id (history c)) ;;
  match target_msg with
  | None =>
      print (u "[CLIENT] No message with ID " ++ py_int_str msg_id
             ++ u " in history.")
  | Some target_msg => send_chat (e_peer target_msg) text (PInt msg_id) PNone
  end.

(** [send_temp_message], lines 193-202: the thread it starts is recorded
    in [timers] with the arguments it was given. *)
Definition send_temp_message (target_id : pyval) (text : pystr) (seconds : float)
  : M ChatClient unit :=
  now <- c_time ;;
  let temp_until := float_add now seconds in
  send_chat target_id text PNone (PFloat temp_until) ;;
  modify (fun c => set_timers (timers c ++ [(temp_until, text)]) c).

(** [time.sleep(d)] for a delay [d > 0]. The call raises [OverflowError]
    when the delay does not fit the C type that holds a time (an infinite
    delay, or one of some hundred years); which delays these are is left to
    the library. Otherwise the thread waits, and the delay is recorded. *)
Variable sleep_overflows : float -> bool.

Definition time_sleep (d : float) : M ChatClient unit :=
  fun c =>
    if sleep_overflows d then (Raise OverflowError, c)
    else (Ok tt, {| c_sock := c_sock c; c_sent := c_sent c; history := history c;
                    timers := timers c; stdout := stdout c;
                    c_running := c_running c; c_ticks := c_ticks c;
                    c_slept := c_slept c ++ [d] |}).

(** [_temp_cleanup_worker], lines 204-218. *)
Definition _temp_cleanup_worker (temp_until : float) (text : pystr)
  : M ChatClient unit :=
  now <- c_time ;;
  let remaining := float_sub temp_until now in
  (if float_ltb float_zero remaining then time_sleep remaining else ret tt) ;;
  modify (fun c => set_history (cleanup_history temp_until text (history c)) c) ;;
  print (u "[CLIENT] (Temp) A message has expired and was removed from local history.").

(** The [i]-th pending timer thread runs to its end. *)
Definition fire_timer (i : nat) : M ChatClient unit :=
  pending <- gets timers ;;
  match nth_error pending i with
  | None => ret tt
  | Some (temp_until, text) =>
      modify (fun c => set_timers (firstn i pending ++ skipn (S i) pending) c) ;;
      _temp_cleanup_worker temp_until text
  end.

(** [ts_str = datetime.fromtimestamp(ts).strftime("%H:%M:%S") if ts else "?"] *)
Definition ts_str_of (ts : pyval) : M ChatClient pystr :=
  if py_truthy ts then (fun c => (strftime_hms ts, c)) else ret (u "?").

(** [handle_chat_message], lines 249-273. *)
Definition handle_chat_message (msg : pyval) : M ChatClient unit :=
  mid <- py_get msg (u "message_id") PNone ;;
  sender <- py_get msg (u "from") PNone ;;
  text <- py_get msg (u "text") PNone ;;
  ts <- py_get msg (u "timestamp") PNone ;;
  reply_to <- py_get msg (u "reply_to") PNone ;;
  ts_str <- ts_str_of ts ;;
  modify (fun c =>
    set_history (history c ++
      [{| e_id := mid; e_direction := DirIn; e_peer := sender;
          e_text := text; e_timestamp := ts; e_reply_to := reply_to;
          e_temp_until := PNone; e_deleted := false |}]) c) ;;
  if py_truthy reply_to
  then print (u "[" ++ ts_str ++ u "] " ++ py_format sender ++ u " (reply to #"
              ++ py_format reply_to ++ u "): " ++ py_format text ++ u "  [#"
              ++ py_format mid ++ u "]")
  else print (u "[" ++ ts_str ++ u "] " ++ py_format sender ++ u ": "
              ++ py_format text ++ u "  [#" ++ py_format mid ++ u "]").

(** [handle_receipt], lines 275-293. *)
Definition handle_receipt (msg : pyval) : M ChatClient unit :=
  mid <- py_get msg (u "message_id") PNone ;;
  target <- py_get msg (u "to") PNone ;;
  ts <- py_get msg (u "timestamp") PNone ;;
  ts_str <- ts_str_of ts ;;
  modify (fun c => set_history (reconcile_receipt target mid (history c)) c) ;;
  print (u "[RECEIPT " ++ ts_str ++ u "] Message #" ++ py_format mid
         ++ u " delivered to " ++ py_format target).

(** [needle in hay] for two strings. *)
Fixpoint str_prefix (needle hay : pystr) : bool :=
  match needle, hay with
  | [], _ => true
  | x :: needle', y :: hay' => N.eqb x y && str_prefix needle' hay'
  | _ :: _, [] => false
  end.

Fixpoint str_contains (needle hay : pystr) : bool :=
  str_prefix needle hay
  || match hay with
     | [] => false
     | _ :: hay' => str_contains needle hay'
     end.

(** The list comprehension of [search_history], lines 305-308, under the
    lock: [not m["deleted"] and keyword_lower in m["text"].lower()]. Only
    a string has the method [lower]. *)
Fixpoint search_matches (keyword_lower : pystr) (h : list entry)
  : result (list entry) :=
  match h with
  | [] => Ok []
  | m :: h' =>
      if e_deleted m then search_matches keyword_lower h'
      else match e_text m with
           | PStr text =>
               match search_matches keyword_lower h' with
               | Ok l =>
                   Ok (if str_contains keyword_lower (str_lower text)
                       then m :: l else l)
               | Raise e => Raise e
               end
           | _ => Raise AttributeError
           end
  end.

(** [c[key]] for a value read from JSON. *)
Definition py_item (c : pyval) (key : pystr) : M ChatClient pyval :=
  match c with
  | PDict d =>
      match dict_lookup d key with
      | Some v => ret v
      | None => raise KeyError
      end
  | _ => raise TypeError
  end.

(** [handle_client_list], lines 295-298. Iterating a string or a dict
    gives strings, which cannot be indexed by ["client_id"]; the other
    values cannot be iterated. *)
Definition handle_client_list (msg : pyval) : M ChatClient unit :=
  print (u "[CLIENT] Connected clients:") ;;
  listed <- py_get msg (u "clients") (PList []) ;;
  match listed with
  | PList l =>
      for_each l (fun c =>
        cid <- py_item c (u "client_id") ;;
        a <- py_item c (u "address") ;;
        print (u "  - " ++ py_format cid ++ u " at " ++ py_format a))
  | PStr s => for_each s (fun _ => raise TypeError)
  | PDict d => for_each d (fun _ => raise TypeError)
  | _ => raise TypeError
  end.

(** [handle_server_message], lines 227-247. *)
Definition handle_server_message (raw_line : pystr) : M ChatClient unit :=
  match json_loads raw_line with
  | None => print (u "[CLIENT] Failed to decode server message: " ++ raw_line)
  | Some msg =>
      mtype <- py_get msg (u "type") PNone ;;
      if py_eqb mtype (PStr (u "chat")) then handle_chat_message msg
      else if py_eqb mtype (PStr (u "receipt")) then handle_receipt msg
      else if py_eqb mtype (PStr (u "client_list")) then handle_client_list msg
      else if py_eqb mtype (PStr (u "info")) then
        text <- py_get msg (u "text") PNone ;;
        print (u "[INFO] " ++ py_format text)
      else if py_eqb mtype (PStr (u "error")) then
        text <- py_get msg (u "text") PNone ;;
        print (u "[ERROR] " ++ py_format text)
      else print (u "[CLIENT] Unknown packet type: " ++ py_format msg)
  end.

Definition set_running (b : bool) (c : ChatClient) : ChatClient :=
  {| c_sock := c_sock c; c_sent := c_sent c; history := history c;
     timers := timers c; stdout := stdout c; c_running := b;
     c_ticks := c_ticks c; c_slept := c_slept c |}.

(** [listen_loop], lines 53-70. *)
Definition listen_loop (script : list recv_event) : M ChatClient unit :=
  try_finally
    (try_except is_connection_lost
       (recv_loop
          (fun c => match c_sock c with SockClosed => true | _ => false end)
          c_running
          (print (u "[CLIENT] Server disconnected."))
          handle_server_message script [])
       (print (u "[CLIENT] Connection lost.")))
    (modify (set_running false)).

(* --------------------------------------------------------------- *)
(** *** client.py: the commands and the handshake *)

(** More library functions: [int(s)] and [float(s)] ([None] for
    [ValueError]), and
    [datetime.fromtimestamp(ts).strftime("%Y-%m-%d %H:%M:%S")]. *)
Variable py_int : pystr -> option Z.
Variable py_float : pystr -> option float.
Variable strftime_full : pyval -> result pystr.

(** The text before the first [sep] and the text after it. *)
Fixpoint split_char (sep : N) (s : pystr) : option (pystr * pystr) :=
  match s with
  | [] => None
  | c :: rest =>
      if N.eqb c sep then Some ([], rest)
      else match split_char sep rest with
           | Some (a, b) => Some (c :: a, b)
           | None => None
           end
  end.

(** [s.split(sep, maxsplit)] for a separator of one character. *)
Fixpoint py_split (sep : N) (maxsplit : nat) (s : pystr) : list pystr :=
  match maxsplit with
  | O => [s]
  | S k =>
      match split_char sep s with
      | None => [s]
      | Some (a, b) => a :: py_split sep k b
      end
  end.

(** [s.partition(sep)], without the middle component. *)
Definition py_partition (sep : N) (s : pystr) : pystr * pystr :=
  match split_char sep s with
  | Some (a, b) => (a, b)
  | None => (s, [])
  end.

Fixpoint str_lstrip (s : pystr) : pystr :=
  match s with
  | c :: rest => if py_isspace c then str_lstrip rest else s
  | [] => []
  end.

(** [s.strip()] *)
Definition str_strip (s : pystr) : pystr :=
  List.rev (str_lstrip (List.rev (str_lstrip s))).

Definition SPACE : N := 32%N.

(** [send_list_request], lines 157-159. *)
Definition send_list_request : M ChatClient unit :=
  _send_json (PDict [(u "type", PStr (u "list"))]).

(** [send_exit], lines 220-225. *)
Definition send_exit : M ChatClient unit :=
  try_except is_OSError (_send_json (PDict [(u "type", PStr (u "exit"))])) (ret tt).

(** The line [search_history] prints for one match, lines 312-321. *)
Definition print_match (m : entry) : M ChatClient unit :=
  let direction := match e_direction m with DirIn => u "From" | DirOut => u "To" end in
  ts_str <- (if py_truthy (e_timestamp m)
             then (fun c => (strftime_full (e_timestamp m), c))
             else ret (u "?")) ;;
  print (u "  [#" ++ py_format (if py_truthy (e_id m) then e_id m else PStr (u "?"))
         ++ u "] " ++ direction ++ u " " ++ py_format (e_peer m) ++ u " at "
         ++ ts_str ++ u ": " ++ py_format (e_text m)).

(** [search_history], lines 300-321. *)
Definition search_history (keyword : pystr) : M ChatClient unit :=
  let keyword_lower := str_lower keyword in
  print (u "[CLIENT] Searching for '" ++ keyword ++ u "'...") ;;
  h <- gets history ;;
  match search_matches keyword_lower h with
  | Raise e => raise e
  | Ok [] => print (u "[CLIENT] No matches found.")
  | Ok matches => for_each matches print_match
  end.

(** [handle_command], lines 101-155. *)
Definition handle_command (cmd_line : pystr) : M ChatClient unit :=
  let parts := py_split SPACE 2 cmd_line in
  let cmd := nth 0 parts [] in
  if str_eqb cmd (u "/list") then send_list_request
  else if str_eqb cmd (u "/msg") && (3 <=? length parts)%nat then
    send_chat (PStr (nth 1 parts [])) (nth 2 parts []) PNone PNone
  else if str_eqb cmd (u "/reply") then
    let (msg_id_str, rest) := py_partition SPACE (skipn 7 cmd_line) in
    match rest with
    | [] => print (u "Usage: /reply <msg_id> <text>")
    | _ =>
        match py_int msg_id_str with
        | None => print (u "Message ID must be an integer.")
        | Some msg_id => send_reply msg_id rest
        end
    end
  else if str_eqb cmd (u "/search") && (2 <=? length parts)%nat then
    match str_strip (skipn 8 cmd_line) with
    | [] => print (u "Usage: /search <keyword>")
    | keyword => search_history keyword
    end
  else if str_eqb cmd (u "/temp") then
    let tokens := py_split SPACE 3 cmd_line in
    if (length tokens <? 4)%nat then print (u "Usage: /temp <id> <sec> <text>")
    else
      match py_float (nth 2 tokens []) with
      | None => print (u "Seconds must be a number.")
      | Some seconds =>
          send_temp_message (PStr (nth 1 tokens [])) (nth 3 tokens []) seconds
      end
  else if str_eqb cmd (u "/exit") then
    modify (set_running false) ;;
    send_exit
  else print (u "Unknown or malformed command.").

(** What one call of [input("> ")] gives: a line, or the end of the input
    ([EOFError]), or an interrupt from the keyboard. *)
Inductive input_event : Type :=
| InputLine (s : pystr)
| InputEOF
| InputInterrupt.

(** The [except (EOFError, KeyboardInterrupt)] clause of [input_loop]. *)
Definition input_interrupted : M ChatClient unit :=
  print (10%N :: u "[CLIENT] Exiting...") ;;
  modify (set_running false) ;;
  send_exit.

(** The [try] block of [input_loop], lines 82-94, with its [except]
    clause: both exceptions can only come from [input], so the clause is
    entered right there. Input that is used up is an end of input. The
    prompt that [input] writes is not recorded. *)
Fixpoint input_commands (inputs : list input_event) : M ChatClient unit :=
  fun c =>
    if negb (c_running c) then (Ok tt, c)
    else
      match inputs with
      | [] => input_interrupted c
      | InputEOF :: _ => input_interrupted c
      | InputInterrupt :: _ => input_interrupted c
      | InputLine s :: inputs' =>
          let user_input := str_strip s in
          match user_input with
          | [] => input_commands inputs' c
          | _ =>
              if str_prefix (u "/") user_input
              then bind (handle_command user_input)
                        (fun _ => input_commands inputs') c
              else bind (print (u "Please use a command (e.g., /msg, /list, /exit)."))
                        (fun _ => input_commands inputs') c
          end
      end.

(** [self.sock.close()] with its [except OSError: pass]. *)
Definition c_close : M ChatClient unit :=
  modify (fun c => {| c_sock := SockClosed; c_sent := c_sent c;
                      history := history c; timers := timers c;
                      stdout := stdout c; c_running := c_running c;
                      c_ticks := c_ticks c; c_slept := c_slept c |}).

(** [input_loop], lines 72-99. *)
Definition input_loop (inputs : list input_event) : M ChatClient unit :=
  print (10%N :: u "[CLIENT] Commands:") ;;
  print (u "  /list                        - Show connected clients") ;;
  print (u "  /msg <id> <text>             - Send message to client <id>") ;;
  print (u "  /reply <msg_id> <text>       - Reply to a previous message") ;;
  print (u "  /search <keyword>            - Search local message history") ;;
  print (u "  /temp <id> <sec> <text>      - Send temp message that deletes locally after <sec> seconds") ;;
  print (u "  /exit                        - Exit the chat" ++ [10%N]) ;;
  try_finally (input_commands inputs) c_close.

(** What [_recv_line] and [connect] can raise beside the exceptions of
    [pyexc]: [ConnectionError("Server closed connection during welcome.")]
    and [json.JSONDecodeError]. *)
Inductive connect_error : Type :=
| ConnectionError
| JSONDecodeError
| PyError (e : pyexc).

(** [_recv_line], lines 327-335: the line read, or the exception, and the
    reads that are left for later. The text after the first delimiter is
    bound to [_] and dropped. *)
Fixpoint _recv_line (script : list recv_event) (buffer : pystr)
  : (pystr + connect_error) * list recv_event :=
  match split_delim buffer with
  | Some (line, _) => (inl line, script)
  | None =>
      match script with
      | [] => (inr ConnectionError, [])
      | RecvReset :: script' => (inr (PyError ConnectionResetError), script')
      | RecvAborted :: script' => (inr (PyError ConnectionAbortedError), script')
      | RecvData [] :: script' => (inr ConnectionError, script')
      | RecvData data :: script' =>
          match utf8_decode data with
          | None => (inr (PyError UnicodeDecodeError), script')
          | Some text => _recv_line script' (buffer ++ text)
          end
      end
  end.

(** How [connect] ends before it starts the listener and the input loop:
    with the identity from the welcome packet, with the message about an
    unexpected packet, or with an exception. *)
Inductive connect_result : Type :=
| Connected (client_id : pyval)
| UnexpectedWelcome
| ConnectRaised (e : connect_error).

Definition lift_py {A : Type} (m : M ChatClient A)
  (k : A -> ChatClient -> connect_result * ChatClient)
  : ChatClient -> connect_result * ChatClient :=
  fun c => match m c with
           | (Ok a, c') => k a c'
           | (Raise e, c') => (ConnectRaised (PyError e), c')
           end.

(** The loop over [welcome.get("clients", [])], lines 45-46, which is the
    loop of [handle_client_list]. *)
Definition print_clients (msg : pyval) : M ChatClient unit :=
  listed <- py_get msg (u "clients") (PList []) ;;
  match listed with
  | PList l =>
      for_each l (fun c =>
        cid <- py_item c (u "client_id") ;;
        a <- py_item c (u "address") ;;
        print (u "  - " ++ py_format cid ++ u " at " ++ py_format a))
  | PStr s => for_each s (fun _ => raise TypeError)
  | PDict d => for_each d (fun _ => raise TypeError)
  | _ => raise TypeError
  end.

(** [connect], lines 30-46, for a socket that is connected: up to the
    point where the listener thread and the input loop start. The second
    component of the result is what is left to read for the listener. *)
Definition connect (script : list recv_event) (c : ChatClient)
  : connect_result * ChatClient * list recv_event :=
  let c := set_running true c in
  match _recv_line script [] with
  | (inr e, rest) => (ConnectRaised e, c, rest)
  | (inl welcome_line, rest) =>
      match json_loads welcome_line with
      | None => (ConnectRaised JSONDecodeError, c, rest)
      | Some welcome =>
          (lift_py (py_get welcome (u "type") PNone) (fun t =>
             if negb (py_eqb t (PStr (u "welcome")))
             then lift_py (print (u "[CLIENT] Unexpected welcome packet: "
                                  ++ py_format welcome))
                    (fun _ c' => (UnexpectedWelcome, c'))
             else
               lift_py (py_item welcome (u "client_id")) (fun client_id =>
               lift_py (print (u "[CLIENT] Connected as " ++ py_format client_id)) (fun _ =>
               lift_py (print (u "[CLIENT] Currently connected clients:")) (fun _ =>
               lift_py (print_clients welcome) (fun _ c' =>
                 (Connected client_id, c')))))) c,
           rest)
      end
  end.

(* --------------------------------------------------------------- *)
(** *** Concrete data for the examples *)

(** A string between double quotes, as it stands in a line of JSON. *)
Definition quoted (s : string) : pystr := 34%N :: u s ++ [34%N].

Definition line_exit : pystr :=
  u "{" ++ quoted "type" ++ u ": " ++ quoted "exit" ++ u "}".

Definition line_chat (target text : string) : pystr :=
  u "{" ++ quoted "type" ++ u ": " ++ quoted "chat" ++ u ", "
    ++ quoted "to" ++ u ": " ++ quoted target ++ u ", "
    ++ quoted "text" ++ u ": " ++ quoted text ++ u "}".

Definition msg_exit : pyval := PDict [(u "type", PStr (u "exit"))].

Definition dict_chat (target text : string) : list (pystr * pyval) :=
  [(u "type", PStr (u "chat")); (u "to", PStr (u target));
   (u "text", PStr (u text))].

Definition msg_chat (target text : string) : pyval := PDict (dict_chat target text).

(** A receipt as the server builds it. *)
Definition dict_receipt (message_id : Z) (target : string) : list (pystr * pyval) :=
  [(u "type", PStr (u "receipt")); (u "message_id", PInt message_id);
   (u "to", PStr (u target)); (u "status", PStr (u "delivered"));
   (u "timestamp", PFloat (float_of_Z 1000))].

(** An outbound entry still waiting for its receipt. *)
Definition entry_out (peer text : string) : entry :=
  {| e_id := PNone; e_direction := DirOut; e_peer := PStr (u peer);
     e_text := PStr (u text); e_timestamp := PFloat (float_of_Z 1000);
     e_reply_to := PNone; e_temp_until := PNone; e_deleted := false |}.

(** An outbound entry whose receipt has come, deleted since. *)
Definition entry_sent (mid : Z) (peer text : string) : entry :=
  {| e_id := PInt mid; e_direction := DirOut; e_peer := PStr (u peer);
     e_text := PStr (u text); e_timestamp := PFloat (float_of_Z 1000);
     e_reply_to := PNone; e_temp_until := PNone; e_deleted := true |}.

(** An inbound entry, with the id the server gave the message. *)
Definition entry_in (mid : Z) (peer text : string) (deleted : bool) : entry :=
  {| e_id := PInt mid; e_direction := DirIn; e_peer := PStr (u peer);
     e_text := PStr (u text); e_timestamp := PFloat (float_of_Z 1000);
     e_reply_to := PNone; e_temp_until := PNone; e_deleted := deleted |}.

Definition client_with (h : list entry) : ChatClient :=
  {| c_sock := SockOpen; c_sent := []; history := h; timers := [];
     stdout := []; c_running := true; c_ticks := 0; c_slept := [] |}.

(** [json.loads] on the two lines the examples send. *)
Definition ex_json_loads (line : pystr) : option pyval :=
  if str_eqb line line_exit then Some msg_exit
  else if str_eqb line (line_chat "C001" "hi") then Some (msg_chat "C001" "hi")
  else None.

(** A clock that advances by one second per reading, from 1000.0. *)
Definition ex_clock (n : nat) : float := float_of_Z (1000 + Z.of_nat n).

Definition ex_str_other (v : pyval) : pystr := u "?".
Definition ex_strftime (v : pyval) : result pystr := Ok (u "12:00:00").

Definition addr_a : address := {| host := u "127.0.0.1"; port := 50001 |}.
Definition addr_b : address := {| host := u "127.0.0.1"; port := 50002 |}.

(** A client just connected, with an empty history. *)
Definition client0 : ChatClient :=
  {| c_sock := SockOpen; c_sent := []; history := []; timers := [];
     stdout := []; c_running := true; c_ticks := 0; c_slept := [] |}.

(** A fresh server with [n] accepted sockets, all open. *)
Definition world0 (n : nat) : world :=
  {| server := ChatServer_init; socks := repeat SockOpen n; wire := [];
     ticks := 0 |}.

(** One client registered: [C001] on socket 0; socket 1 is accepted and not
    registered yet. *)
Definition world_a : world :=
  snd (with_lock (locked_register 0 addr_a) (world0 2)).

(** Two clients registered: [C001] on socket 0 and [C002] on socket 1. *)
Definition world_ab : world :=
  snd (with_lock (locked_register 1 addr_b) world_a).

(** The same, after the peer of [C001] has gone away without the server
    having noticed: [C001] is still registered, a write to socket 0 fails. *)
Definition world_a_gone : world :=
  {| server := server world_ab; socks := [SockPipe; SockOpen];
     wire := wire world_ab; ticks := ticks world_ab |}.

(** [world_a], with the peer of [C001] gone in the same way. *)
Definition world_a_gone_b_new : world :=
  {| server := server world_a; socks := [SockPipe; SockOpen];
     wire := wire world_a; ticks := ticks world_a |}.

Definition info_a : client_info :=
  {| socket := 0; addr := addr_a; name := u "C001" |}.
Definition info_b : client_info :=
  {| socket := 1; addr := addr_b; name := u "C002" |}.

(** One segment that carries an [exit] packet and a [chat] packet. *)
Definition segment_exit_chat : list byte :=
  ascii_bytes (line_exit ++ [DELIMITER] ++ line_chat "C001" "hi" ++ [DELIMITER]).

(** One segment with one chat packet for [C001]. *)
Definition segment_chat : list byte :=
  ascii_bytes (line_chat "C001" "hi" ++ [DELIMITER]).

(** More lines of the examples: a [list] request, a packet of a type the
    server does not know, and the welcome packet for [C002] when [C001] is
    there already. *)
Definition line_list : pystr :=
  u "{" ++ quoted "type" ++ u ": " ++ quoted "list" ++ u "}".

Definition line_ping : pystr :=
  u "{" ++ quoted "type" ++ u ": " ++ quoted "ping" ++ u "}".

Definition line_client (cid address : string) : pystr :=
  u "{" ++ quoted "client_id" ++ u ": " ++ quoted cid ++ u ", "
    ++ quoted "address" ++ u ": " ++ quoted address ++ u "}".

Definition line_welcome : pystr :=
  u "{" ++ quoted "type" ++ u ": " ++ quoted "welcome" ++ u ", "
    ++ quoted "client_id" ++ u ": " ++ quoted "C002" ++ u ", "
    ++ quoted "clients" ++ u ": ["
    ++ line_client "C001" "('127.0.0.1', 50001)" ++ u ", "
    ++ line_client "C002" "('127.0.0.1', 50002)" ++ u "]}".

(** A chat packet whose [to] is an empty JSON array. *)
Definition line_chat_to_list : pystr :=
  u "{" ++ quoted "type" ++ u ": " ++ quoted "chat" ++ u ", "
    ++ quoted "to" ++ u ": [], "
    ++ quoted "text" ++ u ": " ++ quoted "hi" ++ u "}".

Definition segment_chat_to_list : list byte :=
  ascii_bytes (line_chat_to_list ++ [DELIMITER]).

(** A [time.sleep] that refuses every delay from 9223372036 seconds on
    (some 292 years, where the nanoseconds no longer fit 64 bits), and so
    an infinite one. *)
Definition ex_sleep_overflows (d : float) : bool :=
  negb (float_ltb d (float_of_Z 9223372036)).

(** [json.loads] on the lines of the examples, as a table. *)
Definition ex_json_table : list (pystr * pyval) :=
  [(line_exit, msg_exit);
   (line_chat_to_list,
    PDict [(u "type", PStr (u "chat")); (u "to", PList []);
           (u "text", PStr (u "hi"))]);
   (line_chat "C001" "hi", msg_chat "C001" "hi");
   (line_list, PDict [(u "type", PStr (u "list"))]);
   (line_ping, PDict [(u "type", PStr (u "ping"))]);
   (line_welcome, welcome_packet (u "C002") (locked_snapshot (server world_ab)))].

Definition ex_json_lookup (line : pystr) : option pyval :=
  dict_lookup ex_json_table line.

(** [int] and [float] on the numbers the examples type. *)
Definition ex_py_int (s : pystr) : option Z :=
  if str_eqb s (u "3") then Some 3 else None.

Definition ex_py_float (s : pystr) : option float :=
  if str_eqb s (u "5") then Some (float_of_Z 5) else None.

(** A client whose server has gone away: a write fails. *)
Definition client_gone : ChatClient :=
  {| c_sock := SockPipe; c_sent := []; history := []; timers := [];
     stdout := []; c_running := true; c_ticks := 0; c_slept := [] |}.

(* --------------------------------------------------------------- *)
(** *** Notions used in the statements and proofs *)

(** A computation only adds to the record of what was written. *)
Definition extends_wire {A : Type} (m : M world A) : Prop :=
  forall w, exists l, wire (snd (m w)) = wire w ++ l.

(** The packets a socket received, in order. *)
Definition received (sock : nat) (tr : list (nat * pyval)) : list pyval :=
  List.map snd (List.filter (fun p => Nat.eqb (fst p) sock) tr).

(** [packet["type"] == kind] for a packet the server built. *)
Definition has_type (kind : string) (packet : pyval) : bool :=
  match packet with
  | PDict d =>
      match dict_lookup d (u "type") with
      | Some t => py_eqb t (PStr (u kind))
      | None => false
      end
  | _ => false
  end.

(** The blocks of other threads between a connection's registration and
    its snapshot: anything but the removal of that connection (which only
    its own worker does) and [shutdown]. *)
Definition keeps (client_id : pystr) (b : lock_block) : Prop :=
  match b with
  | BPop cid => cid <> client_id
  | BClear => False
  | _ => True
  end.

Definition is_open (st : sock_state) : bool :=
  match st with SockOpen => true | _ => false end.

(** What one broadcast writes: [packet] once to the socket of every
    registered client other than [exclude_id] whose socket takes the write,
    in the order of the registry. *)
Definition notices (packet : pyval) (exclude_id : option pystr)
  (sockets : list sock_state) (registered : list (pystr * client_info))
  : list (nat * pyval) :=
  List.map (fun '(_, info) => (socket info, packet))
    (List.filter
       (fun '(cid, info) =>
          negb (match exclude_id with Some x => str_eqb cid x | None => false end)
          && is_open (nth (socket info) sockets SockClosed))
       registered).

(** A computation keeps a property of the state, however it ends. *)
Definition preserves {St A : Type} (P : St -> Prop) (m : M St A) : Prop :=
  forall s, P s -> P (snd (m s)).

(** A property of the world that only reads the registry, the sockets and
    the identity counter, and that survives the message counter growing. *)
Definition stable (P : world -> Prop) : Prop :=
  forall w w',
    clients (server w') = clients (server w) ->
    socks w' = socks w ->
    next_client_id (server w') = next_client_id (server w) ->
    message_counter (server w) <= message_counter (server w') ->
    P w -> P w'.

(** What a worker for [client_id] may have done to the server record
    between [w0] and [w]: the identity counter is as it was, the message
    counter has not gone down, nobody was added to the registry and nobody
    but [client_id] was taken out. *)
Definition worker_frame (client_id : pystr) (w0 w : world) : Prop :=
  next_client_id (server w) = next_client_id (server w0)
  /\ message_counter (server w0) <= message_counter (server w)
  /\ incl (clients (server w)) (clients (server w0))
  /\ (forall k v, In (k, v) (clients (server w0)) -> k <> client_id ->
                  In (k, v) (clients (server w))).

(** The state of a connection during its worker: registered with its
    socket, or no longer registered and its socket closed. *)
Definition registered_or_closed (client_id : pystr) (conn : nat) (w : world) : Prop :=
  NoDup (List.map fst (clients (server w)))
  /\ ((exists info, dict_lookup (clients (server w)) client_id = Some info
                    /\ socket info = conn)
      \/ (dict_lookup (clients (server w)) client_id = None
          /\ sock_state_of conn w = SockClosed)).

(** How an entry of the history may change: only its id, and only when it
    had none; only its deleted flag, and only from false to true. *)
Definition entry_evolves (m m' : entry) : Prop :=
  e_direction m' = e_direction m /\ e_peer m' = e_peer m
  /\ e_text m' = e_text m /\ e_timestamp m' = e_timestamp m
  /\ e_reply_to m' = e_reply_to m /\ e_temp_until m' = e_temp_until m
  /\ (e_deleted m = true -> e_deleted m' = true)
  /\ (e_id m <> PNone -> e_id m' = e_id m).

(** How the history may change: entries evolve in place, new ones are
    appended. *)
Definition history_evolves (h h' : list entry) : Prop :=
  exists h1 added, h' = h1 ++ added /\ Forall2 entry_evolves h h1.

(** The text of the [RecvData] events of a script that all decode. *)
Fixpoint script_text (script : list recv_event) : option pystr :=
  match script with
  | [] => Some []
  | RecvData data :: script' =>
      match utf8_decode data, script_text script' with
      | Some t, Some ts => Some (t ++ ts)
      | _, _ => None
      end
  | _ => None
  end.

(** What [send_to_client_id] writes: the packet, to the socket of the
    client, when the client is registered and its socket takes the write. *)
Definition reply_to (client_id : pystr) (packet : pyval) (w : world)
  : list (nat * pyval) :=
  match dict_lookup (clients (server w)) client_id with
  | Some info =>
      if is_open (sock_state_of (socket info) w) then [(socket info, packet)] else []
  | None => []
  end.

(** The sockets after [close()] on each socket of a list. *)
Definition close_all (sockets : list nat) (l : list sock_state) : list sock_state :=
  fold_left (fun l i => list_set l i SockClosed) sockets l.

(** A property of the client that only reads the history and what was
    written to the socket. *)
Definition stable_c (P : ChatClient -> Prop) : Prop :=
  forall c c', history c' = history c -> c_sent c' = c_sent c -> P c -> P c'.

(** A property of the client that allows the history to evolve. *)
Definition allows_history (P : ChatClient -> Prop) : Prop :=
  forall c h', history_evolves (history c) h' -> P c -> P (set_history h' c).

(** The state of the client after some lines were printed. *)
Definition printed (lines : list pystr) (c : ChatClient) : ChatClient :=
  {| c_sock := c_sock c; c_sent := c_sent c; history := history c;
     timers := timers c; stdout := stdout c ++ lines;
     c_running := c_running c; c_ticks := c_ticks c; c_slept := c_slept c |}.

(** The lines the client prints for a list of clients of the server. *)
Definition client_lines (registered : list (pystr * client_info)) : list pystr :=
  List.map (fun '(cid, info) => u "  - " ++ cid ++ u " at " ++ str_address (addr info))
    registered.

(** A word of a command: no space in it. *)
Definition word (s : pystr) : Prop := Forall (fun ch => ch <> SPACE) s.

(** A script of a peer that closes without having sent anything. *)
Definition closes_at_once (script : list recv_event) : bool :=
  match script with
  | [] | RecvData [] :: _ => true
  | _ => false
  end.

Ltac run_monad :=
  cbv beta iota zeta delta [bind ret raise gets modify try_except try_finally
    with_lock py_get time_time set_server lookup_client];
  cbn [fst snd server socks wire ticks].

(* =============================================================== *)
(** ** Facts on strings and dicts *)

Lemma str_eqb_eq (a b : pystr) : str_eqb a b = true <-> a = b.
Proof.
  revert b; induction a as [|x a IH]; intros [|y b]; simpl; split; intro H;
    try reflexivity; try discriminate.
  - apply andb_true_iff in H as [Hx Hr].
    apply N.eqb_eq in Hx. apply IH in Hr. now subst.
  - injection H as -> ->. rewrite N.eqb_refl. now apply IH.
Qed.

Lemma str_eqb_refl (a : pystr) : str_eqb a a = true.
Proof. now apply str_eqb_eq. Qed.

Lemma str_eqb_neq (a b : pystr) : str_eqb a b = false <-> a <> b.
Proof.
  split; intro H.
  - intro E. apply str_eqb_eq in E. congruence.
  - destruct (str_eqb a b) eqn:E; [|reflexivity].
    apply str_eqb_eq in E. contradiction.
Qed.

Lemma dict_lookup_set_same {V : Type} (d : list (pystr * V)) k v :
  dict_lookup (dict_set d k v) k = Some v.
Proof.
  induction d as [|[k' v'] d IH]; simpl.
  - now rewrite str_eqb_refl.
  - destruct (str_eqb k' k) eqn:E; simpl; rewrite E; [reflexivity | exact IH].
Qed.

Lemma dict_lookup_set_other {V : Type} (d : list (pystr * V)) k k' v :
  k <> k' -> dict_lookup (dict_set d k v) k' = dict_lookup d k'.
Proof.
  intro Hne. induction d as [|[k0 v0] d IH]; simpl.
  - apply str_eqb_neq in Hne. now rewrite Hne.
  - destruct (str_eqb k0 k) eqn:E; simpl.
    + apply str_eqb_eq in E. subst k0.
      apply str_eqb_neq in Hne. now rewrite Hne.
    + now rewrite IH.
Qed.

Lemma dict_lookup_In {V : Type} (d : list (pystr * V)) k v :
  dict_lookup d k = Some v -> In (k, v) d.
Proof.
  induction d as [|[k' v'] d IH]; simpl; [discriminate|].
  destruct (str_eqb k' k) eqn:E.
  - intros [= ->]. apply str_eqb_eq in E. subst. now left.
  - intro H. right. now apply IH.
Qed.

Lemma dict_set_In_new {V : Type} (d : list (pystr * V)) k v :
  In (k, v) (dict_set d k v).
Proof.
  induction d as [|[k' v'] d IH]; simpl.
  - now left.
  - destruct (str_eqb k' k) eqn:E.
    + apply str_eqb_eq in E. subst. now left.
    + right. exact IH.
Qed.

Lemma dict_set_In_old {V : Type} (d : list (pystr * V)) k v k' v' :
  k' <> k -> In (k', v') d -> In (k', v') (dict_set d k v).
Proof.
  intros Hne. induction d as [|[k0 v0] d IH]; simpl; [intros []|].
  intros [H|H].
  - injection H as -> ->.
    apply str_eqb_neq in Hne. rewrite Hne. now left.
  - destruct (str_eqb k0 k); [now right | right; now apply IH].
Qed.

Lemma dict_pop_lookup_same {V : Type} (d : list (pystr * V)) k :
  fst (dict_pop d k) = dict_lookup d k.
Proof.
  induction d as [|[k' v'] d IH]; simpl; [reflexivity|].
  destruct (str_eqb k' k); [reflexivity|].
  destruct (dict_pop d k). exact IH.
Qed.

(* =============================================================== *)
(** ** Framing *)

Lemma split_delim_shorter (buffer line rest : pystr) :
  split_delim buffer = Some (line, rest) -> (length rest < length buffer)%nat.
Proof.
  revert line rest. induction buffer as [|c buffer IH]; simpl; [discriminate|].
  intros line rest. destruct (N.eqb c DELIMITER).
  - intros [= <- <-]. lia.
  - destruct (split_delim buffer) as [[l r]|]; [|discriminate].
    intros [= <- <-]. specialize (IH l r eq_refl). lia.
Qed.

(** The fuel given to the inner loop is enough: more fuel changes nothing,
    so the loop ends because no delimiter is left. *)
Lemma dispatch_lines_fuel {St : Type} (handle : pystr -> M St unit)
  (fuel fuel' : nat) (buffer : pystr) :
  (length buffer <= fuel)%nat -> (length buffer <= fuel')%nat ->
  dispatch_lines handle fuel buffer = dispatch_lines handle fuel' buffer.
Proof.
  revert fuel' buffer. induction fuel as [|fuel IH]; intros fuel' buffer H H'.
  - destruct buffer; [|simpl in H; lia]. destruct fuel'; reflexivity.
  - destruct fuel' as [|fuel'].
    + destruct buffer; [reflexivity | simpl in H'; lia].
    + simpl. destruct (split_delim buffer) as [[line rest]|] eqn:E; [|reflexivity].
      apply split_delim_shorter in E.
      rewrite (IH fuel' rest) by lia. reflexivity.
Qed.

Lemma split_lines_none (buffer : pystr) :
  split_delim buffer = None -> split_lines buffer = ([], buffer).
Proof.
  induction buffer as [|c buffer IH]; simpl; [reflexivity|].
  destruct (N.eqb c DELIMITER); [discriminate|].
  destruct (split_delim buffer) as [[l r]|]; [discriminate|].
  intros _. now rewrite IH.
Qed.

Lemma split_lines_some (buffer line rest : pystr) :
  split_delim buffer = Some (line, rest) ->
  split_lines buffer = (line :: fst (split_lines rest), snd (split_lines rest)).
Proof.
  revert line rest. induction buffer as [|c buffer IH]; simpl; [discriminate|].
  intros line rest. destruct (N.eqb c DELIMITER).
  - intros [= <- <-]. now destruct (split_lines buffer).
  - destruct (split_delim buffer) as [[l r]|]; [|discriminate].
    intros [= <- <-]. now rewrite (IH l r eq_refl).
Qed.

(** The text left after the last delimiter holds no delimiter. *)
Lemma split_lines_tail (buffer : pystr) :
  split_lines (snd (split_lines buffer)) = ([], snd (split_lines buffer)).
Proof.
  induction buffer as [|c buffer IH]; simpl; [reflexivity|].
  destruct (split_lines buffer) as [ls tail]. simpl in IH.
  destruct (N.eqb c DELIMITER) eqn:E; simpl; [exact IH|].
  destruct ls as [|l ls']; simpl; [|exact IH].
  now rewrite IH, E.
Qed.

Lemma split_lines_app (a b : pystr) :
  split_lines (a ++ b)
  = (fst (split_lines a) ++ fst (split_lines (snd (split_lines a) ++ b)),
     snd (split_lines (snd (split_lines a) ++ b))).
Proof.
  induction a as [|c a IH]; simpl.
  - now destruct (split_lines b).
  - rewrite IH. destruct (split_lines a) as [la ta]. simpl.
    destruct (N.eqb c DELIMITER) eqn:E; simpl; [reflexivity|].
    destruct la as [|l la']; simpl; [|reflexivity].
    rewrite E. now destruct (split_lines (ta ++ b)) as [[|l2 ls2] t2].
Qed.

(** The inner loop with the recording handler: the lines of the buffer
    that are not blank are recorded, the text after the last delimiter is
    the new buffer. *)
Lemma dispatch_lines_log (fuel : nat) (buffer : pystr) (log : list pystr) :
  (length buffer <= fuel)%nat ->
  dispatch_lines log_line fuel buffer log
  = (Ok (snd (split_lines buffer)),
     log ++ List.filter strip_nonempty (fst (split_lines buffer))).
Proof.
  revert buffer log. induction fuel as [|fuel IH]; intros buffer log H.
  - destruct buffer; [|simpl in H; lia]. simpl. unfold ret.
    now rewrite List.app_nil_r.
  - simpl. destruct (split_delim buffer) as [[line rest]|] eqn:E.
    + rewrite (split_lines_some _ _ _ E). simpl.
      pose proof (split_delim_shorter _ _ _ E) as Hlen.
      unfold bind. destruct (strip_nonempty line); unfold log_line, ret.
      * rewrite IH by lia. now rewrite <- app_assoc.
      * rewrite IH by lia. reflexivity.
    + rewrite (split_lines_none _ E). simpl. unfold ret.
      now rewrite List.app_nil_r.
Qed.

Ltac utf8_tail IH H b :=
  match type of H with
  | option_map _ (utf8_decode ?r) = Some _ =>
      let t := fresh "t" in
      let E := fresh "E" in
      destruct (utf8_decode r) as [t|] eqn:E; [|discriminate H];
      injection H as <-;
      rewrite (IH r t b) by (simpl in *; first [lia | assumption]);
      destruct (utf8_decode b); reflexivity
  end.

Ltac utf8_guard IH H b :=
  match type of H with
  | (if ?c then _ else _) = Some _ =>
      destruct c; [utf8_tail IH H b | discriminate H]
  end.

(** Decoding goes through concatenation when the first part is valid on
    its own. *)
Lemma utf8_decode_app_len (n : nat) :
  forall (a : list byte) (x : pystr) (b : list byte),
    (length a <= n)%nat -> utf8_decode a = Some x ->
    utf8_decode (a ++ b) = option_map (List.app x) (utf8_decode b).
Proof.
  induction n as [|n IH]; intros a x b Hlen H.
  - destruct a; [|simpl in Hlen; lia]. injection H as <-.
    simpl. now destruct (utf8_decode b).
  - destruct a as [|b0 r0].
    { injection H as <-. simpl. now destruct (utf8_decode b). }
    simpl in H |- *.
    destruct (Byte.to_N b0 <? 128)%N; [utf8_tail IH H b|].
    destruct (Byte.to_N b0 <? 194)%N; [discriminate H|].
    destruct (Byte.to_N b0 <? 224)%N.
    { destruct r0 as [|b1 r1]; [discriminate H|]. simpl in H |- *.
      utf8_guard IH H b. }
    destruct (Byte.to_N b0 <? 240)%N.
    { destruct r0 as [|b1 [|b2 r2]]; try discriminate H. simpl in H |- *.
      utf8_guard IH H b. }
    destruct (Byte.to_N b0 <? 245)%N; [|discriminate H].
    destruct r0 as [|b1 [|b2 [|b3 r3]]]; try discriminate H. simpl in H |- *.
    utf8_guard IH H b.
Qed.

Lemma utf8_decode_app (a b : list byte) (x y : pystr) :
  utf8_decode a = Some x -> utf8_decode b = Some y ->
  utf8_decode (a ++ b) = Some (x ++ y).
Proof.
  intros Ha Hb. rewrite (utf8_decode_app_len (length a) a x b (le_n _) Ha).
  now rewrite Hb.
Qed.

Lemma utf8_decode_ascii (bs : list byte) :
  Forall (fun b => (Byte.to_N b < 128)%N) bs ->
  utf8_decode bs = Some (List.map Byte.to_N bs).
Proof.
  induction 1 as [|b bs Hb _ IH]; simpl; [reflexivity|].
  apply N.ltb_lt in Hb. now rewrite Hb, IH.
Qed.


Lemma recv_loop_log (chunks : list (list byte)) :
  Forall (fun ch => ch <> [] /\ utf8_decode ch <> None) chunks ->
  exists text,
    utf8_decode (concat chunks) = Some text
    /\ forall buffer log,
         split_lines buffer = ([], buffer) ->
         recv_loop (fun _ => false) (fun _ => true) (ret tt) log_line
           (List.map RecvData chunks) buffer log
         = (Ok tt,
            log ++ List.filter strip_nonempty (fst (split_lines (buffer ++ text)))).
Proof.
  induction 1 as [|ch chunks [Hne Hdec] _ [text' [Htext' IH]]].
  - exists []. split; [reflexivity|]. intros buffer log Hb. simpl.
    rewrite !List.app_nil_r, Hb. simpl. now rewrite List.app_nil_r.
  - destruct (utf8_decode ch) as [t|] eqn:Et; [|contradiction].
    exists (t ++ text'). split.
    { simpl. now apply utf8_decode_app. }
    intros buffer log Hb.
    destruct ch as [|b bs]; [contradiction|].
    cbn [List.map recv_loop negb]. rewrite Et.
    unfold bind. rewrite dispatch_lines_log by lia.
    rewrite IH by apply split_lines_tail.
    rewrite (app_assoc buffer t text'), (split_lines_app (buffer ++ t) text').
    cbn [fst]. now rewrite filter_app, app_assoc.
Qed.

Lemma decode_stream_concat (chunks : list (list byte)) :
  Forall (fun ch => ch <> [] /\ utf8_decode ch <> None) chunks ->
  decode_stream chunks = decode_stream [concat chunks].
Proof.
  intro H. destruct (recv_loop_log chunks H) as [text [Htext Hrun]].
  unfold decode_stream. rewrite Hrun by reflexivity.
  cbn [List.map recv_loop negb]. destruct (concat chunks) as [|b bs] eqn:Ec.
  - injection Htext as <-. reflexivity.
  - rewrite Htext. unfold bind. rewrite dispatch_lines_log by lia.
    reflexivity.
Qed.

(** Fragmented reads, as far as this code tolerates them: when every read
    returns at least one byte and the bytes of each read are valid UTF-8
    by themselves, reading chunk by chunk hands over exactly the lines
    that one read of the whole stream does. *)
Theorem decode_stream_chunks (chunks : list (list byte)) :
  Forall (fun ch => ch <> [] /\ utf8_decode ch <> None) chunks ->
  decode_stream chunks = decode_stream [concat chunks].
Proof. exact (decode_stream_concat chunks). Qed.

(** In particular for a stream of ASCII bytes, which is what [json.dumps]
    of both endpoints writes, however it is cut. *)
Theorem decode_stream_chunks_ascii (chunks : list (list byte)) :
  Forall (fun ch => ch <> [] /\ Forall (fun b => (Byte.to_N b < 128)%N) ch) chunks ->
  decode_stream chunks = decode_stream [concat chunks].
Proof.
  intro H. apply decode_stream_concat.
  eapply Forall_impl; [|exact H]. intros ch [Hne Hascii]. split; [exact Hne|].
  now rewrite (utf8_decode_ascii ch Hascii).
Qed.

(* =============================================================== *)
(** ** Identities are pairwise distinct *)

Lemma uint_digits_inj (d d' : uint) : uint_digits d = uint_digits d' -> d = d'.
Proof.
  revert d'; induction d; intros d'; destruct d'; simpl; intro H;
    try discriminate; try reflexivity;
    (injection H as H; f_equal; now apply IHd).
Qed.

Lemma uint_digits_no_minus (d : uint) : Forall (fun c => c <> 45%N) (uint_digits d).
Proof. induction d; simpl; constructor; try discriminate; assumption. Qed.

Lemma repeat_zero_digits (k : nat) (d : uint) :
  repeat 48%N k ++ uint_digits d = uint_digits (Nat.iter k D0 d).
Proof. induction k as [|k IH]; simpl; [reflexivity | now rewrite IH]. Qed.

Lemma unorm_iter_D0 (k : nat) (d : uint) : unorm (Nat.iter k D0 d) = unorm d.
Proof. induction k as [|k IH]; simpl; [reflexivity|]. now rewrite unorm_D0. Qed.

Lemma zfill_digits_inj (w w' : nat) (d d' : uint) :
  unorm d = d -> unorm d' = d' ->
  zfill w (uint_digits d) = zfill w' (uint_digits d') -> d = d'.
Proof.
  unfold zfill. intros Hd Hd'. rewrite !repeat_zero_digits. intro H.
  apply uint_digits_inj in H.
  apply (f_equal unorm) in H. rewrite !unorm_iter_D0 in H. congruence.
Qed.

Lemma zfill_digits_no_minus (w : nat) (d : uint) (rest : pystr) :
  zfill w (uint_digits d) <> 45%N :: rest.
Proof.
  unfold zfill. rewrite repeat_zero_digits. intro H.
  pose proof (uint_digits_no_minus (Nat.iter w D0 d)) as F.
  assert (G : Forall (fun c => c <> 45%N)
                (uint_digits (Nat.iter (w - length (uint_digits d)) D0 d)))
    by apply uint_digits_no_minus.
  rewrite H in G. inversion G; subst. congruence.
Qed.

Lemma pos_to_uint_norm (p : positive) : unorm (Pos.to_uint p) = Pos.to_uint p.
Proof.
  rewrite <- DecimalPos.Unsigned.to_of.
  now rewrite DecimalPos.Unsigned.of_to.
Qed.

Lemma to_int_norm (z : Z) :
  match Z.to_int z with Pos d | Neg d => unorm d = d end.
Proof. destruct z; simpl; [reflexivity | apply pos_to_uint_norm ..]. Qed.

(** [:03d] gives different strings for different integers. *)
Lemma format_03d_inj (z z' : Z) : format_03d z = format_03d z' -> z = z'.
Proof.
  unfold format_03d. intro H.
  pose proof (to_int_norm z) as Nz. pose proof (to_int_norm z') as Nz'.
  apply DecimalZ.to_int_inj.
  destruct (Z.to_int z) as [d|d], (Z.to_int z') as [d'|d'].
  - f_equal. eapply zfill_digits_inj; eauto.
  - exfalso. eapply zfill_digits_no_minus; eauto.
  - exfalso. symmetry in H. eapply zfill_digits_no_minus; eauto.
  - injection H as H. f_equal. eapply zfill_digits_inj; eauto.
Qed.

(** Every identity a run hands out is the rendering of a counter value
    not below the counter the run started from. *)
Lemma identities_from_counter (bs : list lock_block) (s : ChatServer) (cid : pystr) :
  In cid (identities_of (fst (run_blocks bs s))) ->
  exists k, next_client_id s <= k /\ cid = u "C" ++ format_03d k.
Proof.
  revert s; induction bs as [|b bs IH]; intros s; simpl; [intros []|].
  destruct (run_block b s) as [r s1] eqn:Eb.
  destruct (run_blocks bs s1) as [rs s2] eqn:Er. simpl.
  assert (Hrest : In cid (identities_of rs) ->
                  exists k, next_client_id s1 <= k /\ cid = u "C" ++ format_03d k).
  { intro Hin. apply IH. now rewrite Er. }
  destruct b; simpl in Eb; injection Eb as <- <-; simpl.
  - intros [<-|Hin].
    + exists (next_client_id s). split; [lia | reflexivity].
    + destruct (Hrest Hin) as [k [Hk ->]]. simpl in Hk.
      exists k. split; [lia | reflexivity].
  - exact Hrest.
  - intro Hin. destruct (Hrest Hin) as [k [Hk ->]].
    unfold locked_pop in Hk. destruct (dict_pop (clients s) client_id).
    simpl in Hk. now exists k.
  - exact Hrest.
  - exact Hrest.
Qed.

(** C3. Whatever blocks run under the lock, in whatever order, and from
    whatever state of the server, the identities returned by the
    registrations are pairwise distinct; removals and [shutdown] in
    between do not make an identity available again. *)
Theorem register_identities_distinct (bs : list lock_block) (s : ChatServer) :
  NoDup (identities_of (fst (run_blocks bs s))).
Proof.
  revert s; induction bs as [|b bs IH]; intros s; simpl; [constructor|].
  destruct (run_block b s) as [r s1] eqn:Eb.
  destruct (run_blocks bs s1) as [rs s2] eqn:Er. simpl.
  assert (Hrs : NoDup (identities_of rs)).
  { specialize (IH s1). now rewrite Er in IH. }
  destruct b; simpl in Eb; injection Eb as <- <-; simpl; try exact Hrs.
  constructor; [|exact Hrs].
  intro Hin.
  destruct (identities_from_counter bs
              (snd (locked_register conn a s))
              (u "C" ++ format_03d (next_client_id s))) as [k [Hk E]].
  { simpl. now rewrite Er. }
  simpl in Hk. apply app_inv_head in E. apply format_03d_inj in E. lia.
Qed.

(* =============================================================== *)
(** ** Message ids *)

Lemma message_ids_from_counter (bs : list lock_block) (s : ChatServer) (mid : Z) :
  In mid (message_ids_of (fst (run_blocks bs s))) -> message_counter s <= mid.
Proof.
  revert s; induction bs as [|b bs IH]; intros s; simpl; [intros []|].
  destruct (run_block b s) as [r s1] eqn:Eb.
  destruct (run_blocks bs s1) as [rs s2] eqn:Er. simpl.
  assert (Hrest : In mid (message_ids_of rs) -> message_counter s1 <= mid).
  { intro Hin. apply IH. now rewrite Er. }
  destruct b; simpl in Eb; injection Eb as <- <-; simpl.
  - exact Hrest.
  - intros [<-|Hin]; [lia|]. apply Hrest in Hin. simpl in Hin. lia.
  - intro Hin. apply Hrest in Hin.
    unfold locked_pop in Hin. destruct (dict_pop (clients s) client_id).
    exact Hin.
  - exact Hrest.
  - exact Hrest.
Qed.

(** The ids allocated in a run are strictly increasing in the order of
    allocation, from whatever state the run starts. *)
Lemma message_ids_increasing (bs : list lock_block) (s : ChatServer) :
  StronglySorted Z.lt (message_ids_of (fst (run_blocks bs s))).
Proof.
  revert s; induction bs as [|b bs IH]; intros s; simpl; [constructor|].
  destruct (run_block b s) as [r s1] eqn:Eb.
  destruct (run_blocks bs s1) as [rs s2] eqn:Er. simpl.
  assert (Hrs : StronglySorted Z.lt (message_ids_of rs)).
  { specialize (IH s1). now rewrite Er in IH. }
  destruct b; simpl in Eb; injection Eb as <- <-; simpl; try exact Hrs.
  constructor; [exact Hrs|].
  apply Forall_forall. intros mid Hin.
  pose proof (message_ids_from_counter bs (snd (locked_next_message_id s)) mid) as H.
  simpl in H. rewrite Er in H. specialize (H Hin). lia.
Qed.


(* =============================================================== *)
(** ** Routing a chat packet *)

(** When the registry lookup of the packet's [to] finds nothing (the
    value can be a key of a dict and no client is registered under it),
    [route_chat_message] returns normally, leaves the registry, both
    counters and the sockets as they were, and writes at most one packet:
    the error naming the target, to the sender's socket (when the sender is
    registered and its socket takes the write). Nothing is forwarded and
    there is no receipt. *)
Theorem route_unknown_target (sender_id : pystr) (d : list (pystr * pyval)) (w : world) :
  let target_id := match dict_lookup d (u "to") with Some v => v | None => PNone end in
  clients_get (server w) target_id = Ok None ->
  route_chat_message sender_id (PDict d) w =
    (Ok tt,
     {| server := server w; socks := socks w;
        wire := wire w ++
          match dict_lookup (clients (server w)) sender_id with
          | Some info =>
              match sock_state_of (socket info) w with
              | SockOpen =>
                  [(socket info,
                    PDict [(u "type", PStr (u "error"));
                           (u "text", PStr (u "Target client " ++ py_format target_id
                                            ++ u " not found."));
                           (u "timestamp", PFloat (clock (S (ticks w))))])]
              | _ => []
              end
          | None => []
          end;
        ticks := S (S (ticks w)) |}).
Proof.
  intros target_id Hget.
  unfold route_chat_message. run_monad.
  fold target_id. rewrite Hget.
  unfold send_error, send_to_client_id. run_monad.
  destruct (dict_lookup (clients (server w)) sender_id) as [info|].
  - unfold send_json, sock_state_of. cbn [socks].
    destruct (nth (socket info) (socks w) SockClosed); cbn;
      rewrite ?List.app_nil_r; reflexivity.
  - now rewrite List.app_nil_r.
Qed.

(** When the target is registered and the write to its socket fails, the
    exception of the write leaves [route_chat_message]: nothing at all was
    written, to the sender or to anyone, and the message id is used up. *)
Lemma route_forward_failure (sender_id : pystr) (d : list (pystr * pyval))
  (w : world) (target_info : client_info) :
  let target_id := match dict_lookup d (u "to") with Some v => v | None => PNone end in
  clients_get (server w) target_id = Ok (Some target_info) ->
  sock_state_of (socket target_info) w <> SockOpen ->
  route_chat_message sender_id (PDict d) w =
    (Raise (send_failure (sock_state_of (socket target_info) w)),
     {| server := snd (locked_next_message_id (server w)); socks := socks w;
        wire := wire w; ticks := S (ticks w) |}).
Proof.
  intros target_id Hget Hclosed.
  unfold route_chat_message. run_monad.
  fold target_id. rewrite Hget.
  unfold send_json, sock_state_of in *. cbn [socks locked_next_message_id snd].
  destruct (nth (socket target_info) (socks w) SockClosed);
    try reflexivity; congruence.
Qed.

(** The successful path: the packet forwarded to the target and the
    receipt written to the sender carry the same id, the value of the
    counter before the call, whatever the client's packet said; the counter
    moves on by one. *)
Lemma route_success (sender_id : pystr) (d : list (pystr * pyval))
  (w : world) (target_info sender_info : client_info) :
  let target_id := match dict_lookup d (u "to") with Some v => v | None => PNone end in
  let text := match dict_lookup d (u "text") with Some v => v | None => PStr [] end in
  let reply_to := match dict_lookup d (u "reply_to") with Some v => v | None => PNone end in
  let message_id := message_counter (server w) in
  clients_get (server w) target_id = Ok (Some target_info) ->
  sock_state_of (socket target_info) w = SockOpen ->
  dict_lookup (clients (server w)) sender_id = Some sender_info ->
  sock_state_of (socket sender_info) w = SockOpen ->
  route_chat_message sender_id (PDict d) w =
    (Ok tt,
     {| server := {| clients := clients (server w);
                     next_client_id := next_client_id (server w);
                     message_counter := message_id + 1 |};
        socks := socks w;
        wire := wire w ++
          [(socket target_info,
            chat_packet message_id sender_id target_id text (clock (ticks w)) reply_to);
           (socket sender_info,
            receipt_packet message_id target_id (clock (S (ticks w))))];
        ticks := S (S (ticks w)) |}).
Proof.
  intros target_id text reply_to message_id Hget Ht Hs Hs'.
  unfold route_chat_message. run_monad.
  fold target_id text reply_to. rewrite Hget, Hs.
  unfold send_json, sock_state_of in *.
  cbn [socks locked_next_message_id snd fst wire server ticks].
  rewrite Ht. cbn [socks wire server ticks]. rewrite Hs'.
  cbn [socks wire server ticks]. rewrite <- app_assoc. reflexivity.
Qed.

(** C2. For a chat packet that is routed (target and sender registered,
    both sockets open), the chat packet forwarded and the receipt hold
    under [message_id] one and the same number, the server's counter as it
    was before the call, whatever the client's packet holds; the counter
    moves by one; and in any run of the server the ids allocated are
    strictly increasing in the order of allocation. *)
Theorem message_id_assignment (sender_id : pystr) (d : list (pystr * pyval))
  (w : world) (target_info sender_info : client_info)
  (bs : list lock_block) (s : ChatServer) :
  let target_id := match dict_lookup d (u "to") with Some v => v | None => PNone end in
  let text := match dict_lookup d (u "text") with Some v => v | None => PStr [] end in
  let reply_to := match dict_lookup d (u "reply_to") with Some v => v | None => PNone end in
  let message_id := message_counter (server w) in
  clients_get (server w) target_id = Ok (Some target_info) ->
  sock_state_of (socket target_info) w = SockOpen ->
  dict_lookup (clients (server w)) sender_id = Some sender_info ->
  sock_state_of (socket sender_info) w = SockOpen ->
  (let (r, w') := route_chat_message sender_id (PDict d) w in
   r = Ok tt
   /\ wire w' = wire w ++
        [(socket target_info,
          PDict [(u "type", PStr (u "chat"));
                 (u "message_id", PInt message_id);
                 (u "from", PStr sender_id);
                 (u "to", target_id);
                 (u "text", text);
                 (u "timestamp", PFloat (clock (ticks w)));
                 (u "reply_to", reply_to)]);
         (socket sender_info,
          PDict [(u "type", PStr (u "receipt"));
                 (u "message_id", PInt message_id);
                 (u "to", target_id);
                 (u "status", PStr (u "delivered"));
                 (u "timestamp", PFloat (clock (S (ticks w))))])]
   /\ message_counter (server w') = message_id + 1)
  /\ StronglySorted Z.lt (message_ids_of (fst (run_blocks bs s)))
  /\ Forall (fun mid => message_counter s <= mid)
            (message_ids_of (fst (run_blocks bs s))).
Proof.
  intros target_id text reply_to message_id Hget Ht Hs Hs'.
  split; [|split].
  - rewrite (route_success sender_id d w target_info sender_info Hget Ht Hs Hs'). cbn. auto.
  - apply message_ids_increasing.
  - apply Forall_forall. intros mid. apply message_ids_from_counter.
Qed.


(* =============================================================== *)
(** ** What is written is never taken back *)

Lemma extends_ret {A : Type} (a : A) : extends_wire (ret a).
Proof. intro w. exists []. now rewrite List.app_nil_r. Qed.

Lemma extends_raise {A : Type} (e : pyexc) : extends_wire (@raise world A e).
Proof. intro w. exists []. now rewrite List.app_nil_r. Qed.

Lemma extends_gets {A : Type} (f : world -> A) : extends_wire (gets f).
Proof. intro w. exists []. now rewrite List.app_nil_r. Qed.

Lemma extends_bind {A B : Type} (m : M world A) (k : A -> M world B) :
  extends_wire m -> (forall a, extends_wire (k a)) -> extends_wire (bind m k).
Proof.
  intros Hm Hk w. unfold bind.
  destruct (Hm w) as [l1 H1].
  destruct (m w) as [[a|e] w1]; cbn [snd] in *.
  - destruct (Hk a w1) as [l2 H2]. exists (l1 ++ l2).
    now rewrite H2, H1, app_assoc.
  - now exists l1.
Qed.

Lemma extends_try_except {A : Type} (catches : pyexc -> bool) (m h : M world A) :
  extends_wire m -> extends_wire h -> extends_wire (try_except catches m h).
Proof.
  intros Hm Hh w. unfold try_except.
  destruct (Hm w) as [l1 H1].
  destruct (m w) as [[a|e] w1]; cbn [snd] in *.
  - now exists l1.
  - destruct (catches e).
    + destruct (Hh w1) as [l2 H2]. exists (l1 ++ l2).
      now rewrite H2, H1, app_assoc.
    + now exists l1.
Qed.

Lemma extends_try_finally {A : Type} (m : M world A) (final : M world unit) :
  extends_wire m -> extends_wire final -> extends_wire (try_finally m final).
Proof.
  intros Hm Hf w. unfold try_finally.
  destruct (Hm w) as [l1 H1].
  destruct (m w) as [r w1]; cbn [snd] in *.
  destruct (Hf w1) as [l2 H2].
  destruct (final w1) as [[[]|e] w2]; cbn [snd] in *;
    exists (l1 ++ l2); now rewrite H2, H1, app_assoc.
Qed.

Lemma extends_for_each {A : Type} (xs : list A) (body : A -> M world unit) :
  (forall x, extends_wire (body x)) -> extends_wire (for_each xs body).
Proof.
  intro Hb. induction xs as [|x xs IH]; simpl.
  - apply extends_ret.
  - apply extends_bind; [apply Hb | intros _; exact IH].
Qed.

Lemma extends_time_time : extends_wire time_time.
Proof. intro w. exists []. cbn. now rewrite List.app_nil_r. Qed.

Lemma extends_with_lock {A : Type} (block : ChatServer -> A * ChatServer) :
  extends_wire (with_lock block).
Proof.
  intro w. exists []. unfold with_lock.
  destruct (block (server w)). cbn. now rewrite List.app_nil_r.
Qed.

Lemma extends_sock_close (sock : nat) : extends_wire (sock_close sock).
Proof. intro w. exists []. cbn. now rewrite List.app_nil_r. Qed.

Lemma extends_send_json (sock : nat) (obj : pyval) : extends_wire (send_json sock obj).
Proof.
  intro w. unfold send_json.
  destruct (sock_state_of sock w); cbn; eexists;
    solve [reflexivity | symmetry; apply List.app_nil_r].
Qed.

Lemma extends_lookup_client (key : pyval) : extends_wire (lookup_client key).
Proof. intro w. exists []. cbn. now rewrite List.app_nil_r. Qed.

Lemma extends_py_get (msg : pyval) (key : pystr) (default : pyval) :
  extends_wire (@py_get world msg key default).
Proof. unfold py_get. destruct msg; try apply extends_raise. apply extends_ret. Qed.

(** Lemmas on the functions of the server are added to this database as
    they are proved. *)
Create HintDb wire.

Ltac extends_step :=
  match goal with
  | |- extends_wire (bind _ _) => apply extends_bind; [|intro]
  | |- extends_wire (ret _) => apply extends_ret
  | |- extends_wire (raise _) => apply extends_raise
  | |- extends_wire (gets _) => apply extends_gets
  | |- extends_wire time_time => apply extends_time_time
  | |- extends_wire (with_lock _) => apply extends_with_lock
  | |- extends_wire (sock_close _) => apply extends_sock_close
  | |- extends_wire (send_json _ _) => apply extends_send_json
  | |- extends_wire (lookup_client _) => apply extends_lookup_client
  | |- extends_wire (py_get _ _ _) => apply extends_py_get
  | |- extends_wire (for_each _ _) => apply extends_for_each; intro
  | |- extends_wire (try_except _ _ _) => apply extends_try_except
  | |- extends_wire (try_finally _ _) => apply extends_try_finally
  | |- extends_wire (match ?x with _ => _ end) => destruct x
  | |- extends_wire _ => solve [auto with wire nocore]
  end.

Lemma extends_broadcast_info (text : pystr) (exclude_id : option pystr) :
  extends_wire (broadcast_info text exclude_id).
Proof. unfold broadcast_info. repeat extends_step. Qed.

Lemma extends_send_to_client_id (client_id : pystr) (packet : pyval) :
  extends_wire (send_to_client_id client_id packet).
Proof. unfold send_to_client_id. repeat extends_step. Qed.

#[local] Hint Resolve extends_broadcast_info extends_send_to_client_id : wire.

Lemma extends_remove_client (client_id : pystr) : extends_wire (remove_client client_id).
Proof. unfold remove_client. repeat extends_step. Qed.

Lemma extends_route_chat_message (sender_id : pystr) (msg : pyval) :
  extends_wire (route_chat_message sender_id msg).
Proof.
  unfold route_chat_message, send_error. repeat extends_step.
Qed.

#[local] Hint Resolve extends_remove_client extends_route_chat_message : wire.

Lemma extends_handle_client_message (client_id raw_line : pystr) :
  extends_wire (handle_client_message client_id raw_line).
Proof.
  unfold handle_client_message, send_client_list, send_info, send_error,
    _client_list_snapshot.
  repeat extends_step.
Qed.

Lemma extends_dispatch_lines (handle : pystr -> M world unit) :
  (forall line, extends_wire (handle line)) ->
  forall fuel buffer, extends_wire (dispatch_lines handle fuel buffer).
Proof.
  intros Hh fuel. induction fuel as [|fuel IH]; intro buffer; simpl.
  - apply extends_ret.
  - destruct (split_delim buffer) as [[line rest]|]; [|apply extends_ret].
    apply extends_bind; [|intros _; apply IH].
    destruct (strip_nonempty line); [apply Hh | apply extends_ret].
Qed.

Lemma extends_recv_loop (closed running : world -> bool) (on_eof : M world unit)
  (handle : pystr -> M world unit) :
  extends_wire on_eof -> (forall line, extends_wire (handle line)) ->
  forall script buffer,
    extends_wire (recv_loop closed running on_eof handle script buffer).
Proof.
  intros He Hh script.
  induction script as [|ev script IH]; intros buffer w; simpl.
  - destruct (running w); cbn; [|exists []; now rewrite List.app_nil_r].
    destruct (closed w); cbn; [exists []; now rewrite List.app_nil_r|].
    apply He.
  - destruct (running w); cbn; [|exists []; now rewrite List.app_nil_r].
    destruct (closed w); cbn; [exists []; now rewrite List.app_nil_r|].
    destruct ev as [data| |]; try (exists []; now rewrite List.app_nil_r).
    destruct data as [|b data]; [apply He|].
    destruct (utf8_decode (b :: data)) as [text|];
      [|exists []; now rewrite List.app_nil_r].
    apply (extends_bind
             (dispatch_lines handle (length (buffer ++ text)) (buffer ++ text))
             (recv_loop closed running on_eof handle script)).
    + now apply extends_dispatch_lines.
    + intro. apply IH.
Qed.


(* =============================================================== *)
(** ** The welcome packet *)

Lemma first_send_then (conn : nat) (p : pyval) (catches : pyexc -> bool)
  (k handler final : M world unit) (w : world) :
  sock_state_of conn w = SockOpen ->
  extends_wire k -> extends_wire handler -> extends_wire final ->
  exists rest,
    wire (snd (try_finally
                 (try_except catches (bind (send_json conn p) (fun _ => k)) handler)
                 final w))
    = wire w ++ (conn, p) :: rest.
Proof.
  intros Hopen Hk Hh Hf.
  destruct (extends_try_finally _ _ (extends_try_except catches _ _ Hk Hh) Hf
              {| server := server w; socks := socks w;
                 wire := wire w ++ [(conn, p)]; ticks := ticks w |}) as [l Hl].
  exists l.
  unfold try_finally, try_except, bind, send_json in *. rewrite Hopen.
  rewrite Hl. cbn [wire]. now rewrite <- app_assoc.
Qed.

Lemma locked_snapshot_self (conn : nat) (a : address) (s : ChatServer) :
  In (PDict [(u "client_id", PStr (fst (locked_register conn a s)));
             (u "address", PStr (str_address a))])
     (locked_snapshot (snd (locked_register conn a s))).
Proof.
  unfold locked_snapshot, locked_register. cbn [fst snd clients].
  set (cid := u "C" ++ format_03d (next_client_id s)).
  apply (in_map (fun '(cid, info) =>
                   PDict [(u "client_id", PStr cid);
                          (u "address", PStr (str_address (addr info)))])
           _ (cid, {| socket := conn; addr := a; name := cid |})).
  apply dict_set_In_new.
Qed.

Lemma locked_snapshot_others (conn : nat) (a : address) (s : ChatServer)
  (cid : pystr) (info : client_info) :
  In (cid, info) (clients s) -> cid <> fst (locked_register conn a s) ->
  In (PDict [(u "client_id", PStr cid);
             (u "address", PStr (str_address (addr info)))])
     (locked_snapshot (snd (locked_register conn a s))).
Proof.
  intros Hin Hne.
  unfold locked_snapshot, locked_register in *. cbn [fst snd clients] in *.
  apply (in_map (fun '(cid, info) =>
                   PDict [(u "client_id", PStr cid);
                          (u "address", PStr (str_address (addr info)))])
           _ (cid, info)).
  now apply dict_set_In_old.
Qed.

(** C10. The first thing [handle_new_client] writes, when the accepted
    socket takes the write, is the welcome packet, which holds under
    [clients] the snapshot of the registry taken after the registration:
    that list has the new connection's own identity with its address,
    together with every peer registered before. *)
Theorem welcome_snapshot_contains_self (conn : nat) (a : address)
  (script : list recv_event) (w : world) :
  sock_state_of conn w = SockOpen ->
  let client_id := fst (locked_register conn a (server w)) in
  let snapshot := locked_snapshot (snd (locked_register conn a (server w))) in
  (exists rest,
     wire (snd (handle_new_client conn a script w))
     = wire w ++
       (conn, PDict [(u "type", PStr (u "welcome"));
                     (u "client_id", PStr client_id);
                     (u "clients", PList snapshot)]) :: rest)
  /\ In (PDict [(u "client_id", PStr client_id);
                (u "address", PStr (str_address a))]) snapshot
  /\ (forall cid info,
        In (cid, info) (clients (server w)) -> cid <> client_id ->
        In (PDict [(u "client_id", PStr cid);
                   (u "address", PStr (str_address (addr info)))]) snapshot).
Proof.
  intros Hopen client_id snapshot. split; [|split].
  - pose (w1 := set_server (snd (locked_register conn a (server w))) w).
    assert (E : handle_new_client conn a script w =
                try_finally
                  (try_except is_connection_lost
                     (bind (send_json conn (welcome_packet client_id snapshot))
                        (fun _ =>
                           bind (broadcast_info (client_id ++ u " joined the chat.")
                                   (Some client_id))
                             (fun _ =>
                                recv_loop (conn_closed conn) (fun _ => true) (ret tt)
                                  (handle_client_message client_id) script [])))
                     (ret tt))
                  (remove_client client_id) w1) by reflexivity.
    rewrite E.
    destruct (first_send_then conn (welcome_packet client_id snapshot)
                is_connection_lost
                (bind (broadcast_info (client_id ++ u " joined the chat.")
                         (Some client_id))
                   (fun _ =>
                      recv_loop (conn_closed conn) (fun _ => true) (ret tt)
                        (handle_client_message client_id) script []))
                (ret tt) (remove_client client_id) w1) as [rest Hrest].
    + exact Hopen.
    + apply extends_bind; [apply extends_broadcast_info|].
      intros _. apply extends_recv_loop.
      * apply extends_ret.
      * intro. apply extends_handle_client_message.
    + apply extends_ret.
    + apply extends_remove_client.
    + exists rest. exact Hrest.
  - apply locked_snapshot_self.
  - intros cid info. apply locked_snapshot_others.
Qed.


(* =============================================================== *)
(** ** The client's history *)

(** The loop with [break] touches the first entry that satisfies the
    condition and no other. *)
Lemma update_first_spec (cond : entry -> bool) (upd : entry -> entry) (h : list entry) :
  (Forall (fun m => cond m = false) h /\ update_first cond upd h = h)
  \/ (exists pre m post,
        h = pre ++ m :: post
        /\ Forall (fun m' => cond m' = false) pre
        /\ cond m = true
        /\ update_first cond upd h = pre ++ upd m :: post).
Proof.
  induction h as [|m h IH]; simpl.
  - left. split; [constructor | reflexivity].
  - destruct (cond m) eqn:E.
    + right. exists [], m, h. simpl. repeat split; auto.
    + destruct IH as [[Hall Heq]|[pre [m' [post [Hh [Hpre [Hm Heq]]]]]]].
      * left. split; [now constructor | now rewrite Heq].
      * right. exists (m :: pre), m', post. simpl.
        repeat split; auto.
        -- now rewrite Hh.
        -- now rewrite Heq.
Qed.



Lemma receipt_cond_true (target : pyval) (m : entry) :
  receipt_cond target m = true <->
  e_direction m = DirOut /\ e_id m = PNone
  /\ py_eqb (e_peer m) target = true /\ e_deleted m = false.
Proof.
  unfold receipt_cond. rewrite !andb_true_iff, negb_true_iff. split.
  - intros [[[Hd Hi] Hp] Hx].
    destruct (e_direction m), (e_id m); try discriminate. auto.
  - intros (Hd & Hi & Hp & Hx). rewrite Hd, Hi. auto.
Qed.

(** C7. Reconciling a receipt for peer [target] with id [mid] sets the id
    of the first entry, in append order, that is outbound, has no id yet,
    has that peer and is not deleted; the entries before it and after it
    stay as they are; when there is no such entry the history is unchanged.
    [handle_receipt] does exactly this to the history (once the time stamp
    of the receipt could be formatted). *)
Theorem reconcile_receipt_first_match (target mid : pyval) (h : list entry) :
  (forall m, receipt_cond target m = true <->
             e_direction m = DirOut /\ e_id m = PNone
             /\ py_eqb (e_peer m) target = true /\ e_deleted m = false)
  /\ ((Forall (fun m => receipt_cond target m = false) h
       /\ reconcile_receipt target mid h = h)
      \/ (exists pre m post,
            h = pre ++ m :: post
            /\ Forall (fun m' => receipt_cond target m' = false) pre
            /\ receipt_cond target m = true
            /\ reconcile_receipt target mid h
               = pre ++
                 {| e_id := mid; e_direction := e_direction m; e_peer := e_peer m;
                    e_text := e_text m; e_timestamp := e_timestamp m;
                    e_reply_to := e_reply_to m; e_temp_until := e_temp_until m;
                    e_deleted := e_deleted m |} :: post))
  /\ (forall (d : list (pystr * pyval)) (c : ChatClient),
        history c = h ->
        match dict_lookup d (u "to") with Some v => v | None => PNone end = target ->
        match dict_lookup d (u "message_id") with Some v => v | None => PNone end = mid ->
        let ts := match dict_lookup d (u "timestamp") with
                  | Some v => v | None => PNone end in
        (py_truthy ts = false \/ exists ts_str, strftime_hms ts = Ok ts_str) ->
        exists c', handle_receipt (PDict d) c = (Ok tt, c')
                   /\ history c' = reconcile_receipt target mid h
                   /\ c_sent c' = c_sent c).
Proof.
  split; [|split].
  - apply receipt_cond_true.
  - exact (update_first_spec (receipt_cond target) (set_id mid) h).
  - intros d c Hh Ht Hm ts Hts. unfold handle_receipt.
    cbv beta iota zeta delta [bind ret py_get modify ts_str_of print].
    rewrite Ht, Hm. fold ts.
    destruct Hts as [Hts|[ts_str Hts]].
    + rewrite Hts. eexists. split; [reflexivity|]. cbn. now rewrite Hh.
    + destruct (py_truthy ts); rewrite ?Hts;
        (eexists; split; [reflexivity|]; cbn; now rewrite Hh).
Qed.


Lemma delete_entry_at_middle (pre post : list entry) (m : entry) :
  delete_entry_at (length pre) (pre ++ m :: post) = pre ++ set_deleted m :: post.
Proof.
  unfold delete_entry_at.
  rewrite nth_error_app2, Nat.sub_diag by lia. simpl.
  induction pre as [|x pre IH]; simpl; [reflexivity | now rewrite IH].
Qed.


(** A deadline that [time.sleep] does not take: the timer thread ends with
    [OverflowError] as soon as it starts, and the history is as it was;
    the entry is never marked. A delay of [inf], which [/temp] accepts, is
    such a one. *)
Theorem temp_cleanup_sleep_overflow (temp_until : float) (text : pystr)
  (c : ChatClient) :
  float_ltb float_zero (float_sub temp_until (clock (c_ticks c))) = true ->
  sleep_overflows (float_sub temp_until (clock (c_ticks c))) = true ->
  _temp_cleanup_worker temp_until text c
  = (Raise OverflowError,
     {| c_sock := c_sock c; c_sent := c_sent c; history := history c;
        timers := timers c; stdout := stdout c; c_running := c_running c;
        c_ticks := S (c_ticks c); c_slept := c_slept c |}).
Proof.
  intros Hlt Hover. unfold _temp_cleanup_worker.
  cbv beta iota zeta delta [bind ret modify c_time print]. cbn [c_ticks].
  unfold time_sleep. now rewrite Hlt, Hover.
Qed.

Lemma find_first {A : Type} (f : A -> bool) (pre post : list A) (x : A) :
  Forall (fun y => f y = false) pre -> f x = true ->
  List.find f (pre ++ x :: post) = Some x.
Proof.
  induction 1 as [|y pre Hy _ IH]; simpl; intro Hx.
  - now rewrite Hx.
  - now rewrite Hy, IH.
Qed.

Lemma find_none {A : Type} (f : A -> bool) (l : list A) :
  Forall (fun y => f y = false) l -> List.find f l = None.
Proof.
  induction 1 as [|y l Hy _ IH]; simpl; [reflexivity|]. now rewrite Hy.
Qed.

(** C9. [send_reply] looks the message id up among all entries of the
    history, deleted or not. When some entry has the id, the reply goes to
    the peer of the first such entry: a chat packet for that peer, with the
    id as its reply target, is written and recorded, whether the entry is
    marked as deleted or not. When no entry has the id, a message is
    printed for the caller and nothing else happens: nothing is written to
    the socket and the history is as before. *)
Theorem send_reply_resolution (msg_id : Z) (text : pystr) (c : ChatClient) :
  (forall pre m post,
     history c = pre ++ m :: post ->
     Forall (fun m' => py_eqb (e_id m') (PInt msg_id) = false) pre ->
     py_eqb (e_id m) (PInt msg_id) = true ->
     c_sock c = SockOpen ->
     send_reply msg_id text c
     = (Ok tt,
        {| c_sock := SockOpen;
           c_sent := c_sent c ++ [PDict [(u "type", PStr (u "chat"));
                                         (u "to", e_peer m);
                                         (u "text", PStr text);
                                         (u "reply_to", PInt msg_id)]];
           history := history c ++
             [{| e_id := PNone; e_direction := DirOut; e_peer := e_peer m;
                 e_text := PStr text; e_timestamp := PFloat (clock (c_ticks c));
                 e_reply_to := PInt msg_id; e_temp_until := PNone;
                 e_deleted := false |}];
           timers := timers c; stdout := stdout c; c_running := c_running c;
           c_ticks := S (c_ticks c); c_slept := c_slept c |}))
  /\ (Forall (fun m => py_eqb (e_id m) (PInt msg_id) = false) (history c) ->
      send_reply msg_id text c
      = (Ok tt,
         {| c_sock := c_sock c; c_sent := c_sent c; history := history c;
            timers := timers c;
            stdout := stdout c ++ [u "[CLIENT] No message with ID "
                                   ++ py_int_str msg_id ++ u " in history."];
            c_running := c_running c; c_ticks := c_ticks c; c_slept := c_slept c |})).
Proof.
  split.
  - intros pre m post Hh Hpre Hm Hopen.
    unfold send_reply. cbv beta iota delta [bind gets].
    unfold find_by_id. rewrite Hh, (find_first _ pre post m Hpre Hm), <- Hh.
    unfold send_chat, _send_json.
    cbv beta iota zeta delta [bind ret modify c_time]. now rewrite Hopen.
  - intro Hnone. unfold send_reply. cbv beta iota delta [bind gets].
    unfold find_by_id. now rewrite (find_none _ _ Hnone).
Qed.

(* =============================================================== *)
(** ** Leaving *)

Lemma send_failure_is_OSError (st : sock_state) : is_OSError (send_failure st) = true.
Proof. now destruct st. Qed.

Lemma for_each_broadcast (packet : pyval) (exclude_id : option pystr)
  (registered : list (pystr * client_info)) (w : world) :
  for_each registered
    (fun '(cid, info) =>
       if match exclude_id with Some x => str_eqb cid x | None => false end
       then ret tt
       else try_except is_OSError (send_json (socket info) packet) (ret tt)) w
  = (Ok tt,
     {| server := server w; socks := socks w;
        wire := wire w ++ notices packet exclude_id (socks w) registered;
        ticks := ticks w |}).
Proof.
  revert w. induction registered as [|[cid info] registered IH]; intro w.
  - cbn. rewrite List.app_nil_r. now destruct w.
  - cbn [for_each]. unfold bind at 1. unfold notices. cbn [List.filter].
    destruct (match exclude_id with Some x => str_eqb cid x | None => false end).
    + cbn [negb andb]. unfold ret at 1. rewrite IH. reflexivity.
    + cbn [negb andb]. unfold try_except, send_json, sock_state_of.
      destruct (nth (socket info) (socks w) SockClosed) eqn:Est;
        cbn [is_open send_failure is_OSError ret]; rewrite IH;
        cbn [server socks wire ticks List.map]; unfold notices;
        rewrite <- ?app_assoc; reflexivity.
Qed.

(** [broadcast_info] always returns normally. *)
Lemma broadcast_info_spec (text : pystr) (exclude_id : option pystr) (w : world) :
  broadcast_info text exclude_id w
  = (Ok tt,
     {| server := server w; socks := socks w;
        wire := wire w ++ notices (info_packet text (clock (ticks w))) exclude_id
                            (socks w) (clients (server w));
        ticks := S (ticks w) |}).
Proof.
  unfold broadcast_info. cbv beta iota zeta delta [bind time_time gets].
  cbn [server socks wire ticks]. now rewrite for_each_broadcast.
Qed.

Lemma dict_pop_absent {V : Type} (d : list (pystr * V)) (k : pystr) :
  dict_lookup d k = None -> dict_pop d k = (None, d).
Proof.
  induction d as [|[k' v] d IH]; simpl; [reflexivity|].
  destruct (str_eqb k' k); [discriminate|]. intro H. now rewrite (IH H).
Qed.

Lemma dict_pop_present {V : Type} (d : list (pystr * V)) (k : pystr) (v : V) :
  dict_lookup d k = Some v -> fst (dict_pop d k) = Some v.
Proof. intro H. now rewrite dict_pop_lookup_same. Qed.

Lemma dict_lookup_not_key {V : Type} (d : list (pystr * V)) (k : pystr) :
  ~ In k (List.map fst d) -> dict_lookup d k = None.
Proof.
  induction d as [|[k' v] d IH]; simpl; [reflexivity|]. intro H.
  destruct (str_eqb k' k) eqn:E.
  - apply str_eqb_eq in E. exfalso. apply H. now left.
  - apply IH. intro Hin. apply H. now right.
Qed.

Lemma dict_pop_keys {V : Type} (d : list (pystr * V)) (k k' : pystr) :
  In k' (List.map fst (snd (dict_pop d k))) -> In k' (List.map fst d).
Proof.
  induction d as [|[k0 v] d IH]; simpl; [intros []|].
  destruct (str_eqb k0 k).
  - simpl. now right.
  - destruct (dict_pop d k) as [r d']. simpl in *.
    intros [H|H]; [now left | right; now apply IH].
Qed.

Lemma dict_pop_NoDup {V : Type} (d : list (pystr * V)) (k : pystr) :
  NoDup (List.map fst d) -> NoDup (List.map fst (snd (dict_pop d k))).
Proof.
  induction d as [|[k0 v] d IH]; simpl; [constructor|].
  intro H. inversion H as [|? ? Hnotin Hnd]; subst.
  destruct (str_eqb k0 k); [exact Hnd|].
  pose proof (dict_pop_keys d k k0) as Hk.
  destruct (dict_pop d k) as [r d']. simpl in *.
  constructor; [|now apply IH].
  intro Hin. apply Hnotin. now apply Hk.
Qed.

(** With distinct keys, a popped key is gone. *)
Lemma dict_pop_gone {V : Type} (d : list (pystr * V)) (k : pystr) :
  NoDup (List.map fst d) -> dict_lookup (snd (dict_pop d k)) k = None.
Proof.
  induction d as [|[k0 v] d IH]; simpl; [reflexivity|].
  intro H. inversion H as [|? ? Hnotin Hnd]; subst.
  destruct (str_eqb k0 k) eqn:E.
  - apply str_eqb_eq in E. subst. simpl. now apply dict_lookup_not_key.
  - specialize (IH Hnd). destruct (dict_pop d k) as [r d']. simpl in *.
    now rewrite E.
Qed.

Lemma dict_set_keys {V : Type} (d : list (pystr * V)) (k k' : pystr) (v : V) :
  In k' (List.map fst (dict_set d k v)) -> k' = k \/ In k' (List.map fst d).
Proof.
  induction d as [|[k0 v0] d IH]; simpl.
  - intros [H|[]]. now left.
  - destruct (str_eqb k0 k); simpl.
    + intros [H|H]; right; [now left | now right].
    + intros [H|H]; [right; now left|].
      destruct (IH H) as [H'|H']; [now left | right; now right].
Qed.

Lemma dict_set_NoDup {V : Type} (d : list (pystr * V)) (k : pystr) (v : V) :
  NoDup (List.map fst d) -> NoDup (List.map fst (dict_set d k v)).
Proof.
  induction d as [|[k0 v0] d IH]; simpl.
  - intros _. repeat constructor. intros [].
  - intro H. inversion H as [|? ? Hnotin Hnd]; subst.
    destruct (str_eqb k0 k) eqn:E; simpl.
    + now constructor.
    + constructor; [|now apply IH].
      intro Hin. apply dict_set_keys in Hin as [Hin|Hin]; [|contradiction].
      subst. now rewrite str_eqb_refl in E.
Qed.

(** The association list that stands for the registry, a [dict], stays
    well formed: no block under the lock makes it hold a key twice. *)
Lemma run_block_keys (b : lock_block) (s : ChatServer) :
  NoDup (List.map fst (clients s)) ->
  NoDup (List.map fst (clients (snd (run_block b s)))).
Proof.
  intro H. destruct b; simpl; try exact H.
  - now apply dict_set_NoDup.
  - unfold locked_pop. pose proof (dict_pop_NoDup (clients s) client_id H) as P.
    now destruct (dict_pop (clients s) client_id).
  - constructor.
Qed.

Lemma registry_keys_distinct (bs : list lock_block) :
  NoDup (List.map fst (clients (snd (run_blocks bs ChatServer_init)))).
Proof.
  assert (G : forall s, NoDup (List.map fst (clients s)) ->
                        NoDup (List.map fst (clients (snd (run_blocks bs s))))).
  { induction bs as [|b bs IH]; intros s H; simpl; [exact H|].
    pose proof (run_block_keys b s H) as Hb.
    destruct (run_block b s) as [r s1]. simpl in Hb.
    specialize (IH s1 Hb). now destruct (run_blocks bs s1). }
  apply G. constructor.
Qed.

Lemma remove_client_noop (client_id : pystr) (w : world) :
  dict_lookup (clients (server w)) client_id = None ->
  remove_client client_id w = (Ok tt, w).
Proof.
  intro H. unfold remove_client, bind, with_lock, locked_pop, set_server.
  rewrite (dict_pop_absent _ _ H). cbn. now destruct w as [[] ? ? ?].
Qed.

(** [remove_client] is idempotent: for an identity that is not registered
    it does nothing at all. *)
Theorem remove_client_absent (client_id : pystr) (w : world) :
  dict_lookup (clients (server w)) client_id = None ->
  remove_client client_id w = (Ok tt, w).
Proof. exact (remove_client_noop client_id w). Qed.

(** What [remove_client] does for a registered identity. *)
Lemma remove_client_present (client_id : pystr) (info : client_info) (w : world) :
  dict_lookup (clients (server w)) client_id = Some info ->
  remove_client client_id w
  = (Ok tt,
     {| server := snd (locked_pop client_id (server w));
        socks := list_set (socks w) (socket info) SockClosed;
        wire := wire w ++
          notices (info_packet (client_id ++ u " left the chat.") (clock (ticks w)))
            (Some client_id) (list_set (socks w) (socket info) SockClosed)
            (clients (snd (locked_pop client_id (server w))));
        ticks := S (ticks w) |}).
Proof.
  intro H. pose proof (dict_pop_present _ _ _ H) as Hp.
  unfold remove_client, bind, with_lock, locked_pop, set_server in *.
  destruct (dict_pop (clients (server w)) client_id) as [r d'].
  simpl in Hp. subst r. cbn [fst snd].
  unfold try_except, sock_close, modify, ret. cbn [server socks wire ticks].
  now rewrite broadcast_info_spec.
Qed.

(** What holds of the handling of [exit]. For an [exit] packet from
    a registered connection whose socket is open: the goodbye is written to
    it, its identity is taken out of the registry (no later snapshot lists
    it), its socket is closed, one leave notice goes to every client still
    registered whose socket takes the write, and a second [remove_client]
    (the [finally] clause of the worker) does nothing. Once the socket is
    closed, the next [recv] ends the worker. *)
Theorem exit_effects (client_id raw_line : pystr) (d : list (pystr * pyval))
  (info : client_info) (w : world) :
  json_loads raw_line = Some (PDict d) ->
  dict_lookup d (u "type") = Some (PStr (u "exit")) ->
  dict_lookup (clients (server w)) client_id = Some info ->
  sock_state_of (socket info) w = SockOpen ->
  NoDup (List.map fst (clients (server w))) ->
  let w' := {| server := snd (locked_pop client_id (server w));
               socks := list_set (socks w) (socket info) SockClosed;
               wire := wire w ++
                 (socket info, info_packet (u "Goodbye!") (clock (ticks w)))
                 :: notices (info_packet (client_id ++ u " left the chat.")
                               (clock (S (ticks w))))
                      (Some client_id)
                      (list_set (socks w) (socket info) SockClosed)
                      (clients (snd (locked_pop client_id (server w))));
               ticks := S (S (ticks w)) |} in
  handle_client_message client_id raw_line w = (Ok tt, w')
  /\ dict_lookup (clients (server w')) client_id = None
  /\ (forall a, ~ In (PDict [(u "client_id", PStr client_id); (u "address", PStr a)])
                   (locked_snapshot (server w')))
  /\ remove_client client_id w' = (Ok tt, w')
  /\ (conn_closed (socket info) w' = true ->
      forall handle script buffer,
        recv_loop (conn_closed (socket info)) (fun _ => true) (ret tt) handle
          script buffer w' = (Raise OSError, w')).
Proof.
  intros Hj Ht Hreg Hopen Hnd w'.
  assert (Hgone : dict_lookup (clients (server w')) client_id = None).
  { unfold w', locked_pop. cbn [server].
    pose proof (dict_pop_gone (clients (server w)) client_id Hnd) as G.
    now destruct (dict_pop (clients (server w)) client_id). }
  split; [|split; [exact Hgone|split; [|split]]].
  - unfold handle_client_message. rewrite Hj.
    unfold py_get, bind at 1, ret at 1. rewrite Ht.
    cbn [py_eqb py_item_eqb].
    replace (str_eqb (u "exit") (u "chat")) with false by reflexivity.
    replace (str_eqb (u "exit") (u "list")) with false by reflexivity.
    replace (str_eqb (u "exit") (u "exit")) with true by reflexivity.
    unfold bind, send_info, send_to_client_id, bind, time_time, gets.
    cbn [server socks wire ticks]. rewrite Hreg.
    unfold try_except, send_json. unfold sock_state_of in *.
    cbn [socks]. rewrite Hopen.
    rewrite (remove_client_present client_id info); [|exact Hreg].
    cbn [server socks wire ticks]. unfold w'. now rewrite <- app_assoc.
  - intros a Hin. unfold locked_snapshot in Hin.
    apply in_map_iff in Hin as [[cid i] [Heq Hin]].
    injection Heq as Hcid _.
    assert (Hk : In client_id (List.map fst (clients (server w')))).
    { apply in_map_iff. exists (cid, i). split; [simpl; congruence | exact Hin]. }
    clear - Hk Hgone.
    induction (clients (server w')) as [|[k v] l IH]; simpl in *; [exact Hk|].
    destruct (str_eqb k client_id) eqn:E; [discriminate|].
    destruct Hk as [Hk|Hk]; [subst; now rewrite str_eqb_refl in E | now apply IH].
  - now apply remove_client_noop.
  - intros Hclosed handle script buffer.
    destruct script; simpl; now rewrite Hclosed.
Qed.

(* =============================================================== *)
(** ** Registration and snapshot under interleaving *)

Lemma dict_set_key_kept {V : Type} (d : list (pystr * V)) (k k' : pystr) (v : V) :
  In k (List.map fst d) -> In k (List.map fst (dict_set d k' v)).
Proof.
  induction d as [|[k0 v0] d IH]; simpl; [intros []|].
  destruct (str_eqb k0 k'); simpl; intros [H|H]; auto.
Qed.

Lemma dict_pop_key_kept {V : Type} (d : list (pystr * V)) (k k' : pystr) :
  k <> k' -> In k (List.map fst d) -> In k (List.map fst (snd (dict_pop d k'))).
Proof.
  intro Hne. induction d as [|[k0 v0] d IH]; simpl; [intros []|].
  destruct (str_eqb k0 k') eqn:E.
  - apply str_eqb_eq in E. subst. simpl. intros [H|H]; [congruence | exact H].
  - destruct (dict_pop d k') as [r d']. simpl in *.
    intros [H|H]; [now left | right; now apply IH].
Qed.

Lemma run_blocks_key_kept (client_id : pystr) (bs : list lock_block) (s : ChatServer) :
  Forall (keeps client_id) bs ->
  In client_id (List.map fst (clients s)) ->
  In client_id (List.map fst (clients (snd (run_blocks bs s)))).
Proof.
  intro H. revert s. induction H as [|b bs Hb _ IH]; intros s Hin; simpl.
  - exact Hin.
  - assert (Hb' : In client_id (List.map fst (clients (snd (run_block b s))))).
    { destruct b; simpl in *; try exact Hin; try contradiction.
      - now apply dict_set_key_kept.
      - unfold locked_pop.
        pose proof (dict_pop_key_kept (clients s) client_id client_id0) as P.
        destruct (dict_pop (clients s) client_id0). simpl in *.
        apply P; [congruence | exact Hin]. }
    destruct (run_block b s) as [r s1]. simpl in Hb'.
    specialize (IH s1 Hb'). now destruct (run_blocks bs s1).
Qed.

(** Whatever other threads do under the lock between the registration of
    a connection and the snapshot for its welcome packet, short of
    [shutdown], the snapshot lists the connection's identity. *)
Theorem snapshot_contains_self_interleaved (conn : nat) (a : address)
  (s : ChatServer) (bs : list lock_block) :
  let client_id := fst (locked_register conn a s) in
  Forall (keeps client_id) bs ->
  exists address_string,
    In (PDict [(u "client_id", PStr client_id); (u "address", PStr address_string)])
       (locked_snapshot (snd (run_blocks bs (snd (locked_register conn a s))))).
Proof.
  intros client_id Hbs.
  assert (Hin : In client_id
                  (List.map fst (clients (snd (run_blocks bs
                     (snd (locked_register conn a s))))))).
  { apply run_blocks_key_kept; [exact Hbs|].
    apply in_map_iff.
    exists (client_id, {| socket := conn; addr := a; name := client_id |}).
    split; [reflexivity | apply dict_set_In_new]. }
  apply in_map_iff in Hin as [[cid info] [Hcid Hin]]. simpl in Hcid. subst cid.
  exists (str_address (addr info)). unfold locked_snapshot.
  apply in_map_iff. exists (client_id, info). split; [reflexivity | exact Hin].
Qed.

(* =============================================================== *)
(** ** Search *)

(** A search returns the entries that are not deleted and whose text
    contains the keyword, in the order of the history; so it never returns
    a deleted entry. *)
Theorem search_matches_not_deleted (keyword_lower : pystr) (h l : list entry) :
  search_matches keyword_lower h = Ok l ->
  l = List.filter
        (fun m => negb (e_deleted m)
                  && match e_text m with
                     | PStr text => str_contains keyword_lower (str_lower text)
                     | _ => false
                     end) h
  /\ Forall (fun m => e_deleted m = false) l.
Proof.
  revert l. induction h as [|m h IH]; simpl; intros l H.
  - injection H as <-. split; [reflexivity | constructor].
  - destruct (e_deleted m) eqn:Ed; simpl.
    + now apply IH.
    + destruct (e_text m) as [| | | |text| |]; try discriminate H.
      destruct (search_matches keyword_lower h) as [l'|e]; [|discriminate H].
      destruct (IH l' eq_refl) as [Hl' Hall]. injection H as <-.
      destruct (str_contains keyword_lower (str_lower text)).
      * split; [now rewrite <- Hl' | now constructor].
      * split; assumption.
Qed.


(* =============================================================== *)
(** ** Properties kept along a computation *)

Lemma preserves_ret {St A : Type} (P : St -> Prop) (a : A) : preserves P (ret a).
Proof. intros s H. exact H. Qed.

Lemma preserves_raise {St A : Type} (P : St -> Prop) (e : pyexc) :
  preserves P (@raise St A e).
Proof. intros s H. exact H. Qed.

Lemma preserves_gets {St A : Type} (P : St -> Prop) (f : St -> A) :
  preserves P (gets f).
Proof. intros s H. exact H. Qed.

Lemma preserves_modify {St : Type} (P : St -> Prop) (f : St -> St) :
  (forall s, P s -> P (f s)) -> preserves P (modify f).
Proof. intros Hf s H. now apply Hf. Qed.

Lemma preserves_bind {St A B : Type} (P : St -> Prop) (m : M St A) (k : A -> M St B) :
  preserves P m -> (forall a, preserves P (k a)) -> preserves P (bind m k).
Proof.
  intros Hm Hk s H. unfold bind. specialize (Hm s H).
  destruct (m s) as [[a|e] s1]; cbn [snd] in *; [now apply Hk | exact Hm].
Qed.

Lemma preserves_try_except {St A : Type} (P : St -> Prop) (catches : pyexc -> bool)
  (m h : M St A) :
  preserves P m -> preserves P h -> preserves P (try_except catches m h).
Proof.
  intros Hm Hh s H. unfold try_except. specialize (Hm s H).
  destruct (m s) as [[a|e] s1]; cbn [snd] in *; [exact Hm|].
  destruct (catches e); [now apply Hh | exact Hm].
Qed.

Lemma preserves_try_finally {St A : Type} (P : St -> Prop) (m : M St A)
  (final : M St unit) :
  preserves P m -> preserves P final -> preserves P (try_finally m final).
Proof.
  intros Hm Hf s H. unfold try_finally. specialize (Hm s H).
  destruct (m s) as [r s1]; cbn [snd] in *. specialize (Hf s1 Hm).
  destruct (final s1) as [[[]|e] s2]; exact Hf.
Qed.

Lemma preserves_for_each {St A : Type} (P : St -> Prop) (xs : list A)
  (body : A -> M St unit) :
  (forall x, preserves P (body x)) -> preserves P (for_each xs body).
Proof.
  intro Hb. induction xs as [|x xs IH]; simpl.
  - apply preserves_ret.
  - apply preserves_bind; [apply Hb | intros _; exact IH].
Qed.

Lemma preserves_dispatch_lines {St : Type} (P : St -> Prop)
  (handle : pystr -> M St unit) :
  (forall line, preserves P (handle line)) ->
  forall fuel buffer, preserves P (dispatch_lines handle fuel buffer).
Proof.
  intros Hh fuel. induction fuel as [|fuel IH]; intro buffer; simpl.
  - apply preserves_ret.
  - destruct (split_delim buffer) as [[line rest]|]; [|apply preserves_ret].
    apply preserves_bind; [|intros _; apply IH].
    destruct (strip_nonempty line); [apply Hh | apply preserves_ret].
Qed.

Lemma preserves_recv_loop {St : Type} (P : St -> Prop) (closed running : St -> bool)
  (on_eof : M St unit) (handle : pystr -> M St unit) :
  preserves P on_eof -> (forall line, preserves P (handle line)) ->
  forall script buffer,
    preserves P (recv_loop closed running on_eof handle script buffer).
Proof.
  intros He Hh script.
  induction script as [|ev script IH]; intros buffer s H; simpl.
  - destruct (running s); cbn; [|exact H].
    destruct (closed s); cbn; [exact H | now apply He].
  - destruct (running s); cbn; [|exact H].
    destruct (closed s); cbn; [exact H|].
    destruct ev as [data| |]; try exact H.
    destruct data as [|b data]; [now apply He|].
    destruct (utf8_decode (b :: data)) as [text|]; [|exact H].
    apply (preserves_bind P
             (dispatch_lines handle (length (buffer ++ text)) (buffer ++ text))
             (recv_loop closed running on_eof handle script)); [| |exact H].
    + now apply preserves_dispatch_lines.
    + intro. apply IH.
Qed.

(* =============================================================== *)
(** ** What a worker does to the registry *)

Section Stable.
Variable P : world -> Prop.
Hypothesis HP : stable P.

Lemma stable_time_time : preserves P time_time.
Proof using HP. intros w H. apply (HP w); cbn; auto; lia. Qed.

Lemma stable_send_json (sock : nat) (obj : pyval) : preserves P (send_json sock obj).
Proof using HP.
  intros w H. unfold send_json. destruct (sock_state_of sock w); cbn; try exact H.
  apply (HP w); cbn; auto; lia.
Qed.

Lemma stable_lookup_client (key : pyval) : preserves P (lookup_client key).
Proof using HP. intros w H. exact H. Qed.

Lemma stable_py_get (msg : pyval) (key : pystr) (default : pyval) :
  preserves P (@py_get world msg key default).
Proof using HP. intros w H. unfold py_get. now destruct msg. Qed.

Lemma stable_next_message_id : preserves P (with_lock locked_next_message_id).
Proof using HP. intros w H. apply (HP w); cbn; auto; lia. Qed.

Ltac stable_step :=
  match goal with
  | |- preserves _ (bind _ _) => apply preserves_bind; [|intro]
  | |- preserves _ (ret _) => apply preserves_ret
  | |- preserves _ (raise _) => apply preserves_raise
  | |- preserves _ (gets _) => apply preserves_gets
  | |- preserves _ time_time => apply stable_time_time
  | |- preserves _ (send_json _ _) => apply stable_send_json
  | |- preserves _ (lookup_client _) => apply stable_lookup_client
  | |- preserves _ (py_get _ _ _) => apply stable_py_get
  | |- preserves _ (with_lock locked_next_message_id) => apply stable_next_message_id
  | |- preserves _ (for_each _ _) => apply preserves_for_each; intro
  | |- preserves _ (try_except _ _ _) => apply preserves_try_except
  | |- preserves _ (match ?x with _ => _ end) => destruct x
  end.

Lemma stable_broadcast_info (text : pystr) (exclude_id : option pystr) :
  preserves P (broadcast_info text exclude_id).
Proof using HP. unfold broadcast_info. repeat stable_step. Qed.

Lemma stable_send_to_client_id (client_id : pystr) (packet : pyval) :
  preserves P (send_to_client_id client_id packet).
Proof using HP. unfold send_to_client_id. repeat stable_step. Qed.

Lemma stable_send_info (client_id text : pystr) : preserves P (send_info client_id text).
Proof using HP.
  unfold send_info. repeat stable_step. apply stable_send_to_client_id.
Qed.

Lemma stable_send_error (client_id text : pystr) : preserves P (send_error client_id text).
Proof using HP.
  unfold send_error. repeat stable_step. apply stable_send_to_client_id.
Qed.

Lemma stable_send_client_list (client_id : pystr) : preserves P (send_client_list client_id).
Proof using HP.
  unfold send_client_list, _client_list_snapshot. repeat stable_step.
  apply stable_send_to_client_id.
Qed.

Lemma stable_route_chat_message (sender_id : pystr) (msg : pyval) :
  preserves P (route_chat_message sender_id msg).
Proof using HP.
  unfold route_chat_message. repeat stable_step; apply stable_send_error.
Qed.

(** A line of a client changes what the registry, the sockets and the
    identity counter are only through [remove_client] for that client. *)
Lemma stable_handle_client_message (client_id raw_line : pystr) :
  preserves P (remove_client client_id) ->
  preserves P (handle_client_message client_id raw_line).
Proof using HP.
  intro Hrm. unfold handle_client_message.
  destruct (json_loads raw_line) as [msg|]; [|apply preserves_ret].
  apply preserves_bind; [apply stable_py_get | intro msg_type].
  destruct (py_eqb msg_type (PStr (u "chat"))); [apply stable_route_chat_message|].
  destruct (py_eqb msg_type (PStr (u "list"))); [apply stable_send_client_list|].
  destruct (py_eqb msg_type (PStr (u "exit"))); [|apply stable_send_error].
  apply preserves_bind; [apply stable_send_info | intros _; exact Hrm].
Qed.

End Stable.

Lemma dict_pop_incl {V : Type} (d : list (pystr * V)) (k : pystr) :
  incl (snd (dict_pop d k)) d.
Proof.
  induction d as [|[k0 v0] d IH]; simpl; [intros x []|].
  destruct (str_eqb k0 k); simpl.
  - intros x Hx. now right.
  - destruct (dict_pop d k) as [r d']. simpl in *.
    intros x [Hx|Hx]; [now left | right; now apply IH].
Qed.

Lemma dict_pop_other_kept {V : Type} (d : list (pystr * V)) (k k' : pystr) (v : V) :
  In (k', v) d -> k' <> k -> In (k', v) (snd (dict_pop d k)).
Proof.
  intros Hin Hne. induction d as [|[k0 v0] d IH]; simpl; [exact Hin|].
  destruct (str_eqb k0 k) eqn:E.
  - apply str_eqb_eq in E. subst k0. simpl.
    destruct Hin as [Hin|Hin]; [congruence | exact Hin].
  - destruct (dict_pop d k) as [r d']. simpl in *.
    destruct Hin as [Hin|Hin]; [now left | right; now apply IH].
Qed.

Lemma dict_set_In_inv {V : Type} (d : list (pystr * V)) (k k' : pystr) (v v' : V) :
  In (k', v') (dict_set d k v) -> k' <> k -> In (k', v') d.
Proof.
  intros Hin Hne. induction d as [|[k0 v0] d IH]; simpl in *.
  - destruct Hin as [Hin|[]]. congruence.
  - destruct (str_eqb k0 k) eqn:E.
    + apply str_eqb_eq in E. subst k0.
      destruct Hin as [Hin|Hin]; [congruence | now right].
    + destruct Hin as [Hin|Hin]; [now left | right; now apply IH].
Qed.

Lemma nth_list_set_same (l : list sock_state) (i : nat) :
  nth i (list_set l i SockClosed) SockClosed = SockClosed.
Proof.
  revert i. induction l as [|x l IH]; intros [|i]; simpl; auto.
Qed.

Lemma nth_list_set_other (l : list sock_state) (i j : nat) (x : sock_state) :
  i <> j -> nth j (list_set l i x) SockClosed = nth j l SockClosed.
Proof.
  revert i j. induction l as [|y l IH]; intros [|i] [|j] H; simpl; auto.
  congruence.
Qed.

(** Closing a socket leaves the closed ones closed. *)
Lemma nth_list_set_closed (l : list sock_state) (i j : nat) :
  nth j l SockClosed = SockClosed ->
  nth j (list_set l i SockClosed) SockClosed = SockClosed.
Proof.
  intro H. destruct (Nat.eq_dec i j) as [->|Hne].
  - apply nth_list_set_same.
  - now rewrite nth_list_set_other.
Qed.

Lemma worker_frame_refl (client_id : pystr) (w : world) : worker_frame client_id w w.
Proof. unfold worker_frame. repeat split; auto using incl_refl. lia. Qed.

Lemma worker_frame_stable (client_id : pystr) (w0 : world) :
  stable (worker_frame client_id w0).
Proof.
  intros w w' Hc Hs Hn Hm (F1 & F2 & F3 & F4). unfold worker_frame.
  rewrite Hc, Hn. repeat split; auto. lia.
Qed.

Lemma worker_frame_remove_client (client_id : pystr) (w0 : world) :
  preserves (worker_frame client_id w0) (remove_client client_id).
Proof.
  intros w (F1 & F2 & F3 & F4).
  destruct (dict_lookup (clients (server w)) client_id) as [info|] eqn:E.
  - rewrite (remove_client_present client_id info w E). cbn [snd].
    unfold worker_frame, locked_pop. cbn [server].
    pose proof (dict_pop_incl (clients (server w)) client_id) as Hi.
    pose proof (dict_pop_other_kept (clients (server w)) client_id) as Hk.
    destruct (dict_pop (clients (server w)) client_id) as [r d'].
    cbn [snd clients next_client_id message_counter] in *.
    split; [exact F1 | split; [exact F2 | split]].
    + intros x Hx. apply F3. now apply Hi.
    + intros k v Hin Hne. apply Hk; auto.
  - rewrite (remove_client_noop client_id w E). cbn [snd].
    unfold worker_frame. auto.
Qed.

(** Whatever line a client sends, handling it leaves the identity counter
    as it is, never lowers the message counter, registers nobody, and
    removes nobody but, at most, the client itself. *)
Theorem handle_client_message_frame (client_id raw_line : pystr) (w : world) :
  worker_frame client_id w (snd (handle_client_message client_id raw_line w)).
Proof.
  apply (stable_handle_client_message (worker_frame client_id w)
           (worker_frame_stable client_id w) client_id raw_line
           (worker_frame_remove_client client_id w) w).
  apply worker_frame_refl.
Qed.

Lemma registered_or_closed_stable (client_id : pystr) (conn : nat) :
  stable (registered_or_closed client_id conn).
Proof.
  intros w w' Hc Hs Hn Hm [Hnd H]. unfold registered_or_closed, sock_state_of in *.
  rewrite Hc, Hs. auto.
Qed.

Lemma remove_client_cleans (client_id : pystr) (conn : nat) (w : world) :
  registered_or_closed client_id conn w ->
  let w' := snd (remove_client client_id w) in
  NoDup (List.map fst (clients (server w')))
  /\ dict_lookup (clients (server w')) client_id = None
  /\ sock_state_of conn w' = SockClosed.
Proof.
  intros [Hnd [[info [E Hs]]|[E Hc]]] w'; unfold w'.
  - rewrite (remove_client_present client_id info w E). cbn [snd].
    unfold locked_pop, sock_state_of. cbn [server socks].
    pose proof (dict_pop_gone (clients (server w)) client_id Hnd) as Hg.
    pose proof (dict_pop_NoDup (clients (server w)) client_id Hnd) as Hn.
    destruct (dict_pop (clients (server w)) client_id) as [r d'].
    cbn [snd clients] in *. subst conn.
    repeat split; auto. apply nth_list_set_same.
  - rewrite (remove_client_noop client_id w E). cbn [snd]. auto.
Qed.

Lemma registered_or_closed_remove_client (client_id : pystr) (conn : nat) :
  preserves (registered_or_closed client_id conn) (remove_client client_id).
Proof.
  intros w H. destruct (remove_client_cleans client_id conn w H) as (Hn & Hg & Hc).
  split; [exact Hn | right; auto].
Qed.

(** The cleanup of a worker is guaranteed: whatever the connection sends
    and however the worker ends, normally or by an exception, at the end
    its identity is not registered, its socket is closed, and every other
    client is registered exactly as before. *)
Theorem handle_new_client_cleanup (conn : nat) (a : address)
  (script : list recv_event) (w : world) :
  NoDup (List.map fst (clients (server w))) ->
  let client_id := fst (locked_register conn a (server w)) in
  let w' := snd (handle_new_client conn a script w) in
  dict_lookup (clients (server w')) client_id = None
  /\ sock_state_of conn w' = SockClosed
  /\ next_client_id (server w') = next_client_id (server w) + 1
  /\ (forall k v, k <> client_id ->
                  (In (k, v) (clients (server w')) <-> In (k, v) (clients (server w)))).
Proof.
  intros Hnd client_id w'.
  pose (w1 := set_server (snd (locked_register conn a (server w))) w).
  pose (body :=
          try_except is_connection_lost
            (bind _client_list_snapshot (fun snapshot =>
             bind (send_json conn (welcome_packet client_id snapshot)) (fun _ =>
             bind (broadcast_info (client_id ++ u " joined the chat.") (Some client_id))
               (fun _ =>
                recv_loop (conn_closed conn) (fun _ => true) (ret tt)
                  (handle_client_message client_id) script []))))
            (ret tt)).
  assert (E : handle_new_client conn a script w
              = try_finally body (remove_client client_id) w1) by reflexivity.
  assert (Hbody : forall P, stable P -> preserves P (remove_client client_id) ->
                            preserves P body).
  { intros P HP Hrm. unfold body, _client_list_snapshot.
    apply preserves_try_except; [|apply preserves_ret].
    apply preserves_bind; [apply preserves_gets | intro].
    apply preserves_bind; [now apply stable_send_json | intro].
    apply preserves_bind; [now apply stable_broadcast_info | intro].
    apply preserves_recv_loop; [apply preserves_ret|].
    intro line. now apply stable_handle_client_message. }
  assert (J1 : registered_or_closed client_id conn w1).
  { split.
    - unfold w1, locked_register. cbn. now apply dict_set_NoDup.
    - left. eexists. split; [apply dict_lookup_set_same | reflexivity]. }
  assert (F1 : worker_frame client_id w1 w1) by apply worker_frame_refl.
  unfold w'. rewrite E. unfold try_finally.
  pose proof (Hbody _ (registered_or_closed_stable client_id conn)
                (registered_or_closed_remove_client client_id conn) w1 J1) as J2.
  pose proof (Hbody _ (worker_frame_stable client_id w1)
                (worker_frame_remove_client client_id w1) w1 F1) as F2.
  destruct (body w1) as [r w2]. cbn [snd] in J2, F2.
  pose proof (remove_client_cleans client_id conn w2 J2) as (Hn & Hg & Hc).
  pose proof (worker_frame_remove_client client_id w1 w2 F2) as (G1 & G2 & G3 & G4).
  assert (Hfin : snd (let (r0, s'') := remove_client client_id w2 in
                      match r0 with
                      | Ok _ => (r, s'')
                      | Raise e => (@Raise unit e, s'')
                      end) = snd (remove_client client_id w2)).
  { now destruct (remove_client client_id w2) as [[[]|e] w3]. }
  rewrite Hfin. split; [exact Hg | split; [exact Hc | split]].
  - rewrite G1. reflexivity.
  - intros k v Hne. split; intro Hin.
    + apply G3 in Hin. unfold w1, locked_register in Hin. cbn in Hin.
      eapply dict_set_In_inv; eauto.
    + apply G4; [|exact Hne]. unfold w1, locked_register. cbn.
      now apply dict_set_In_old.
Qed.

(* =============================================================== *)
(** ** Notices, lists, unknown packets, shutdown *)

Lemma notices_In (packet : pyval) (exclude_id : option pystr)
  (sockets : list sock_state) (registered : list (pystr * client_info))
  (sock : nat) (q : pyval) :
  In (sock, q) (notices packet exclude_id sockets registered) <->
  q = packet
  /\ exists cid info,
       In (cid, info) registered /\ socket info = sock
       /\ exclude_id <> Some cid
       /\ nth sock sockets SockClosed = SockOpen.
Proof.
  unfold notices. rewrite in_map_iff. split.
  - intros [[cid info] [Heq Hin]]. injection Heq as <- <-.
    apply filter_In in Hin as [Hin Hc]. apply andb_true_iff in Hc as [He Ho].
    split; [reflexivity|]. exists cid, info. repeat split; auto.
    + intro Hx. subst exclude_id. now rewrite str_eqb_refl in He.
    + now destruct (nth (socket info) sockets SockClosed).
  - intros [-> (cid & info & Hin & <- & He & Ho)].
    exists (cid, info). split; [reflexivity|]. apply filter_In. split; [exact Hin|].
    rewrite Ho. cbn. rewrite andb_true_r.
    destruct exclude_id as [x|]; [|reflexivity].
    destruct (str_eqb cid x) eqn:E; [|reflexivity].
    apply str_eqb_eq in E. congruence.
Qed.

Lemma notices_NoDup (packet : pyval) (exclude_id : option pystr)
  (sockets : list sock_state) (registered : list (pystr * client_info)) :
  NoDup (List.map (fun x => socket (snd x)) registered) ->
  NoDup (List.map fst (notices packet exclude_id sockets registered)).
Proof.
  unfold notices. induction registered as [|[cid info] registered IH]; simpl.
  - intros _. constructor.
  - intro H. inversion H as [|? ? Hnotin Hnd]; subst.
    destruct (negb _ && _); simpl; [|now apply IH].
    constructor; [|now apply IH].
    intro Hin. apply Hnotin.
    apply in_map_iff in Hin as [[sock q] [Hs Hin]]. simpl in Hs. subst sock.
    apply in_map_iff in Hin as [[cid' info'] [Heq Hin]]. injection Heq as Hs _.
    apply filter_In in Hin as [Hin _].
    apply in_map_iff. exists (cid', info'). split; [exact Hs | exact Hin].
Qed.

(** A broadcast never fails and never stops at a client that cannot be
    reached: the notice is written once to the socket of every registered
    client other than the excluded one whose socket takes the write, in the
    order of the registry, and to no other socket; the registry and the
    sockets are as before. With distinct sockets no socket gets it twice. *)
Theorem broadcast_info_reach (text : pystr) (exclude_id : option pystr) (w : world) :
  let packet := info_packet text (clock (ticks w)) in
  let added := notices packet exclude_id (socks w) (clients (server w)) in
  broadcast_info text exclude_id w
  = (Ok tt, {| server := server w; socks := socks w; wire := wire w ++ added;
               ticks := S (ticks w) |})
  /\ (forall sock q,
        In (sock, q) added <->
        q = packet
        /\ exists cid info,
             In (cid, info) (clients (server w)) /\ socket info = sock
             /\ exclude_id <> Some cid /\ sock_state_of sock w = SockOpen)
  /\ (NoDup (List.map (fun x => socket (snd x)) (clients (server w))) ->
      NoDup (List.map fst added)).
Proof.
  intros packet added. split; [|split].
  - apply broadcast_info_spec.
  - intros sock q. apply notices_In.
  - apply notices_NoDup.
Qed.

Lemma send_to_client_id_spec (client_id : pystr) (packet : pyval) (w : world) :
  send_to_client_id client_id packet w
  = (Ok tt, {| server := server w; socks := socks w;
               wire := wire w ++ reply_to client_id packet w; ticks := ticks w |}).
Proof.
  unfold send_to_client_id, reply_to, bind, gets.
  destruct (dict_lookup (clients (server w)) client_id) as [info|].
  - unfold try_except, send_json.
    destruct (sock_state_of (socket info) w); cbn;
      rewrite ?List.app_nil_r; now destruct w.
  - cbn. rewrite List.app_nil_r. now destruct w.
Qed.

(** A packet of a type the server does not know is answered with an error
    packet that names the type, to the sender alone; the server record and
    the sockets are as before, and the call returns normally. *)
Theorem handle_unknown_type (client_id raw_line : pystr)
  (d : list (pystr * pyval)) (w : world) :
  json_loads raw_line = Some (PDict d) ->
  let msg_type := match dict_lookup d (u "type") with
                  | Some v => v | None => PNone end in
  py_eqb msg_type (PStr (u "chat")) = false ->
  py_eqb msg_type (PStr (u "list")) = false ->
  py_eqb msg_type (PStr (u "exit")) = false ->
  handle_client_message client_id raw_line w
  = (Ok tt,
     {| server := server w; socks := socks w;
        wire := wire w ++
          reply_to client_id
            (error_packet (u "Unknown message type: " ++ py_format msg_type)
               (clock (ticks w))) w;
        ticks := S (ticks w) |}).
Proof.
  intros Hj msg_type Hc Hl He. unfold handle_client_message. rewrite Hj.
  unfold py_get, bind at 1, ret at 1. fold msg_type. rewrite Hc, Hl, He.
  unfold send_error, bind, time_time. rewrite send_to_client_id_spec.
  reflexivity.
Qed.

(** A [list] request is answered with one [client_list] packet that holds
    the snapshot of the registry, to the requester alone; nothing else
    changes. *)
Theorem handle_list_request (client_id raw_line : pystr)
  (d : list (pystr * pyval)) (w : world) :
  json_loads raw_line = Some (PDict d) ->
  dict_lookup d (u "type") = Some (PStr (u "list")) ->
  handle_client_message client_id raw_line w
  = (Ok tt,
     {| server := server w; socks := socks w;
        wire := wire w ++
          reply_to client_id
            (PDict [(u "type", PStr (u "client_list"));
                    (u "clients", PList (locked_snapshot (server w)))]) w;
        ticks := ticks w |}).
Proof.
  intros Hj Ht. unfold handle_client_message. rewrite Hj.
  unfold py_get, bind at 1, ret at 1. rewrite Ht.
  replace (py_eqb (PStr (u "list")) (PStr (u "chat"))) with false by reflexivity.
  replace (py_eqb (PStr (u "list")) (PStr (u "list"))) with true by reflexivity.
  unfold send_client_list, _client_list_snapshot, bind, gets.
  now rewrite send_to_client_id_spec.
Qed.

(** A line that is no JSON is ignored; a line that is JSON but no object
    raises [AttributeError] out of the handler (and so ends the worker);
    in both cases nothing is written and nothing changes. *)
Theorem handle_malformed_line (client_id raw_line : pystr) (w : world) :
  (json_loads raw_line = None ->
   handle_client_message client_id raw_line w = (Ok tt, w))
  /\ (forall v, json_loads raw_line = Some v -> (forall d, v <> PDict d) ->
                handle_client_message client_id raw_line w
                = (Raise AttributeError, w)).
Proof.
  split.
  - intro Hj. unfold handle_client_message. now rewrite Hj.
  - intros v Hj Hv. unfold handle_client_message. rewrite Hj.
    destruct v; try reflexivity. now destruct (Hv d).
Qed.

Lemma for_each_close (registered : list (pystr * client_info)) (w : world) :
  for_each registered
    (fun '(_, info) => try_except is_OSError (sock_close (socket info)) (ret tt)) w
  = (Ok tt,
     {| server := server w;
        socks := close_all (List.map (fun x => socket (snd x)) registered) (socks w);
        wire := wire w; ticks := ticks w |}).
Proof.
  revert w. induction registered as [|[cid info] registered IH]; intro w.
  - cbn. now destruct w.
  - cbn [for_each]. unfold bind at 1, try_except, sock_close, modify.
    rewrite IH. reflexivity.
Qed.

Lemma close_all_In (sockets : list nat) (l : list sock_state) (j : nat) :
  In j sockets -> nth j (close_all sockets l) SockClosed = SockClosed.
Proof.
  unfold close_all. revert l. induction sockets as [|i sockets IH]; intros l; [intros []|].
  simpl. intros [->|Hin]; [|now apply IH].
  clear IH. generalize (nth_list_set_same l j).
  generalize (list_set l j SockClosed). clear l.
  induction sockets as [|i sockets IH]; intros l H; simpl; [exact H|].
  apply IH. now apply nth_list_set_closed.
Qed.

Lemma close_all_not_In (sockets : list nat) (l : list sock_state) (j : nat) :
  ~ In j sockets -> nth j (close_all sockets l) SockClosed = nth j l SockClosed.
Proof.
  unfold close_all. revert l. induction sockets as [|i sockets IH]; intros l H; [reflexivity|].
  simpl. rewrite IH by (intro; apply H; now right).
  apply nth_list_set_other. intro; apply H; now left.
Qed.

(** [shutdown] returns normally, closes the socket of every registered
    client and no other, empties the registry, writes nothing, and leaves
    both counters as they are: identities and message ids are not handed
    out again. *)
Theorem shutdown_effect (w : world) :
  exists w',
    shutdown w = (Ok tt, w')
    /\ clients (server w') = []
    /\ next_client_id (server w') = next_client_id (server w)
    /\ message_counter (server w') = message_counter (server w)
    /\ wire w' = wire w
    /\ (forall k info, In (k, info) (clients (server w)) ->
                       sock_state_of (socket info) w' = SockClosed)
    /\ (forall j, (forall k info, In (k, info) (clients (server w)) ->
                                  socket info <> j) ->
                  sock_state_of j w' = sock_state_of j w).
Proof.
  unfold shutdown, bind, gets. rewrite for_each_close.
  unfold with_lock, set_server. cbn. eexists. split; [reflexivity|].
  cbn. repeat split.
  - intros k info Hin. unfold sock_state_of. cbn. apply close_all_In.
    apply in_map_iff. now exists (k, info).
  - intros j Hj. unfold sock_state_of. cbn. apply close_all_not_In.
    intro Hin. apply in_map_iff in Hin as [[k info] [Hs Hin]].
    exact (Hj k info Hin Hs).
Qed.

(* =============================================================== *)
(** ** The history only grows *)

Lemma entry_evolves_refl (m : entry) : entry_evolves m m.
Proof. unfold entry_evolves. repeat split; auto. Qed.

Lemma entry_evolves_trans (a b c : entry) :
  entry_evolves a b -> entry_evolves b c -> entry_evolves a c.
Proof.
  intros (A1 & A2 & A3 & A4 & A5 & A6 & A7 & A8)
         (B1 & B2 & B3 & B4 & B5 & B6 & B7 & B8).
  unfold entry_evolves. repeat split; try congruence.
  - auto.
  - intro H. rewrite B8; [now apply A8|]. rewrite A8; assumption.
Qed.

Lemma Forall2_evolves_refl (h : list entry) : Forall2 entry_evolves h h.
Proof. induction h; constructor; auto using entry_evolves_refl. Qed.

Lemma Forall2_evolves_trans (a b c : list entry) :
  Forall2 entry_evolves a b -> Forall2 entry_evolves b c -> Forall2 entry_evolves a c.
Proof.
  intro H. revert c. induction H as [|x y a b Hxy _ IH]; intros c Hc.
  - inversion Hc. constructor.
  - inversion Hc as [|y' z b' c' Hyz Hbc]; subst.
    constructor; [eapply entry_evolves_trans; eauto | now apply IH].
Qed.

Lemma history_evolves_refl (h : list entry) : history_evolves h h.
Proof.
  exists h, []. split; [now rewrite List.app_nil_r | apply Forall2_evolves_refl].
Qed.

Lemma history_evolves_trans (a b c : list entry) :
  history_evolves a b -> history_evolves b c -> history_evolves a c.
Proof.
  intros (b1 & badd & -> & Hab) (c1 & cadd & -> & Hbc).
  apply Forall2_app_inv_l in Hbc as (c1a & c1b & Hc1a & Hc1b & ->).
  exists c1a, (c1b ++ cadd). split; [now rewrite app_assoc|].
  eapply Forall2_evolves_trans; eauto.
Qed.

Lemma history_evolves_append (h : list entry) (m : entry) :
  history_evolves h (h ++ [m]).
Proof. exists h, [m]. split; [reflexivity | apply Forall2_evolves_refl]. Qed.

Lemma history_evolves_update_first (cond : entry -> bool) (upd : entry -> entry)
  (h : list entry) :
  (forall m, cond m = true -> entry_evolves m (upd m)) ->
  history_evolves h (update_first cond upd h).
Proof.
  intro Hupd. exists (update_first cond upd h), [].
  split; [now rewrite List.app_nil_r|].
  induction h as [|m h IH]; simpl; [constructor|].
  destruct (cond m) eqn:E.
  - constructor; [now apply Hupd | apply Forall2_evolves_refl].
  - constructor; [apply entry_evolves_refl | exact IH].
Qed.

Lemma history_evolves_reconcile (target mid : pyval) (h : list entry) :
  history_evolves h (reconcile_receipt target mid h).
Proof.
  apply history_evolves_update_first. intros m Hm.
  apply receipt_cond_true in Hm as (_ & Hid & _ & _).
  unfold entry_evolves. cbn. repeat split; auto. congruence.
Qed.

Lemma history_evolves_cleanup (temp_until : float) (text : pystr) (h : list entry) :
  history_evolves h (cleanup_history temp_until text h).
Proof.
  apply history_evolves_update_first. intros m _.
  unfold entry_evolves. cbn. repeat split; auto.
Qed.

Lemma input_commands_nil (c : ChatClient) :
  input_commands [] c
  = if negb (c_running c) then (Ok tt, c) else input_interrupted c.
Proof. reflexivity. Qed.

Lemma input_commands_stop (ev : input_event) (inputs : list input_event)
  (c : ChatClient) :
  ev = InputEOF \/ ev = InputInterrupt ->
  input_commands (ev :: inputs) c
  = if negb (c_running c) then (Ok tt, c) else input_interrupted c.
Proof. intros [->| ->]; reflexivity. Qed.

Lemma input_commands_line (s : pystr) (inputs : list input_event) (c : ChatClient) :
  input_commands (InputLine s :: inputs) c
  = if negb (c_running c) then (Ok tt, c)
    else
      let user_input := str_strip s in
      match user_input with
      | [] => input_commands inputs c
      | _ =>
          if str_prefix (u "/") user_input
          then bind (handle_command user_input) (fun _ => input_commands inputs) c
          else bind (print (u "Please use a command (e.g., /msg, /list, /exit)."))
                    (fun _ => input_commands inputs) c
      end.
Proof. reflexivity. Qed.

Section ClientStable.
Variable P : ChatClient -> Prop.
Hypothesis Hst : stable_c P.
Hypothesis Hhist : allows_history P.

Lemma stable_c_time : preserves P c_time.
Proof using Hst. intros c H. now apply (Hst c). Qed.

Lemma stable_c_print (line : pystr) : preserves P (print line).
Proof using Hst. intros c H. now apply (Hst c). Qed.

Lemma stable_c_py_get (msg : pyval) (key : pystr) (default : pyval) :
  preserves P (@py_get ChatClient msg key default).
Proof using Hst. intros c H. unfold py_get. now destruct msg. Qed.

Lemma stable_c_py_item (v : pyval) (key : pystr) : preserves P (py_item v key).
Proof using Hst.
  intros c H. unfold py_item. destruct v; try exact H.
  now destruct (dict_lookup d key).
Qed.

Lemma stable_c_pure {A : Type} (r : result A) : preserves P (fun c => (r, c)).
Proof using Hst. intros c H. exact H. Qed.

Lemma stable_c_set_timers (f : ChatClient -> list (float * pystr)) :
  preserves P (modify (fun c => set_timers (f c) c)).
Proof using Hst. intros c H. now apply (Hst c). Qed.

Lemma stable_c_set_running (b : bool) : preserves P (modify (set_running b)).
Proof using Hst. intros c H. now apply (Hst c). Qed.

Lemma stable_c_close : preserves P c_close.
Proof using Hst. intros c H. now apply (Hst c). Qed.

Lemma stable_c_history (f : list entry -> list entry) :
  (forall h, history_evolves h (f h)) ->
  preserves P (modify (fun c => set_history (f (history c)) c)).
Proof using Hhist. intros Hf c H. apply Hhist; auto. Qed.

Ltac client_step :=
  match goal with
  | |- preserves _ (bind _ _) => apply preserves_bind; [|intro]
  | |- preserves _ (ret _) => apply preserves_ret
  | |- preserves _ (raise _) => apply preserves_raise
  | |- preserves _ (gets _) => apply preserves_gets
  | |- preserves _ c_time => apply stable_c_time
  | |- preserves _ (print _) => apply stable_c_print
  | |- preserves _ (py_get _ _ _) => apply stable_c_py_get
  | |- preserves _ (py_item _ _) => apply stable_c_py_item
  | |- preserves _ (fun c => (_, c)) => apply stable_c_pure
  | |- preserves _ (modify (fun c => set_timers _ c)) => apply stable_c_set_timers
  | |- preserves _ (modify (set_running _)) => apply stable_c_set_running
  | |- preserves _ c_close => apply stable_c_close
  | |- preserves _ (for_each _ _) => apply preserves_for_each; intro
  | |- preserves _ (try_except _ _ _) => apply preserves_try_except
  | |- preserves _ (try_finally _ _) => apply preserves_try_finally
  | |- preserves _ (match ?x with _ => _ end) => destruct x
  end.

Lemma stable_c_ts_str_of (ts : pyval) : preserves P (ts_str_of ts).
Proof using Hst. unfold ts_str_of. repeat client_step. Qed.

Lemma stable_c_handle_chat_message (msg : pyval) : preserves P (handle_chat_message msg).
Proof using Hst Hhist.
  unfold handle_chat_message.
  do 5 (apply preserves_bind; [apply stable_c_py_get | intro]).
  apply preserves_bind; [apply stable_c_ts_str_of | intro].
  apply preserves_bind.
  - apply (stable_c_history (fun h => h ++ [_])). intro h.
    apply history_evolves_append.
  - intro. destruct (py_truthy _); apply stable_c_print.
Qed.

Lemma stable_c_handle_receipt (msg : pyval) : preserves P (handle_receipt msg).
Proof using Hst Hhist.
  unfold handle_receipt.
  do 3 (apply preserves_bind; [apply stable_c_py_get | intro]).
  apply preserves_bind; [apply stable_c_ts_str_of | intro].
  apply preserves_bind; [|intro; apply stable_c_print].
  apply (stable_c_history (reconcile_receipt _ _)). intro h.
  apply history_evolves_reconcile.
Qed.

Lemma stable_c_handle_client_list (msg : pyval) : preserves P (handle_client_list msg).
Proof using Hst. unfold handle_client_list. repeat client_step. Qed.

Lemma stable_c_handle_server_message (raw_line : pystr) :
  preserves P (handle_server_message raw_line).
Proof using Hst Hhist.
  unfold handle_server_message.
  destruct (json_loads raw_line) as [msg|]; [|apply stable_c_print].
  apply preserves_bind; [apply stable_c_py_get | intro mtype].
  destruct (py_eqb mtype (PStr (u "chat"))); [apply stable_c_handle_chat_message|].
  destruct (py_eqb mtype (PStr (u "receipt"))); [apply stable_c_handle_receipt|].
  destruct (py_eqb mtype (PStr (u "client_list")));
    [apply stable_c_handle_client_list|].
  repeat client_step.
Qed.

Lemma stable_c_listen_loop (script : list recv_event) : preserves P (listen_loop script).
Proof using Hst Hhist.
  unfold listen_loop.
  apply preserves_try_finally; [|apply stable_c_set_running].
  apply preserves_try_except; [|apply stable_c_print].
  apply preserves_recv_loop; [apply stable_c_print|].
  apply stable_c_handle_server_message.
Qed.

Lemma stable_c_time_sleep (d : float) : preserves P (time_sleep d).
Proof using Hst.
  intros c H. unfold time_sleep. destruct (sleep_overflows d); [exact H|].
  now apply (Hst c).
Qed.

Lemma stable_c_cleanup_worker (temp_until : float) (text : pystr) :
  preserves P (_temp_cleanup_worker temp_until text).
Proof using Hst Hhist.
  unfold _temp_cleanup_worker.
  apply preserves_bind; [apply stable_c_time | intro now].
  apply preserves_bind;
    [destruct (float_ltb float_zero (float_sub temp_until now));
       [apply stable_c_time_sleep | apply preserves_ret]
    | intro].
  apply preserves_bind; [|intro; apply stable_c_print].
  apply (stable_c_history (cleanup_history _ _)). intro h.
  apply history_evolves_cleanup.
Qed.

Lemma stable_c_fire_timer (i : nat) : preserves P (fire_timer i).
Proof using Hst Hhist.
  unfold fire_timer. apply preserves_bind; [apply preserves_gets | intro pending].
  destruct (nth_error pending i) as [[temp_until text]|]; [|apply preserves_ret].
  apply preserves_bind; [|intro; apply stable_c_cleanup_worker].
  apply (stable_c_set_timers (fun _ => _)).
Qed.

Lemma stable_c_print_match (m : entry) : preserves P (print_match m).
Proof using Hst. unfold print_match. repeat client_step. Qed.

Lemma stable_c_search_history (keyword : pystr) : preserves P (search_history keyword).
Proof using Hst.
  unfold search_history.
  apply preserves_bind; [apply stable_c_print | intro].
  apply preserves_bind; [apply preserves_gets | intro h].
  destruct (search_matches (str_lower keyword) h) as [[|m l]|e].
  - apply stable_c_print.
  - apply preserves_for_each. apply stable_c_print_match.
  - apply preserves_raise.
Qed.

(** The functions that write to the socket. *)
Hypothesis Hsend : forall obj, preserves P (_send_json obj).

Lemma stable_c_send_chat (target_id : pyval) (text : pystr) (reply_to temp_until : pyval) :
  preserves P (send_chat target_id text reply_to temp_until).
Proof using Hst Hhist Hsend.
  unfold send_chat.
  apply preserves_bind; [apply Hsend | intro].
  apply preserves_bind; [apply stable_c_time | intro].
  apply (stable_c_history (fun h => h ++ [_])). intro h.
  apply history_evolves_append.
Qed.

Lemma stable_c_send_reply (msg_id : Z) (text : pystr) : preserves P (send_reply msg_id text).
Proof using Hst Hhist Hsend.
  unfold send_reply. apply preserves_bind; [apply preserves_gets | intro t].
  destruct t; [apply stable_c_send_chat | apply stable_c_print].
Qed.

Lemma stable_c_send_temp_message (target_id : pyval) (text : pystr) (seconds : float) :
  preserves P (send_temp_message target_id text seconds).
Proof using Hst Hhist Hsend.
  unfold send_temp_message.
  apply preserves_bind; [apply stable_c_time | intro].
  apply preserves_bind; [apply stable_c_send_chat | intro].
  apply (stable_c_set_timers (fun c => _)).
Qed.

Lemma stable_c_send_exit : preserves P send_exit.
Proof using Hst Hsend.
  unfold send_exit. apply preserves_try_except; [apply Hsend | apply preserves_ret].
Qed.

Lemma stable_c_handle_command (cmd_line : pystr) : preserves P (handle_command cmd_line).
Proof using Hst Hhist Hsend.
  unfold handle_command.
  destruct (str_eqb _ (u "/list")); [apply Hsend|].
  destruct (str_eqb _ (u "/msg") && _); [apply stable_c_send_chat|].
  destruct (str_eqb _ (u "/reply")).
  { destruct (py_partition SPACE (skipn 7 cmd_line)) as [msg_id_str rest].
    destruct rest; [apply stable_c_print|].
    destruct (py_int msg_id_str); [apply stable_c_send_reply | apply stable_c_print]. }
  destruct (str_eqb _ (u "/search") && _).
  { destruct (str_strip (skipn 8 cmd_line));
      [apply stable_c_print | apply stable_c_search_history]. }
  destruct (str_eqb _ (u "/temp")).
  { destruct (_ <? 4)%nat; [apply stable_c_print|].
    destruct (py_float _); [apply stable_c_send_temp_message | apply stable_c_print]. }
  destruct (str_eqb _ (u "/exit")); [|apply stable_c_print].
  apply preserves_bind; [apply stable_c_set_running | intro; apply stable_c_send_exit].
Qed.

Lemma stable_c_input_commands (inputs : list input_event) :
  preserves P (input_commands inputs).
Proof using Hst Hhist Hsend.
  assert (Hint : preserves P input_interrupted).
  { unfold input_interrupted.
    apply preserves_bind; [apply stable_c_print | intro].
    apply preserves_bind; [apply stable_c_set_running | intro].
    apply stable_c_send_exit. }
  induction inputs as [|ev inputs IH]; intros c H.
  - rewrite input_commands_nil. destruct (negb (c_running c)); [exact H|].
    now apply Hint.
  - destruct ev as [s| |].
    + rewrite input_commands_line. destruct (negb (c_running c)); [exact H|].
      cbv zeta. destruct (str_strip s) as [|ch user_input]; [now apply IH|].
      destruct (str_prefix (u "/") (ch :: user_input)).
      * apply (preserves_bind P (handle_command (ch :: user_input))
                 (fun _ => input_commands inputs)); auto.
        apply stable_c_handle_command.
      * apply (preserves_bind P (print _) (fun _ => input_commands inputs)); auto.
        apply stable_c_print.
    + rewrite input_commands_stop by (now left).
      destruct (negb (c_running c)); [exact H | now apply Hint].
    + rewrite input_commands_stop by (now right).
      destruct (negb (c_running c)); [exact H | now apply Hint].
Qed.

Lemma stable_c_input_loop (inputs : list input_event) : preserves P (input_loop inputs).
Proof using Hst Hhist Hsend.
  unfold input_loop.
  do 7 (apply preserves_bind; [apply stable_c_print | intro]).
  apply preserves_try_finally; [apply stable_c_input_commands | apply stable_c_close].
Qed.

End ClientStable.

Lemma history_evolves_nth (h h' : list entry) (i : nat) (m : entry) :
  history_evolves h h' -> nth_error h i = Some m ->
  exists m', nth_error h' i = Some m' /\ entry_evolves m m'.
Proof.
  intros (h1 & added & -> & H). revert i. induction H as [|x y h h1 Hxy _ IH]; intros i.
  - destruct i; discriminate.
  - destruct i as [|i]; simpl.
    + intros [= <-]. now exists y.
    + apply IH.
Qed.

Lemma evolves_stable (h0 : list entry) :
  stable_c (fun c => history_evolves h0 (history c)).
Proof. intros c c' Hh _ H. now rewrite Hh. Qed.

Lemma evolves_allows (h0 : list entry) :
  allows_history (fun c => history_evolves h0 (history c)).
Proof. intros c h' Hh H. cbn. eapply history_evolves_trans; eauto. Qed.

Lemma evolves_send (h0 : list entry) (obj : pyval) :
  preserves (fun c => history_evolves h0 (history c)) (_send_json obj).
Proof. intros c H. unfold _send_json. now destruct (c_sock c). Qed.

(** The history is append-only and its entries are never rewritten:
    whatever the server sends, whatever the user types and whichever timer
    runs, every entry stays at its position with the same direction, peer,
    text, time stamp, reply target and deadline; a deleted entry stays
    deleted; an id, once set, is never changed. *)
Theorem history_only_evolves (c : ChatClient) :
  (forall script, history_evolves (history c) (history (snd (listen_loop script c))))
  /\ (forall inputs, history_evolves (history c) (history (snd (input_loop inputs c))))
  /\ (forall i, history_evolves (history c) (history (snd (fire_timer i c))))
  /\ (forall h' i m,
        history_evolves (history c) h' -> nth_error (history c) i = Some m ->
        exists m', nth_error h' i = Some m' /\ entry_evolves m m').
Proof.
  repeat split.
  - intro script.
    apply (stable_c_listen_loop _ (evolves_stable _) (evolves_allows _) script c).
    apply history_evolves_refl.
  - intro inputs.
    apply (stable_c_input_loop _ (evolves_stable _) (evolves_allows _)
             (evolves_send _) inputs c).
    apply history_evolves_refl.
  - intro i.
    apply (stable_c_fire_timer _ (evolves_stable _) (evolves_allows _) i c).
    apply history_evolves_refl.
  - intros h' i m. apply history_evolves_nth.
Qed.

Lemma sent_stable (s0 : list pyval) : stable_c (fun c => c_sent c = s0).
Proof. intros c c' _ Hs H. congruence. Qed.

Lemma sent_allows (s0 : list pyval) : allows_history (fun c => c_sent c = s0).
Proof. intros c h' _ H. exact H. Qed.

(** The receiving side never writes to the socket: neither the listener,
    whatever it is sent, nor a timer thread. When the listener ends, for
    whatever reason, the client is marked as not running. *)
Theorem receive_path_never_sends (c : ChatClient) :
  (forall script, c_sent (snd (listen_loop script c)) = c_sent c)
  /\ (forall script, c_running (snd (listen_loop script c)) = false)
  /\ (forall i, c_sent (snd (fire_timer i c)) = c_sent c).
Proof.
  repeat split.
  - intro script.
    now apply (stable_c_listen_loop _ (sent_stable _) (sent_allows _) script c).
  - intro script. unfold listen_loop, try_finally.
    destruct (try_except _ _ _ c) as [r c1]. reflexivity.
  - intro i.
    now apply (stable_c_fire_timer _ (sent_stable _) (sent_allows _) i c).
Qed.

Lemma same_stable (c0 : ChatClient) :
  stable_c (fun c => history c = history c0 /\ c_sent c = c_sent c0).
Proof. intros c c' Hh Hs [H1 H2]. split; congruence. Qed.

(** A search never mutates: however it ends, the history and what was
    written to the socket are as before. *)
Theorem search_never_mutates (keyword : pystr) (c : ChatClient) :
  history (snd (search_history keyword c)) = history c
  /\ c_sent (snd (search_history keyword c)) = c_sent c.
Proof.
  apply (stable_c_search_history _ (same_stable c) keyword c). auto.
Qed.

(** A search goes through exactly when every entry that is not deleted
    has a string as its text; one undeleted entry with another kind of
    text (an inbound packet may carry any JSON value) makes it raise
    [AttributeError]. *)
Theorem search_matches_error (keyword_lower : pystr) (h : list entry) :
  (Forall (fun m => e_deleted m = true \/ exists t, e_text m = PStr t) h ->
   exists l, search_matches keyword_lower h = Ok l)
  /\ (Exists (fun m => e_deleted m = false /\ forall t, e_text m <> PStr t) h ->
      search_matches keyword_lower h = Raise AttributeError).
Proof.
  split.
  - induction 1 as [|m h Hm _ [l IH]]; simpl; [now exists []|].
    destruct (e_deleted m) eqn:Ed; [now exists l|].
    destruct Hm as [Hm|[t Ht]]; [discriminate|].
    rewrite Ht, IH. eexists. reflexivity.
  - assert (G : forall l, (exists e, search_matches keyword_lower l = Raise e) ->
                          search_matches keyword_lower l = Raise AttributeError).
    { induction l as [|m l IHl]; simpl; intros [e He]; [discriminate|].
      destruct (e_deleted m); [now apply IHl; exists e|].
      destruct (e_text m); try reflexivity.
      destruct (search_matches keyword_lower l) as [l'|e'] eqn:El; [discriminate|].
      rewrite IHl; [reflexivity | now exists e']. }
    induction 1 as [m h [Hd Ht]|m h _ IH]; simpl.
    + rewrite Hd. destruct (e_text m); try reflexivity. now destruct (Ht s).
    + destruct (e_deleted m); [exact IH|].
      destruct (e_text m); try reflexivity. now rewrite IH.
Qed.

(** A write that fails leaves no trace: [send_chat] and
    [send_temp_message] raise the error of the socket and record neither
    an entry nor a timer; [send_exit] swallows the error. *)
Theorem failed_send_records_nothing (c : ChatClient) (target_id : pyval)
  (text : pystr) (reply_to temp_until : pyval) (seconds : float) :
  c_sock c <> SockOpen ->
  send_chat target_id text reply_to temp_until c
  = (Raise (send_failure (c_sock c)), c)
  /\ (let (r, c') := send_temp_message target_id text seconds c in
      r = Raise (send_failure (c_sock c))
      /\ history c' = history c /\ timers c' = timers c /\ c_sent c' = c_sent c)
  /\ send_exit c = (Ok tt, c).
Proof.
  intro H. repeat split.
  - unfold send_chat, bind, _send_json. destruct (c_sock c); congruence.
  - unfold send_temp_message, send_chat, bind, c_time, _send_json. cbn.
    destruct (c_sock c); try congruence; cbn; auto.
  - unfold send_exit, try_except, _send_json.
    destruct (c_sock c); try congruence; reflexivity.
Qed.





Lemma printed_nil (c : ChatClient) : printed [] c = c.
Proof. unfold printed. rewrite List.app_nil_r. now destruct c. Qed.

Lemma printed_printed (l l' : list pystr) (c : ChatClient) :
  printed l' (printed l c) = printed (l ++ l') c.
Proof. unfold printed. cbn. now rewrite <- List.app_assoc. Qed.

Lemma bind_ok {St A B : Type} (m : M St A) (k : A -> M St B) (s s' : St) (a : A) :
  m s = (Ok a, s') -> bind m k s = k a s'.
Proof. intro H. unfold bind. now rewrite H. Qed.

Lemma print_client_lines (registered : list (pystr * client_info)) (c : ChatClient) :
  for_each
    (List.map (fun '(cid, info) =>
                 PDict [(u "client_id", PStr cid);
                        (u "address", PStr (str_address (addr info)))])
       registered)
    (fun x =>
       cid <- py_item x (u "client_id") ;;
       a <- py_item x (u "address") ;;
       print (u "  - " ++ py_format cid ++ u " at " ++ py_format a)) c
  = (Ok tt, printed (client_lines registered) c).
Proof.
  revert c. induction registered as [|[cid info] l IH]; intro c.
  - cbn. now rewrite printed_nil.
  - cbn [List.map for_each client_lines].
    rewrite (bind_ok _ _ c
               (printed [u "  - " ++ cid ++ u " at " ++ str_address (addr info)] c) tt)
      by reflexivity.
    rewrite IH, printed_printed. reflexivity.
Qed.

(** The client displays a list of clients as the server builds it:
    [handle_client_list] on a packet that carries the snapshot of the
    registry never raises and prints the header and one line per
    registered client, in the order of the registry. *)
Theorem client_list_displayed (s : ChatServer) (d : list (pystr * pyval))
  (c : ChatClient) :
  dict_lookup d (u "clients") = Some (PList (locked_snapshot s)) ->
  handle_client_list (PDict d) c
  = (Ok tt, printed (u "[CLIENT] Connected clients:" :: client_lines (clients s)) c).
Proof.
  intro Hd. unfold handle_client_list.
  cbv beta iota zeta delta [bind ret py_get modify print]. rewrite Hd.
  unfold locked_snapshot. rewrite print_client_lines.
  f_equal. unfold printed. cbn. now rewrite <- List.app_assoc.
Qed.

Lemma split_delim_spec (buffer line rest : pystr) :
  split_delim buffer = Some (line, rest) ->
  buffer = line ++ DELIMITER :: rest /\ ~ In DELIMITER line.
Proof.
  revert line rest. induction buffer as [|x buffer IH]; simpl; [discriminate|].
  intros line rest. destruct (N.eqb x DELIMITER) eqn:Ex.
  - intros [= <- <-]. apply N.eqb_eq in Ex. subst x. split; [reflexivity|].
    intros [].
  - destruct (split_delim buffer) as [[l r]|]; [|discriminate].
    intros [= <- <-]. destruct (IH l r eq_refl) as [-> Hn].
    split; [reflexivity|]. intros [E|Hin]; [|now apply Hn].
    apply N.eqb_neq in Ex. congruence.
Qed.

Lemma split_delim_none_app (a b : pystr) :
  split_delim (a ++ b) = None -> split_delim a = None.
Proof.
  induction a as [|x a IH]; simpl; [reflexivity|].
  destruct (N.eqb x DELIMITER); [discriminate|].
  destruct (split_delim (a ++ b)) as [[l r]|]; [discriminate|].
  intros _. now rewrite IH.
Qed.

Lemma split_delim_app_some (a b line rest : pystr) :
  split_delim a = Some (line, rest) -> split_delim (a ++ b) = Some (line, rest ++ b).
Proof.
  revert line rest. induction a as [|x a IH]; simpl; [discriminate|].
  intros line rest. destruct (N.eqb x DELIMITER); [now intros [= <- <-]|].
  destruct (split_delim a) as [[l r]|]; [|discriminate].
  intros [= <- <-]. now rewrite (IH l r eq_refl).
Qed.

(** [_recv_line] returns a line once a delimiter has come: when the reads
    (none of them empty, all of them decoding) hold a delimiter, the line
    returned is the text before the first one. Whenever it returns, it has
    read no more chunks than needed for that, and it drops the text that
    came after the delimiter in the last chunk: that text reaches neither
    the caller nor the listener. If the reads end before a delimiter came,
    it raises [ConnectionError]. *)
Theorem recv_line_first_line (script : list recv_event) (buffer : pystr) :
  (forall line rest,
     _recv_line script buffer = (inl line, rest) ->
     exists used text dropped,
       script = used ++ rest
       /\ script_text used = Some text
       /\ buffer ++ text = line ++ DELIMITER :: dropped
       /\ ~ In DELIMITER line
       /\ (forall used' text', (length used' < length used)%nat ->
             firstn (length used') used = used' ->
             script_text used' = Some text' ->
             split_delim (buffer ++ text') = None))
  /\ (forall text,
        script_text script = Some text -> split_delim (buffer ++ text) = None ->
        fst (_recv_line script buffer) = inr ConnectionError)
  /\ (forall text line dropped,
        script_text script = Some text ->
        Forall (fun ev => ev <> RecvData []) script ->
        split_delim (buffer ++ text) = Some (line, dropped) ->
        exists rest, _recv_line script buffer = (inl line, rest)).
Proof.
  split; [|split].
  - revert buffer. induction script as [|ev script IH]; intros buffer line rest.
    + simpl. destruct (split_delim buffer) as [[l r]|] eqn:Es; [|discriminate].
      intros [= <- <-]. destruct (split_delim_spec _ _ _ Es) as [Hb Hn].
      exists [], [], r.
      split; [reflexivity|]. split; [reflexivity|].
      split; [now rewrite List.app_nil_r|].
      split; [exact Hn|]. intros used' text' Hlt. simpl in Hlt. lia.
    + simpl. destruct (split_delim buffer) as [[l r]|] eqn:Es.
      * intros [= <- <-]. destruct (split_delim_spec _ _ _ Es) as [Hb Hn].
        exists [], [], r.
        split; [reflexivity|]. split; [reflexivity|].
        split; [now rewrite List.app_nil_r|].
        split; [exact Hn|]. intros used' text' Hlt. simpl in Hlt. lia.
      * destruct ev as [data| |]; try discriminate.
        destruct data as [|b data]; [discriminate|].
        destruct (utf8_decode (b :: data)) as [t|] eqn:Ed; [|discriminate].
        intro Hrun. destruct (IH _ _ _ Hrun) as (used & text & dropped & -> & Hu & Hb & Hn & Hmin).
        exists (RecvData (b :: data) :: used), (t ++ text), dropped.
        split; [reflexivity|]. split; [cbn [script_text]; now rewrite Ed, Hu|].
        split; [now rewrite List.app_assoc|]. split; [exact Hn|].
        intros used' text' Hlt Hfirst Htext.
        destruct used' as [|ev' used'].
        -- simpl in Htext. injection Htext as <-. now rewrite List.app_nil_r.
        -- simpl in Hfirst. injection Hfirst as <- Hfirst.
           cbn [script_text] in Htext. rewrite Ed in Htext.
           destruct (script_text used') as [t'|] eqn:Et'; [|discriminate].
           injection Htext as <-. rewrite List.app_assoc.
           apply (Hmin used' t'); auto. simpl in Hlt. lia.
  - revert buffer. induction script as [|ev script IH]; intros buffer text.
    + simpl. intros [= <-]. rewrite List.app_nil_r. now intros ->.
    + cbn [script_text]. destruct ev as [data| |]; try discriminate.
      destruct (utf8_decode data) as [t|] eqn:Ed; [|discriminate].
      destruct (script_text script) as [ts|] eqn:Ets; [|discriminate].
      intros [= <-] Hnone. simpl.
      rewrite (split_delim_none_app buffer (t ++ ts) Hnone).
      destruct data as [|b data]; [reflexivity|]. rewrite Ed.
      apply (IH _ ts); [reflexivity|]. now rewrite <- List.app_assoc.
  - revert buffer. induction script as [|ev script IH]; intros buffer text line dropped.
    + simpl. intros [= <-] _. rewrite List.app_nil_r. intros ->.
      now exists [].
    + cbn [script_text]. destruct ev as [data| |]; try discriminate.
      destruct (utf8_decode data) as [t|] eqn:Ed; [|discriminate].
      destruct (script_text script) as [ts|] eqn:Ets; [|discriminate].
      intros [= <-] Hne Hsome. simpl.
      destruct (split_delim buffer) as [[l r]|] eqn:Es.
      * rewrite (split_delim_app_some buffer (t ++ ts) l r Es) in Hsome.
        injection Hsome as <- _. now eexists.
      * inversion Hne as [|? ? Hev Hrest]; subst.
        destruct data as [|b data]; [now destruct Hev|]. rewrite Ed.
        apply (IH (buffer ++ t) ts line dropped); [reflexivity | exact Hrest |].
        now rewrite <- List.app_assoc.
Qed.

(** The handshake, end to end: when the first line the client reads is
    the welcome packet as the server builds it, [connect] takes the
    identity the server allocated, prints it and one line per client of
    the snapshot, and leaves the client running with nothing written to
    the socket. *)
Theorem connect_accepts_welcome (script rest : list recv_event) (line : pystr)
  (client_id : pystr) (s : ChatServer) (c : ChatClient) :
  _recv_line script [] = (inl line, rest) ->
  json_loads line = Some (welcome_packet client_id (locked_snapshot s)) ->
  connect script c
  = (Connected (PStr client_id),
     printed ((u "[CLIENT] Connected as " ++ client_id)
              :: u "[CLIENT] Currently connected clients:"
              :: client_lines (clients s))
       (set_running true c),
     rest).
Proof.
  intros Hline Hjson. unfold connect. rewrite Hline, Hjson.
  unfold welcome_packet, lift_py, print_clients.
  cbv beta iota zeta delta [bind ret py_get py_item modify print].
  replace (dict_lookup _ (u "type")) with (Some (PStr (u "welcome"))) by reflexivity.
  replace (dict_lookup _ (u "client_id")) with (Some (PStr client_id)) by reflexivity.
  replace (dict_lookup _ (u "clients")) with (Some (PList (locked_snapshot s)))
    by reflexivity.
  replace (py_eqb (PStr (u "welcome")) (PStr (u "welcome"))) with true by reflexivity.
  cbv beta iota. cbn [negb]. cbv beta iota.
  unfold locked_snapshot. rewrite print_client_lines.
  f_equal. f_equal. unfold printed, set_running. cbn.
  now rewrite <- !List.app_assoc.
Qed.

Lemma split_char_app (sep : N) (a b : pystr) :
  Forall (fun ch => ch <> sep) a -> split_char sep (a ++ sep :: b) = Some (a, b).
Proof.
  induction 1 as [|x a Hx _ IH]; simpl.
  - now rewrite N.eqb_refl.
  - apply N.eqb_neq in Hx. now rewrite Hx, IH.
Qed.

Lemma split_char_none (sep : N) (a : pystr) :
  Forall (fun ch => ch <> sep) a -> split_char sep a = None.
Proof.
  induction 1 as [|x a Hx _ IH]; simpl; [reflexivity|].
  apply N.eqb_neq in Hx. now rewrite Hx, IH.
Qed.

Lemma py_split_words (a b x : pystr) :
  word a -> word b -> py_split SPACE 2 (a ++ SPACE :: b ++ SPACE :: x) = [a; b; x].
Proof.
  intros Ha Hb. simpl. now rewrite (split_char_app _ _ _ Ha), (split_char_app _ _ _ Hb).
Qed.

Lemma py_split_words3 (a b c x : pystr) :
  word a -> word b -> word c ->
  py_split SPACE 3 (a ++ SPACE :: b ++ SPACE :: c ++ SPACE :: x) = [a; b; c; x].
Proof.
  intros Ha Hb Hc. simpl.
  now rewrite (split_char_app _ _ _ Ha), (split_char_app _ _ _ Hb),
    (split_char_app _ _ _ Hc).
Qed.

Lemma py_split_two (a b : pystr) :
  word a -> word b -> py_split SPACE 2 (a ++ SPACE :: b) = [a; b].
Proof.
  intros Ha Hb. simpl. now rewrite (split_char_app _ _ _ Ha), (split_char_none _ _ Hb).
Qed.

Lemma word_literal (s : string) :
  forallb (fun ch => negb (N.eqb ch SPACE)) (u s) = true -> word (u s).
Proof.
  intro H. apply Forall_forall. intros ch Hin.
  rewrite forallb_forall in H. specialize (H ch Hin).
  apply negb_true_iff in H. now apply N.eqb_neq.
Qed.

(** How a command line is cut. The target of [/msg], the id of [/reply]
    and the target and the seconds of [/temp] are the words between single
    spaces; the text is all that follows the next space, inner spaces
    kept. A [/msg] with a target and no text is refused on the spot and
    nothing is sent. *)
Theorem handle_command_parses (target seconds id text : pystr) :
  word target -> word seconds -> word id -> text <> [] ->
  handle_command (u "/msg " ++ target ++ SPACE :: text)
  = send_chat (PStr target) text PNone PNone
  /\ handle_command (u "/msg " ++ target) = print (u "Unknown or malformed command.")
  /\ handle_command (u "/reply " ++ id ++ SPACE :: text)
     = match py_int id with
       | None => print (u "Message ID must be an integer.")
       | Some msg_id => send_reply msg_id text
       end
  /\ handle_command (u "/temp " ++ target ++ SPACE :: seconds ++ SPACE :: text)
     = match py_float seconds with
       | None => print (u "Seconds must be a number.")
       | Some sec => send_temp_message (PStr target) text sec
       end.
Proof.
  intros Ht Hs Hi Hx.
  split; [|split; [|split]].
  - unfold handle_command.
    change (u "/msg " ++ target ++ SPACE :: text)
      with (u "/msg" ++ SPACE :: target ++ SPACE :: text).
    rewrite (py_split_words (u "/msg") target text (word_literal "/msg" eq_refl) Ht).
    reflexivity.
  - unfold handle_command.
    change (u "/msg " ++ target) with (u "/msg" ++ SPACE :: target).
    rewrite (py_split_two (u "/msg") target (word_literal "/msg" eq_refl) Ht).
    reflexivity.
  - unfold handle_command.
    change (skipn 7 (u "/reply " ++ id ++ SPACE :: text)) with (id ++ SPACE :: text).
    change (u "/reply " ++ id ++ SPACE :: text)
      with (u "/reply" ++ SPACE :: id ++ SPACE :: text).
    rewrite (py_split_words (u "/reply") id text (word_literal "/reply" eq_refl) Hi).
    unfold py_partition. rewrite (split_char_app _ _ _ Hi).
    destruct text as [|x text]; [congruence|]. reflexivity.
  - unfold handle_command.
    change (u "/temp " ++ target ++ SPACE :: seconds ++ SPACE :: text)
      with (u "/temp" ++ SPACE :: target ++ SPACE :: seconds ++ SPACE :: text).
    rewrite (py_split_words (u "/temp") target (seconds ++ SPACE :: text)
               (word_literal "/temp" eq_refl) Ht).
    rewrite (py_split_words3 (u "/temp") target seconds text
               (word_literal "/temp" eq_refl) Ht Hs).
    reflexivity.
Qed.

Lemma send_exit_running (c : ChatClient) :
  fst (send_exit c) = Ok tt /\ c_running (snd (send_exit c)) = c_running c.
Proof.
  unfold send_exit, try_except, _send_json. destruct (c_sock c); split; reflexivity.
Qed.

(** The input loop always closes the socket, however it ends; and [/exit]
    ends it: the exit packet is written if the socket takes it, and no
    later input is read. *)
Theorem input_loop_ends (c : ChatClient) (inputs : list input_event) :
  c_sock (snd (input_loop inputs c)) = SockClosed
  /\ (c_running c = true ->
      input_commands (InputLine (u "/exit") :: inputs) c
      = send_exit (set_running false c)).
Proof.
  split.
  - unfold input_loop.
    cbv beta iota zeta delta [bind modify print try_finally c_close].
    match goal with
    | |- context [input_commands inputs ?c0] => destruct (input_commands inputs c0) as [[[]|e] c1]
    end; reflexivity.
  - intro Hrun. rewrite input_commands_line, Hrun. cbn [negb].
    change (str_strip (u "/exit")) with (u "/exit"). cbv zeta.
    change (u "/exit") with (47%N :: u "exit") at 1. cbv iota.
    change (47%N :: u "exit") with (u "/exit").
    change (str_prefix (u "/") (u "/exit")) with true. cbv iota.
    change (handle_command (u "/exit")) with (modify (set_running false) ;; send_exit)%py.
    cbv beta iota delta [bind modify].
    destruct (send_exit_running (set_running false c)) as [Hr Hk].
    destruct (send_exit (set_running false c)) as [r c1]. cbn in Hr, Hk. subst r.
    destruct inputs as [|[s| |] inputs'].
    + rewrite input_commands_nil, Hk. reflexivity.
    + rewrite input_commands_line, Hk. reflexivity.
    + rewrite (input_commands_stop InputEOF) by auto. now rewrite Hk.
    + rewrite (input_commands_stop InputInterrupt) by auto. now rewrite Hk.
Qed.

Lemma dict_set_fresh {V : Type} (d : list (pystr * V)) (k : pystr) (v : V) :
  dict_lookup d k = None -> dict_set d k v = d ++ [(k, v)].
Proof.
  induction d as [|[k' v'] d IH]; simpl; [reflexivity|].
  destruct (str_eqb k' k); [discriminate|]. intro H. now rewrite IH.
Qed.

Lemma dict_pop_app_fresh {V : Type} (d : list (pystr * V)) (k : pystr) (v : V) :
  dict_lookup d k = None -> dict_pop (d ++ [(k, v)]) k = (Some v, d).
Proof.
  induction d as [|[k' v'] d IH]; simpl.
  - now rewrite str_eqb_refl.
  - destruct (str_eqb k' k); [discriminate|]. intro H. now rewrite IH.
Qed.

Lemma notices_app (packet : pyval) (exclude_id : option pystr)
  (sockets : list sock_state) (d d' : list (pystr * client_info)) :
  notices packet exclude_id sockets (d ++ d')
  = notices packet exclude_id sockets d ++ notices packet exclude_id sockets d'.
Proof. unfold notices. now rewrite filter_app, map_app. Qed.

Lemma notices_self (packet : pyval) (client_id : pystr) (info : client_info)
  (sockets : list sock_state) :
  notices packet (Some client_id) sockets [(client_id, info)] = [].
Proof. unfold notices. cbn. now rewrite str_eqb_refl. Qed.

(** A whole session of a peer that connects and closes without a word,
    when its identity is new to the registry and its socket takes the
    welcome: the worker returns normally; the registry is the one it
    found; the identity counter has moved by one; the socket is closed;
    and what was written is the welcome packet for the peer, then one
    join notice and one leave notice for each client that was registered
    and can be reached. *)
Theorem silent_session (conn : nat) (a : address) (script : list recv_event)
  (w : world) :
  closes_at_once script = true ->
  sock_state_of conn w = SockOpen ->
  dict_lookup (clients (server w)) (fst (locked_register conn a (server w))) = None ->
  let client_id := fst (locked_register conn a (server w)) in
  let snapshot := locked_snapshot (snd (locked_register conn a (server w))) in
  handle_new_client conn a script w
  = (Ok tt,
     {| server := {| clients := clients (server w);
                     next_client_id := next_client_id (server w) + 1;
                     message_counter := message_counter (server w) |};
        socks := list_set (socks w) conn SockClosed;
        wire := wire w ++
          (conn, welcome_packet client_id snapshot)
          :: notices (info_packet (client_id ++ u " joined the chat.") (clock (ticks w)))
               (Some client_id) (socks w) (clients (server w))
          ++ notices (info_packet (client_id ++ u " left the chat.")
                        (clock (S (ticks w))))
               (Some client_id) (list_set (socks w) conn SockClosed)
               (clients (server w));
        ticks := S (S (ticks w)) |}).
Proof.
  intros Hscript Hopen Hfresh client_id snapshot.
  pose (info := {| socket := conn; addr := a; name := client_id |}).
  pose (s1 := snd (locked_register conn a (server w))).
  pose (w1 := set_server s1 w).
  assert (Hs1 : clients s1 = clients (server w) ++ [(client_id, info)]).
  { unfold s1, locked_register. cbn [snd clients]. now apply dict_set_fresh. }
  pose (w3 := {| server := s1; socks := socks w;
                 wire := (wire w ++ [(conn, welcome_packet client_id snapshot)])
                         ++ notices (info_packet (client_id ++ u " joined the chat.")
                                       (clock (ticks w)))
                              (Some client_id) (socks w) (clients s1);
                 ticks := S (ticks w) |}).
  assert (E : handle_new_client conn a script w =
              try_finally
                (try_except is_connection_lost
                   (bind (send_json conn (welcome_packet client_id snapshot))
                      (fun _ =>
                         bind (broadcast_info (client_id ++ u " joined the chat.")
                                 (Some client_id))
                           (fun _ =>
                              recv_loop (conn_closed conn) (fun _ => true) (ret tt)
                                (handle_client_message client_id) script [])))
                   (ret tt))
                (remove_client client_id) w1) by reflexivity.
  assert (Hbody : try_except is_connection_lost
                   (bind (send_json conn (welcome_packet client_id snapshot))
                      (fun _ =>
                         bind (broadcast_info (client_id ++ u " joined the chat.")
                                 (Some client_id))
                           (fun _ =>
                              recv_loop (conn_closed conn) (fun _ => true) (ret tt)
                                (handle_client_message client_id) script [])))
                   (ret tt) w1 = (Ok tt, w3)).
  { unfold try_except, bind, send_json.
    change (sock_state_of conn w1) with (sock_state_of conn w). rewrite Hopen.
    rewrite broadcast_info_spec. cbn [server socks wire ticks w1 set_server].
    fold w3.
    assert (Hc : conn_closed conn w3 = false).
    { unfold conn_closed. change (sock_state_of conn w3) with (sock_state_of conn w).
      now rewrite Hopen. }
    destruct script as [|[[|b data]| |] script']; try discriminate Hscript;
      simpl recv_loop; rewrite Hc; reflexivity. }
  rewrite E. unfold try_finally. rewrite Hbody.
  assert (Hreg : dict_lookup (clients (server w3)) client_id = Some info).
  { cbn [server w3]. unfold s1, locked_register. cbn [snd clients].
    apply dict_lookup_set_same. }
  rewrite (remove_client_present client_id info w3 Hreg).
  assert (Hpop : snd (locked_pop client_id s1)
                 = {| clients := clients (server w);
                      next_client_id := next_client_id (server w) + 1;
                      message_counter := message_counter (server w) |}).
  { unfold locked_pop. rewrite Hs1, (dict_pop_app_fresh _ _ _ Hfresh). reflexivity. }
  cbn [server socks wire ticks w3 socket info]. rewrite Hpop. cbn [clients].
  rewrite Hs1, notices_app, notices_self, List.app_nil_r.
  rewrite <- !List.app_assoc. reflexivity.
Qed.


End Relay.

(* ================================================================= *)
(** ** The code at concrete inputs *)

(** C1. [C001] is registered and its peer is gone. [C002] sends a chat
    packet for [C001]: the target resolves, the forwarding write raises
    [BrokenPipeError], and the exception leaves [handle_client_message]
    with nothing written to anyone; the sender gets neither a receipt nor
    an error packet, and message id 1 is used up. In the worker of a
    connection that does the same right after connecting, the exception
    ends the worker: all the sender ever receives is its welcome packet,
    and the [finally] clause removes the sender from the registry and
    closes its socket. *)
Lemma forward_failure_not_reported :
  clients_get (server world_a_gone) (PStr (u "C001")) = Ok (Some info_a)
  /\ handle_client_message ex_clock ex_json_loads ex_str_other
       (u "C002") (line_chat "C001" "hi") world_a_gone
     = (Raise BrokenPipeError,
        {| server := snd (locked_next_message_id (server world_a_gone));
           socks := socks world_a_gone; wire := [];
           ticks := S (ticks world_a_gone) |})
  /\ (let r := handle_new_client ex_clock ex_json_loads ex_str_other
                 1 addr_b [RecvData segment_chat] world_a_gone_b_new in
      fst r = Raise BrokenPipeError
      /\ List.map (has_type "welcome") (received 1 (wire (snd r))) = [true]
      /\ dict_lookup (clients (server (snd r))) (u "C002") = None
      /\ socks (snd r) = [SockPipe; SockClosed]).
Proof. vm_compute. repeat split. Qed.

(** C4. [C001] and [C002] are registered and [C002] sends a chat packet
    whose [to] is an empty JSON array. No client is registered under that
    value, yet no error packet is sent: the registry lookup raises
    [TypeError], which leaves [handle_client_message] with nothing written
    to anyone. In the worker of a connection that sends this right after
    connecting, the exception ends the worker: all the sender ever receives
    is its welcome packet, and the [finally] clause removes the sender from
    the registry and closes its socket. No message id is used. *)
Lemma unhashable_target_not_reported :
  Forall (fun registered => py_eqb (PStr (fst registered)) (PList []) = false)
    (clients (server world_ab))
  /\ handle_client_message ex_clock ex_json_lookup ex_str_other
       (u "C002") line_chat_to_list world_ab
     = (Raise TypeError,
        {| server := server world_ab; socks := socks world_ab; wire := [];
           ticks := 1 |})
  /\ (let r := handle_new_client ex_clock ex_json_lookup ex_str_other
                 1 addr_b [RecvData segment_chat_to_list] world_a in
      fst r = Raise TypeError
      /\ wire (snd r)
         = [(1%nat,
             PDict [(u "type", PStr (u "welcome"));
                    (u "client_id", PStr (u "C002"));
                    (u "clients",
                     PList [PDict [(u "client_id", PStr (u "C001"));
                                   (u "address", PStr (u "('127.0.0.1', 50001)"))];
                            PDict [(u "client_id", PStr (u "C002"));
                                   (u "address", PStr (u "('127.0.0.1', 50002)"))]])]);
            (0%nat, PDict [(u "type", PStr (u "info"));
                           (u "text", PStr (u "C002 joined the chat."));
                           (u "timestamp", PFloat (ex_clock 0))]);
            (0%nat, PDict [(u "type", PStr (u "info"));
                           (u "text", PStr (u "C002 left the chat."));
                           (u "timestamp", PFloat (ex_clock 2))])]
      /\ dict_lookup (clients (server (snd r))) (u "C002") = None
      /\ socks (snd r) = [SockOpen; SockClosed]
      /\ message_counter (server (snd r)) = 1).
Proof. vm_compute. repeat split; repeat constructor. Qed.

(** C8. [C002] connects and sends, in one segment, an [exit] packet
    followed by a chat packet for [C001]. The server answers the [exit]
    (goodbye, removal from the registry, socket closed, leave notice), and
    then goes on with the line still in its buffer: the chat packet of the
    removed connection is routed to [C001] with message id 1 and the
    counter moves to 2. Only the next [recv] ends the worker, with
    [OSError]. *)
Lemma exit_then_buffered_chat_is_routed :
  let r := handle_new_client ex_clock ex_json_loads ex_str_other
             1 addr_b [RecvData segment_exit_chat] world_a in
  fst r = Raise OSError
  /\ dict_lookup (clients (server (snd r))) (u "C002") = None
  /\ socks (snd r) = [SockOpen; SockClosed]
  /\ List.map (has_type "info") (received 1 (wire (snd r))) = [false; true]
  /\ received 0 (wire (snd r))
     = [info_packet (u "C002 joined the chat.") (ex_clock 0);
        info_packet (u "C002 left the chat.") (ex_clock 2);
        chat_packet 1 (u "C002") (PStr (u "C001")) (PStr (u "hi"))
          (ex_clock 3) PNone]
  /\ message_counter (server (snd r)) = 2.
Proof. vm_compute. repeat split. Qed.

(** C5. The three bytes of an e with acute accent and a newline arrive
    in two reads, cut inside the two-byte character: decoding the first
    read alone raises [UnicodeDecodeError] and no line is ever handed over,
    while the same bytes in one read give the line made of that one
    character. The exception ends the worker of the server and the
    listener of the client alike. *)
Lemma decode_stream_split_character :
  decode_stream [[xc3]; [xa9; x0a]] = (Raise UnicodeDecodeError, [])
  /\ decode_stream [[xc3; xa9; x0a]] = (Ok tt, [[233%N]])
  /\ fst (handle_new_client ex_clock ex_json_loads ex_str_other 1 addr_b
            [RecvData [xc3]; RecvData [xa9; x0a]] world_a)
     = Raise UnicodeDecodeError
  /\ fst (listen_loop ex_json_loads ex_str_other ex_strftime
            [RecvData [xc3]; RecvData [xa9; x0a]] client0)
     = Raise UnicodeDecodeError.
Proof. repeat split; vm_compute; reflexivity. Qed.


(* ================================================================= *)
(** ** The theorems at concrete inputs *)

Lemma message_id_assignment_witness :
  (let (r, w') := route_chat_message ex_clock ex_str_other (u "C002")
                    (msg_chat "C001" "hi") world_ab in
   r = Ok tt
   /\ wire w' = [(0%nat, PDict [(u "type", PStr (u "chat"));
                                (u "message_id", PInt 1);
                                (u "from", PStr (u "C002"));
                                (u "to", PStr (u "C001"));
                                (u "text", PStr (u "hi"));
                                (u "timestamp", PFloat (ex_clock 0));
                                (u "reply_to", PNone)]);
                 (1%nat, PDict [(u "type", PStr (u "receipt"));
                                (u "message_id", PInt 1);
                                (u "to", PStr (u "C001"));
                                (u "status", PStr (u "delivered"));
                                (u "timestamp", PFloat (ex_clock 1))])]
   /\ message_counter (server w') = 2)
  /\ StronglySorted Z.lt
       (message_ids_of
          (fst (run_blocks [BNextMessageId; BRegister 0 addr_a; BNextMessageId;
                            BPop (u "C001"); BNextMessageId] ChatServer_init)))
  /\ Forall (fun mid => 1 <= mid)
       (message_ids_of
          (fst (run_blocks [BNextMessageId; BRegister 0 addr_a; BNextMessageId;
                            BPop (u "C001"); BNextMessageId] ChatServer_init))).
Proof.
  exact (message_id_assignment ex_clock ex_str_other (u "C002")
           (dict_chat "C001" "hi") world_ab info_a info_b
           [BNextMessageId; BRegister 0 addr_a; BNextMessageId;
            BPop (u "C001"); BNextMessageId] ChatServer_init
           eq_refl eq_refl eq_refl eq_refl).
Defined.

Lemma route_unknown_target_witness :
  clients_get (server world_ab) (PStr (u "C999")) = Ok None
  /\ route_chat_message ex_clock ex_str_other (u "C001")
       (msg_chat "C999" "hi") world_ab
     = (Ok tt,
        {| server := server world_ab; socks := socks world_ab;
           wire := [(0%nat, PDict [(u "type", PStr (u "error"));
                                   (u "text", PStr (u "Target client C999 not found."));
                                   (u "timestamp", PFloat (ex_clock 1))])];
           ticks := 2 |}).
Proof.
  split; [reflexivity|].
  exact (route_unknown_target ex_clock ex_str_other (u "C001")
           (dict_chat "C999" "hi") world_ab eq_refl).
Defined.

Lemma welcome_snapshot_witness :
  sock_state_of 1 world_a = SockOpen
  /\ exists rest,
       wire (snd (handle_new_client ex_clock ex_json_loads ex_str_other
                    1 addr_b [RecvData segment_chat] world_a))
       = (1%nat,
          PDict [(u "type", PStr (u "welcome"));
                 (u "client_id", PStr (u "C002"));
                 (u "clients",
                  PList [PDict [(u "client_id", PStr (u "C001"));
                                (u "address", PStr (u "('127.0.0.1', 50001)"))];
                         PDict [(u "client_id", PStr (u "C002"));
                                (u "address", PStr (u "('127.0.0.1', 50002)"))]])])
         :: rest.
Proof.
  split; [reflexivity|].
  exact (proj1 (welcome_snapshot_contains_self ex_clock ex_json_loads ex_str_other
                  1 addr_b [RecvData segment_chat] world_a eq_refl)).
Defined.


Lemma temp_cleanup_sleep_overflow_witness :
  _temp_cleanup_worker ex_clock ex_sleep_overflows (S754_infinity false) (u "x")
    (client_with [entry_out "C002" "x"])
  = (Raise OverflowError,
     {| c_sock := SockOpen; c_sent := []; history := [entry_out "C002" "x"];
        timers := []; stdout := []; c_running := true; c_ticks := 1;
        c_slept := [] |}).
Proof.
  exact (temp_cleanup_sleep_overflow ex_clock ex_sleep_overflows
           (S754_infinity false) (u "x") (client_with [entry_out "C002" "x"])
           eq_refl eq_refl).
Defined.

Lemma reconcile_receipt_witness :
  exists c',
    handle_receipt ex_str_other ex_strftime (PDict (dict_receipt 7 "C002"))
      (client_with [entry_in 3 "C002" "a" false; entry_out "C003" "b";
                    entry_out "C002" "c"; entry_out "C002" "d"])
    = (Ok tt, c')
    /\ history c'
       = [entry_in 3 "C002" "a" false; entry_out "C003" "b";
          {| e_id := PInt 7; e_direction := DirOut; e_peer := PStr (u "C002");
             e_text := PStr (u "c"); e_timestamp := PFloat (float_of_Z 1000);
             e_reply_to := PNone; e_temp_until := PNone; e_deleted := false |};
          entry_out "C002" "d"]
    /\ c_sent c' = [].
Proof.
  refine (proj2 (proj2 (reconcile_receipt_first_match ex_str_other ex_strftime
                          (PStr (u "C002")) (PInt 7)
                          [entry_in 3 "C002" "a" false; entry_out "C003" "b";
                           entry_out "C002" "c"; entry_out "C002" "d"]))
            (dict_receipt 7 "C002") (client_with _) eq_refl eq_refl eq_refl _).
  right. exists (u "12:00:00"). reflexivity.
Defined.

Example reconcile_receipt_example :
  reconcile_receipt (PStr (u "C002")) (PInt 7)
    [entry_in 3 "C002" "a" false; entry_out "C003" "b";
     entry_out "C002" "c"; entry_out "C002" "d"]
  = [entry_in 3 "C002" "a" false; entry_out "C003" "b";
     {| e_id := PInt 7; e_direction := DirOut; e_peer := PStr (u "C002");
        e_text := PStr (u "c"); e_timestamp := PFloat (float_of_Z 1000);
        e_reply_to := PNone; e_temp_until := PNone; e_deleted := false |};
     entry_out "C002" "d"].
Proof. reflexivity. Qed.

Lemma send_reply_witness :
  send_reply ex_clock 3 (u "ok")
    (client_with [entry_out "C003" "b"; entry_in 3 "C002" "a" true])
  = (Ok tt,
     {| c_sock := SockOpen;
        c_sent := [PDict [(u "type", PStr (u "chat")); (u "to", PStr (u "C002"));
                          (u "text", PStr (u "ok")); (u "reply_to", PInt 3)]];
        history := [entry_out "C003" "b"; entry_in 3 "C002" "a" true;
                    {| e_id := PNone; e_direction := DirOut;
                       e_peer := PStr (u "C002"); e_text := PStr (u "ok");
                       e_timestamp := PFloat (ex_clock 0); e_reply_to := PInt 3;
                       e_temp_until := PNone; e_deleted := false |}];
        timers := []; stdout := []; c_running := true; c_ticks := 1;
        c_slept := [] |})
  /\ c_sent (snd (send_reply ex_clock 7 (u "ok")
                    (client_with [entry_in 3 "C002" "a" true;
                                  entry_sent 7 "C003" "b"])))
     = [PDict [(u "type", PStr (u "chat")); (u "to", PStr (u "C003"));
               (u "text", PStr (u "ok")); (u "reply_to", PInt 7)]]
  /\ send_reply ex_clock 4 (u "ok")
       (client_with [entry_out "C003" "b"; entry_in 3 "C002" "a" true])
     = (Ok tt,
        {| c_sock := SockOpen; c_sent := [];
           history := [entry_out "C003" "b"; entry_in 3 "C002" "a" true];
           timers := [];
           stdout := [u "[CLIENT] No message with ID 4 in history."];
           c_running := true; c_ticks := 0; c_slept := [] |}).
Proof.
  split; [|split].
  - refine (proj1 (send_reply_resolution ex_clock 3 (u "ok")
                     (client_with [entry_out "C003" "b";
                                   entry_in 3 "C002" "a" true]))
              [entry_out "C003" "b"] (entry_in 3 "C002" "a" true) []
              eq_refl _ eq_refl eq_refl).
    repeat constructor.
  - refine (f_equal (fun r => c_sent (snd r))
              (proj1 (send_reply_resolution ex_clock 7 (u "ok")
                        (client_with [entry_in 3 "C002" "a" true;
                                      entry_sent 7 "C003" "b"]))
                 [entry_in 3 "C002" "a" true] (entry_sent 7 "C003" "b") []
                 eq_refl _ eq_refl eq_refl)).
    repeat constructor.
  - refine (proj2 (send_reply_resolution ex_clock 4 (u "ok")
                     (client_with [entry_out "C003" "b";
                                   entry_in 3 "C002" "a" true])) _).
    repeat constructor.
Defined.

Lemma decode_stream_chunks_witness :
  decode_stream [[x61]; [x62; x0a; xc3; xa9]; [x0a; x63]]
  = decode_stream [[x61; x62; x0a; xc3; xa9; x0a; x63]].
Proof.
  apply (decode_stream_chunks [[x61]; [x62; x0a; xc3; xa9]; [x0a; x63]]).
  repeat constructor; discriminate.
Defined.

Lemma decode_stream_chunks_ascii_witness :
  decode_stream [[x61]; [x62; x0a]; [x0a; x63; x0a]]
  = decode_stream [[x61; x62; x0a; x0a; x63; x0a]].
Proof.
  apply (decode_stream_chunks_ascii [[x61]; [x62; x0a]; [x0a; x63; x0a]]).
  repeat constructor; discriminate.
Defined.

Lemma exit_effects_witness :
  handle_client_message ex_clock ex_json_loads ex_str_other (u "C002") line_exit
    world_ab
  = (Ok tt,
     {| server := {| clients := [(u "C001", info_a)]; next_client_id := 3;
                     message_counter := 1 |};
        socks := [SockOpen; SockClosed];
        wire := [(1%nat, PDict [(u "type", PStr (u "info"));
                                (u "text", PStr (u "Goodbye!"));
                                (u "timestamp", PFloat (ex_clock 0))]);
                 (0%nat, PDict [(u "type", PStr (u "info"));
                                (u "text", PStr (u "C002 left the chat."));
                                (u "timestamp", PFloat (ex_clock 1))])];
        ticks := 2 |}).
Proof.
  refine (proj1 (exit_effects ex_clock ex_json_loads ex_str_other (u "C002")
                   line_exit [(u "type", PStr (u "exit"))] info_b world_ab
                   eq_refl eq_refl eq_refl eq_refl _)).
  repeat constructor; simpl; intuition discriminate.
Defined.

Lemma remove_client_absent_witness :
  remove_client ex_clock (u "C007") world_ab = (Ok tt, world_ab).
Proof. exact (remove_client_absent ex_clock (u "C007") world_ab eq_refl). Defined.

Lemma route_forward_failure_witness :
  route_chat_message ex_clock ex_str_other (u "C002") (msg_chat "C001" "hi")
    world_a_gone
  = (Raise BrokenPipeError,
     {| server := snd (locked_next_message_id (server world_a_gone));
        socks := socks world_a_gone; wire := []; ticks := 1 |}).
Proof.
  refine (route_forward_failure ex_clock ex_str_other (u "C002")
            (dict_chat "C001" "hi") world_a_gone info_a eq_refl _).
  discriminate.
Defined.

Lemma snapshot_interleaved_witness :
  exists address_string,
    In (PDict [(u "client_id", PStr (u "C001")); (u "address", PStr address_string)])
       (locked_snapshot
          (snd (run_blocks [BRegister 1 addr_b; BNextMessageId; BPop (u "C002")]
                  (snd (locked_register 0 addr_a ChatServer_init))))).
Proof.
  refine (snapshot_contains_self_interleaved 0 addr_a ChatServer_init
            [BRegister 1 addr_b; BNextMessageId; BPop (u "C002")] _).
  repeat constructor. discriminate.
Defined.

Lemma search_matches_witness :
  search_matches (fun s => s) (u "a")
    [entry_in 3 "C002" "bar" true; entry_out "C003" "baz"; entry_out "C002" "x"]
  = Ok [entry_out "C003" "baz"]
  /\ Forall (fun m => e_deleted m = false) [entry_out "C003" "baz"].
Proof.
  split; [reflexivity|].
  exact (proj2 (search_matches_not_deleted (fun s => s) (u "a")
                  [entry_in 3 "C002" "bar" true; entry_out "C003" "baz";
                   entry_out "C002" "x"] _ eq_refl)).
Defined.

Lemma handle_new_client_cleanup_witness :
  let w' := snd (handle_new_client ex_clock ex_json_loads ex_str_other
                   1 addr_b [RecvData segment_chat] world_a) in
  dict_lookup (clients (server w')) (u "C002") = None
  /\ sock_state_of 1 w' = SockClosed
  /\ next_client_id (server w') = 3
  /\ (forall k v, k <> u "C002" ->
                  (In (k, v) (clients (server w')) <-> In (k, v) (clients (server world_a)))).
Proof.
  refine (handle_new_client_cleanup ex_clock ex_json_loads ex_str_other
            1 addr_b [RecvData segment_chat] world_a _).
  repeat constructor. intros [].
Defined.

Lemma silent_session_witness :
  handle_new_client ex_clock ex_json_loads ex_str_other 1 addr_b [] world_a
  = (Ok tt,
     {| server := {| clients := [(u "C001", info_a)]; next_client_id := 3;
                     message_counter := 1 |};
        socks := [SockOpen; SockClosed];
        wire := [(1%nat, PDict [(u "type", PStr (u "welcome"));
                                (u "client_id", PStr (u "C002"));
                                (u "clients",
                                 PList (locked_snapshot (server world_ab)))]);
                 (0%nat, PDict [(u "type", PStr (u "info"));
                                (u "text", PStr (u "C002 joined the chat."));
                                (u "timestamp", PFloat (ex_clock 0))]);
                 (0%nat, PDict [(u "type", PStr (u "info"));
                                (u "text", PStr (u "C002 left the chat."));
                                (u "timestamp", PFloat (ex_clock 1))])];
        ticks := 2 |}).
Proof.
  exact (silent_session ex_clock ex_json_loads ex_str_other 1 addr_b [] world_a
           eq_refl eq_refl eq_refl).
Defined.

Lemma handle_unknown_type_witness :
  handle_client_message ex_clock ex_json_lookup ex_str_other (u "C002") line_ping
    world_ab
  = (Ok tt,
     {| server := server world_ab; socks := socks world_ab;
        wire := [(1%nat, PDict [(u "type", PStr (u "error"));
                                (u "text", PStr (u "Unknown message type: ping"));
                                (u "timestamp", PFloat (ex_clock 0))])];
        ticks := 1 |}).
Proof.
  exact (handle_unknown_type ex_clock ex_json_lookup ex_str_other (u "C002")
           line_ping [(u "type", PStr (u "ping"))] world_ab
           eq_refl eq_refl eq_refl eq_refl).
Defined.

Lemma handle_list_request_witness :
  handle_client_message ex_clock ex_json_lookup ex_str_other (u "C001") line_list
    world_ab
  = (Ok tt,
     {| server := server world_ab; socks := socks world_ab;
        wire := [(0%nat, PDict [(u "type", PStr (u "client_list"));
                                (u "clients",
                                 PList (locked_snapshot (server world_ab)))])];
        ticks := 0 |}).
Proof.
  exact (handle_list_request ex_clock ex_json_lookup ex_str_other (u "C001")
           line_list [(u "type", PStr (u "list"))] world_ab eq_refl eq_refl).
Defined.

Lemma handle_malformed_line_witness :
  handle_client_message ex_clock ex_json_lookup ex_str_other (u "C001") (u "hello")
    world_ab
  = (Ok tt, world_ab).
Proof.
  exact (proj1 (handle_malformed_line ex_clock ex_json_lookup ex_str_other
                  (u "C001") (u "hello") world_ab) eq_refl).
Defined.

Lemma broadcast_info_reach_witness :
  NoDup (List.map fst
           (notices (info_packet (u "hello") (ex_clock 0)) None
              (socks world_ab) (clients (server world_ab)))).
Proof.
  refine (proj2 (proj2 (broadcast_info_reach ex_clock (u "hello") None world_ab)) _).
  repeat constructor; simpl; intuition discriminate.
Defined.

Lemma shutdown_effect_witness :
  exists w', shutdown world_ab = (Ok tt, w')
             /\ clients (server w') = []
             /\ sock_state_of 1 w' = SockClosed.
Proof.
  destruct (shutdown_effect world_ab) as (w' & Hrun & Hreg & _ & _ & _ & Hclosed & _).
  exists w'. split; [exact Hrun|]. split; [exact Hreg|].
  apply (Hclosed (u "C002") info_b). right. left. reflexivity.
Defined.

Lemma history_only_evolves_witness :
  exists m',
    nth_error
      (history (snd (listen_loop ex_json_loads ex_str_other ex_strftime [RecvReset]
                       (client_with [entry_out "C002" "x"])))) 0
    = Some m'
    /\ entry_evolves (entry_out "C002" "x") m'.
Proof.
  destruct (history_only_evolves ex_clock ex_json_loads ex_str_other ex_strftime
              (fun s => s) ex_sleep_overflows ex_py_int ex_py_float ex_strftime
              (client_with [entry_out "C002" "x"])) as (Hlisten & _ & _ & Hnth).
  exact (Hnth _ 0%nat _ (Hlisten [RecvReset]) eq_refl).
Defined.

Lemma search_matches_error_witness :
  search_matches (fun s => s) (u "a")
    [entry_out "C003" "baz";
     {| e_id := PInt 4; e_direction := DirIn; e_peer := PStr (u "C002");
        e_text := PInt 5; e_timestamp := PFloat (float_of_Z 1000);
        e_reply_to := PNone; e_temp_until := PNone; e_deleted := false |}]
  = Raise AttributeError.
Proof.
  apply (proj2 (search_matches_error (fun s => s) (u "a") _)).
  apply Exists_cons_tl. apply Exists_cons_hd. split; [reflexivity | discriminate].
Defined.

Lemma failed_send_witness :
  send_chat ex_clock (PStr (u "C001")) (u "hi") PNone PNone client_gone
  = (Raise BrokenPipeError, client_gone).
Proof.
  refine (proj1 (failed_send_records_nothing ex_clock client_gone (PStr (u "C001"))
                   (u "hi") PNone PNone (float_of_Z 5) _)).
  discriminate.
Defined.



Lemma client_list_displayed_witness :
  handle_client_list ex_str_other
    (PDict [(u "type", PStr (u "client_list"));
            (u "clients", PList (locked_snapshot (server world_ab)))]) client0
  = (Ok tt,
     printed [u "[CLIENT] Connected clients:";
              u "  - C001 at ('127.0.0.1', 50001)";
              u "  - C002 at ('127.0.0.1', 50002)"] client0).
Proof.
  exact (client_list_displayed ex_str_other (server world_ab)
           [(u "type", PStr (u "client_list"));
            (u "clients", PList (locked_snapshot (server world_ab)))]
           client0 eq_refl).
Defined.


Lemma recv_line_witness :
  (exists rest,
     _recv_line [RecvData (ascii_bytes (u "{"));
                 RecvData (ascii_bytes (u "}" ++ [DELIMITER] ++ u "x"));
                 RecvData (ascii_bytes (u "y"))] []
     = (inl (u "{}"), rest))
  /\ fst (_recv_line [RecvData (ascii_bytes (u "{")); RecvData (ascii_bytes (u "}"))] [])
     = inr ConnectionError.
Proof.
  split.
  - refine (proj2 (proj2 (recv_line_first_line
                            [RecvData (ascii_bytes (u "{"));
                             RecvData (ascii_bytes (u "}" ++ [DELIMITER] ++ u "x"));
                             RecvData (ascii_bytes (u "y"))] []))
              (u "{}" ++ [DELIMITER] ++ u "xy") (u "{}") (u "xy") eq_refl _ eq_refl).
    repeat constructor; discriminate.
  - exact (proj1 (proj2 (recv_line_first_line
                           [RecvData (ascii_bytes (u "{"));
                            RecvData (ascii_bytes (u "}"))] []))
             (u "{}") eq_refl eq_refl).
Defined.

Lemma connect_accepts_welcome_witness :
  connect ex_json_lookup ex_str_other
    [RecvData (ascii_bytes (line_welcome ++ [DELIMITER] ++ line_list));
     RecvData (ascii_bytes [DELIMITER])] client0
  = (Connected (PStr (u "C002")),
     printed [u "[CLIENT] Connected as C002";
              u "[CLIENT] Currently connected clients:";
              u "  - C001 at ('127.0.0.1', 50001)";
              u "  - C002 at ('127.0.0.1', 50002)"] client0,
     [RecvData (ascii_bytes [DELIMITER])]).
Proof.
  exact (connect_accepts_welcome ex_json_lookup ex_str_other
           [RecvData (ascii_bytes (line_welcome ++ [DELIMITER] ++ line_list));
            RecvData (ascii_bytes [DELIMITER])]
           [RecvData (ascii_bytes [DELIMITER])] line_welcome (u "C002")
           (server world_ab) client0 eq_refl eq_refl).
Defined.

Lemma handle_command_parses_witness :
  handle_command ex_clock ex_str_other (fun s => s) ex_py_int ex_py_float ex_strftime
    (u "/msg C001 hello  world")
  = send_chat ex_clock (PStr (u "C001")) (u "hello  world") PNone PNone.
Proof.
  refine (proj1 (handle_command_parses ex_clock ex_str_other (fun s => s)
                   ex_py_int ex_py_float ex_strftime
                   (u "C001") (u "5") (u "3") (u "hello  world") _ _ _ _)).
  - apply (word_literal "C001"). reflexivity.
  - apply (word_literal "5"). reflexivity.
  - apply (word_literal "3"). reflexivity.
  - discriminate.
Defined.

Lemma input_loop_ends_witness :
  input_commands ex_clock ex_str_other (fun s => s) ex_py_int ex_py_float ex_strftime
    [InputLine (u "/exit"); InputLine (u "/list")] client0
  = (Ok tt,
     {| c_sock := SockOpen; c_sent := [PDict [(u "type", PStr (u "exit"))]];
        history := []; timers := []; stdout := []; c_running := false;
        c_ticks := 0; c_slept := [] |}).
Proof.
  exact (proj2 (input_loop_ends ex_clock ex_str_other (fun s => s) ex_py_int
                  ex_py_float ex_strftime client0 [InputLine (u "/list")]) eq_refl).
Defined.
